(** * kq worker: the consume / decode / execute / dispatch / commit loop

    A shallow embedding of [kq/worker.py] (class [Worker]) and the
    properties of its per-record state machine.

    The worker talks to three things it does not own: the pickled payloads
    ([dill.loads]), the user's code (the job's callable and the optional
    callback) and the Kafka broker.  They are gathered in a record [Env] over
    an abstract state [U] of the outside world.  Everything the worker itself
    does is written in a small state-and-exception monad [M] over a [World]
    that keeps the outside state, the trace of observable actions, the number
    of pools and producers built so far and the consumer's position.

    Logging is left out, with one exception: the line
    [Processing <record> ...] that opens every call of [_consume_record] is
    kept as the event [EvProcessing], since it marks the start of an attempt.
    The helpers [rec_repr] and [func_repr] only feed the logger. *)

From Stdlib Require Import ZArith List Ascii String Bool Lia.
From Stdlib Require Import Init.Byte.
Import ListNotations.

#[local] Set Warnings "-register-all".
Local Open Scope string_scope.
Local Open Scope list_scope.
Local Open Scope Z_scope.

(* ================================================================== *)
(** * Python values and exceptions *)
(* ================================================================== *)

Definition bytes : Type := list Byte.byte.

(** The Python values that reach the worker: what [dill.loads] yields, what
    a job returns and what the callback answers.  [Job] is the namedtuple of
    [kq/job.py]; only the fields the worker reads are kept. *)
Inductive PyVal : Type :=
| VNone
| VBool (b : bool)
| VInt (z : Z)
| VStr (s : string)
| VBytes (b : bytes)
| VList (l : list PyVal)
| VDict (d : list (string * PyVal))
| VFunc (name : string)
| VJob (j : Job)
with Job : Type :=
| mkJob (id : string) (func args kwargs : PyVal)
        (timeout : option Z) (key : option bytes).

Definition job_id (j : Job) : string :=
  match j with mkJob i _ _ _ _ _ => i end.
Definition job_func (j : Job) : PyVal :=
  match j with mkJob _ f _ _ _ _ => f end.
Definition job_args (j : Job) : PyVal :=
  match j with mkJob _ _ a _ _ _ => a end.
Definition job_kwargs (j : Job) : PyVal :=
  match j with mkJob _ _ _ k _ _ => k end.
Definition job_timeout (j : Job) : option Z :=
  match j with mkJob _ _ _ _ t _ => t end.
Definition job_key (j : Job) : option bytes :=
  match j with mkJob _ _ _ _ _ k => k end.

(** The exception classes the worker tells apart in its [except] clauses. *)
Inductive ExcClass : Type :=
| MpTimeoutError                      (* multiprocessing.TimeoutError *)
| KafkaError                          (* kafka.errors.KafkaError and subclasses *)
| AttributeError
| OtherException (name : string)      (* any other subclass of Exception *)
| KeyboardInterrupt
| OtherBaseException (name : string). (* SystemExit, GeneratorExit, ... *)

Record PyExc : Type := mkExc {
  exc_class : ExcClass;
  exc_message : option string;   (* the attribute [message], when there is one *)
  exc_trace : string             (* what [traceback.format_exc()] prints for it *)
}.

(** [isinstance(e, Exception)] *)
Definition is_Exception (e : PyExc) : bool :=
  match exc_class e with
  | KeyboardInterrupt | OtherBaseException _ => false
  | _ => true
  end.

(** [isinstance(e, mp.TimeoutError)] *)
Definition is_mp_TimeoutError (e : PyExc) : bool :=
  match exc_class e with MpTimeoutError => true | _ => false end.

(** [isinstance(e, KafkaError)] *)
Definition is_KafkaError (e : PyExc) : bool :=
  match exc_class e with KafkaError => true | _ => false end.

(** [isinstance(e, KeyboardInterrupt)] *)
Definition is_KeyboardInterrupt (e : PyExc) : bool :=
  match exc_class e with KeyboardInterrupt => true | _ => false end.

Definition mp_timeout_error : PyExc :=
  mkExc MpTimeoutError None "multiprocessing.TimeoutError".

Definition attribute_error (attr : string) : PyExc :=
  mkExc AttributeError None ("AttributeError: " ++ attr)%string.

(** [isinstance(v, collections.Iterable)]; a namedtuple is a tuple. *)
Definition is_iterable (v : PyVal) : bool :=
  match v with
  | VStr _ | VBytes _ | VList _ | VDict _ | VJob _ => true
  | _ => false
  end.

(** [isinstance(v, collections.Mapping)] *)
Definition is_mapping (v : PyVal) : bool :=
  match v with VDict _ => true | _ => false end.

(** [callable(v)] *)
Definition callable (v : PyVal) : bool :=
  match v with VFunc _ => true | _ => false end.

(** [v == n] for an integer literal [n]: booleans are integers in Python. *)
Definition py_eq_int (v : PyVal) (n : Z) : bool :=
  match v with
  | VInt z => z =? n
  | VBool b => (if b then 1 else 0) =? n
  | _ => false
  end.

(** [v is None] *)
Definition is_None (v : PyVal) : bool :=
  match v with VNone => true | _ => false end.

(** Truth value of an optional number: [None] and [0] are false. *)
Definition truthy (t : option Z) : bool :=
  match t with
  | Some z => negb (z =? 0)
  | None => false
  end.

(** [a or b] on optional numbers. *)
Definition py_or (a b : option Z) : option Z :=
  if truthy a then a else b.

(** [a or d] where [d] is a number. *)
Definition py_or_default (a : option Z) (d : Z) : Z :=
  match py_or a (Some d) with
  | Some z => z
  | None => d
  end.

(* ================================================================== *)
(** * Records, pools, queues *)
(* ================================================================== *)

(** [kafka.consumer.fetcher.ConsumerRecord] *)
Record ConsumerRecord : Type := mkRecord {
  topic : string;
  partition : Z;
  offset : Z;
  key : option bytes;
  value : bytes
}.

(** [multiprocessing.Pool]: [pool_id] tells one pool object from another. *)
Record Pool : Type := mkPool { pool_id : nat; processes : Z }.

(** What a call of user code does: it returns or raises after [d] seconds,
    or never comes back.  For a call sent to the pool, [d] is the time from
    [apply_async] until the result is available, so it includes the wait for
    the pool's one process. *)
Inductive Behaviour : Type :=
| Returns (d : Z) (v : PyVal)
| Raises (d : Z) (e : PyExc)
| Hangs.

(** The arguments of [kq.Queue(...)] as [_fail_record] passes them. *)
Record QueueConfig : Type := mkQueueConfig {
  q_hosts : string;
  q_topic : string;
  q_timeout : Z;
  q_acks : Z;
  q_retries : Z;
  q_job_size : Z;
  q_cafile : option string;
  q_certfile : option string;
  q_keyfile : option string;
  q_crlfile : option string
}.

(** The observable actions of a worker, in the order they happen. *)
Inductive Event : Type :=
| EvPoolCreate (p : Pool)
| EvPoolTerminate (p : Pool)
| EvFetch (r : ConsumerRecord)
| EvProcessing (r : ConsumerRecord)
| EvLoads (b : bytes)
| EvCall (func args kwargs : PyVal)
| EvApplyAsync (p : Pool) (func args kwargs : PyVal)
| EvGet (timeout : Z)
| EvCallback (status : string) (job : Job) (result : PyVal)
             (exception : option PyExc) (traceback : option string)
             (try_count : Z)
| EvQueue (cfg : QueueConfig)
| EvProducer (producer : nat) (cfg : QueueConfig)
| EvSend (producer : nat) (topic : string) (value : bytes)
         (key : option bytes)
| EvFutureGet (timeout : Z)
| EvCommit (position : option (Z * Z)).

(* ================================================================== *)
(** * The world and the monad *)
(* ================================================================== *)

(** The outcome of a computation: a value, a Python exception on its way
    up, a caller blocked for ever in user code, or a loop of the model cut
    short by its fuel. *)
Inductive Result (A : Type) : Type :=
| Done (a : A)
| Raised (e : PyExc)
| Hung
| OutOfFuel.

Arguments Done {A} a.
Arguments Raised {A} e.
Arguments Hung {A}.
Arguments OutOfFuel {A}.

Section World.

Variable U : Type.

Record World : Type := mkWorld {
  w_ext : U;                       (* the outside world *)
  w_trace : list Event;            (* what has happened, oldest first *)
  w_pools : nat;                   (* pools created so far *)
  w_producers : nat;               (* producers created so far *)
  w_position : option (Z * Z)      (* partition and next offset of the consumer *)
}.

Definition add_event (ev : Event) (w : World) : World :=
  mkWorld (w_ext w) (w_trace w ++ [ev]) (w_pools w) (w_producers w)
          (w_position w).

Definition set_ext (u : U) (w : World) : World :=
  mkWorld u (w_trace w) (w_pools w) (w_producers w) (w_position w).

Definition M (A : Type) : Type := World -> Result A * World.

Definition ret {A : Type} (a : A) : M A := fun w => (Done a, w).

Definition bind {A B : Type} (m : M A) (k : A -> M B) : M B :=
  fun w =>
    match m w with
    | (Done a, w') => k a w'
    | (Raised e, w') => (Raised e, w')
    | (Hung, w') => (Hung, w')
    | (OutOfFuel, w') => (OutOfFuel, w')
    end.

Definition raise {A : Type} (e : PyExc) : M A := fun w => (Raised e, w).

Definition log (ev : Event) : M unit := fun w => (Done tt, add_event ev w).

(** [try: body  except ...: handler  else: orelse].  The handler sees
    every exception and re-raises those its clauses do not name; the [else]
    part runs outside the protection of the [try]. *)
Definition try_except_else {A B : Type}
    (body : M A) (handler : PyExc -> M B) (orelse : A -> M B) : M B :=
  fun w =>
    match body w with
    | (Done a, w') => orelse a w'
    | (Raised e, w') => handler e w'
    | (Hung, w') => (Hung, w')
    | (OutOfFuel, w') => (OutOfFuel, w')
    end.

End World.

Arguments mkWorld {U} _ _ _ _ _.
Arguments w_ext {U} _.
Arguments w_trace {U} _.
Arguments w_pools {U} _.
Arguments w_producers {U} _.
Arguments w_position {U} _.
Arguments add_event {U} _ _.
Arguments set_ext {U} _ _.
Arguments ret {U A} _ _.
Arguments bind {U A B} _ _ _.
Arguments raise {U A} _ _.
Arguments log {U} _ _.
Arguments try_except_else {U A B} _ _ _ _.

Declare Scope py_scope.
Delimit Scope py_scope with py.
Notation "x <- m ;; k" := (bind m (fun x => k))
  (at level 61, m at next level, right associativity) : py_scope.
Notation "m ;; k" := (bind m (fun _ => k))
  (at level 61, right associativity) : py_scope.
Local Open Scope py_scope.

(* ================================================================== *)
(** * What the worker does not own *)
(* ================================================================== *)

(** The signature of the callback:
    [callback(status, job, result, exception, traceback, try_count)].
    It answers with a value or raises, and may change the outside world. *)
Definition Callback (U : Type) : Type :=
  string -> Job -> PyVal -> option PyExc -> option string -> Z ->
  U -> (PyVal + PyExc) * U.

Record Env (U : Type) : Type := mkEnv {
  (** [dill.loads(payload)]: the object, or the exception it raises *)
  dill_loads : bytes -> PyVal + PyExc;
  (** the call of the job's callable on its arguments *)
  invoke : PyVal -> PyVal -> PyVal -> U -> Behaviour * U;
  (** does the constructor of [kq.Queue] raise? *)
  queue_connect : QueueConfig -> U -> option PyExc * U;
  (** does [producer.send(topic, value, key=key)] raise? *)
  producer_send : nat -> string -> bytes -> option bytes -> U ->
                  option PyExc * U;
  (** does [future.get(timeout=t)] raise? *)
  future_get : Z -> U -> option PyExc * U
}.

Arguments dill_loads {U} _ _.
Arguments invoke {U} _ _ _ _ _.
Arguments queue_connect {U} _ _ _.
Arguments producer_send {U} _ _ _ _ _ _.
Arguments future_get {U} _ _ _.

(** The attributes of a [Worker] that [__init__] sets and the loop reads. *)
Record Worker (U : Type) : Type := mkWorker {
  _hosts : string;
  _topic : string;
  _timeout : option Z;
  _connect_timeout : Z;
  _callback : option (Callback U);
  _pool : option Pool;
  _job_size : Z;
  _cafile : option string;
  _certfile : option string;
  _keyfile : option string;
  _crlfile : option string
}.

Arguments mkWorker {U} _ _ _ _ _ _ _ _ _ _ _.
Arguments _hosts {U} _.
Arguments _topic {U} _.
Arguments _timeout {U} _.
Arguments _connect_timeout {U} _.
Arguments _callback {U} _.
Arguments _pool {U} _.
Arguments _job_size {U} _.
Arguments _cafile {U} _.
Arguments _certfile {U} _.
Arguments _keyfile {U} _.
Arguments _crlfile {U} _.

(** [Worker.__init__]: the attribute assignments of lines 107-118. *)
Definition Worker_init {U : Type} (hosts topic : string) (timeout : option Z)
    (connect_timeout : option Z) (callback : option (Callback U))
    (job_size : Z) (cafile certfile keyfile crlfile : option string)
    : Worker U :=
  mkWorker hosts topic timeout (py_or_default connect_timeout 5) callback
           None job_size cafile certfile keyfile crlfile.

(** [self._pool = pool] *)
Definition set_pool {U : Type} (self : Worker U) (pool : Pool) : Worker U :=
  mkWorker (_hosts self) (_topic self) (_timeout self)
           (_connect_timeout self) (_callback self) (Some pool)
           (_job_size self) (_cafile self) (_certfile self) (_keyfile self)
           (_crlfile self).

(* ================================================================== *)
(** * The worker *)
(* ================================================================== *)

Section WorkerCode.

Variable U : Type.
Variable E : Env U.

(** ** Library calls *)

(** One step of the outside world. *)
Definition ext {A : Type} (f : U -> A * U) : M U A :=
  fun w => let (a, u') := f (w_ext w) in (Done a, set_ext u' w).

Definition hang {A : Type} : M U A := fun w => (Hung, w).

Definition out_of_fuel {A : Type} : M U A := fun w => (OutOfFuel, w).

(** [dill.loads(payload)] *)
Definition loads (payload : bytes) : M U PyVal :=
  log (EvLoads payload) ;;
  match dill_loads E payload with
  | inl v => ret v
  | inr e => raise e
  end.

(** The call of [func] on [args] and [kwargs] in the calling process:
    nothing bounds it. *)
Definition call (func args kwargs : PyVal) : M U PyVal :=
  log (EvCall func args kwargs) ;;
  b <- ext (invoke E func args kwargs) ;;
  match b with
  | Returns _ v => ret v
  | Raises _ e => raise e
  | Hangs => hang
  end.

(** [pool.apply_async(func, args, kwargs)]: the task is handed to the pool
    and the caller keeps a handle on what it will do. *)
Definition apply_async (pool : option Pool) (func args kwargs : PyVal)
    : M U Behaviour :=
  match pool with
  | None => raise (attribute_error "apply_async")
  | Some p =>
      log (EvApplyAsync p func args kwargs) ;;
      ext (invoke E func args kwargs)
  end.

(** [run.get(timeout)]: the result if it is there within [timeout]
    seconds, [multiprocessing.TimeoutError] otherwise.  The process of the
    pool hands back what the task returned or the [Exception] it raised; an
    exception outside [Exception] ([KeyboardInterrupt], [SystemExit]) ends
    that process without any result, so the wait runs into the timeout. *)
Definition async_get (run : Behaviour) (timeout : Z) : M U PyVal :=
  log (EvGet timeout) ;;
  match run with
  | Returns d v => if d <=? timeout then ret v else raise mp_timeout_error
  | Raises d e =>
      if (d <=? timeout) && is_Exception e then raise e
      else raise mp_timeout_error
  | Hangs => raise mp_timeout_error
  end.

(** [mp.Pool(processes=n)] *)
Definition mp_Pool (n : Z) : M U Pool :=
  fun w =>
    let p := mkPool (w_pools w) n in
    (Done p,
     mkWorld (w_ext w) (w_trace w ++ [EvPoolCreate p]) (S (w_pools w))
             (w_producers w) (w_position w)).

(** [pool.terminate()] *)
Definition terminate (pool : option Pool) : M U unit :=
  match pool with
  | None => raise (attribute_error "terminate")
  | Some p => log (EvPoolTerminate p)
  end.

(** The consumer hands the next record to the [for] loop. *)
Definition consumer_next (record : ConsumerRecord) : M U unit :=
  fun w =>
    (Done tt,
     mkWorld (w_ext w) (w_trace w ++ [EvFetch record]) (w_pools w)
             (w_producers w) (Some (partition record, offset record + 1))).

(** [self._consumer.commit()]: commits the consumer's position.  What the
    broker answers is not part of the model. *)
Definition consumer_commit : M U unit :=
  fun w => (Done tt, add_event (EvCommit (w_position w)) w).

(** [obj.key] *)
Definition getattr_key (obj : PyVal) : M U (option bytes) :=
  match obj with
  | VJob j => ret (job_key j)
  | _ => raise (attribute_error "key")
  end.

(** [e.message] *)
Definition getattr_message (e : PyExc) : M U string :=
  match exc_message e with
  | Some m => ret m
  | None => raise (attribute_error "message")
  end.

(** Modelled from the spec: the class [Queue] of [kq/queue.py], which
    [_fail_record] instantiates, is not among the sources.  The spec has the
    forwarder build a producer for the dead-letter topic and names the
    "per-failure producer construction": every [Queue(...)] connects to the
    broker and, when that succeeds, owns a producer of its own. *)
Record Queue : Type := mkQueue {
  q_config : QueueConfig;
  producer : nat
}.

Definition Queue_init (cfg : QueueConfig) : M U Queue :=
  log (EvQueue cfg) ;;
  r <- ext (queue_connect E cfg) ;;
  match r with
  | Some e => raise e
  | None =>
      fun w =>
        let p := w_producers w in
        (Done (mkQueue cfg p),
         mkWorld (w_ext w) (w_trace w ++ [EvProducer p cfg]) (w_pools w)
                 (S p) (w_position w))
  end.

(** [q.producer.send(topic, value, key=key)] *)
Definition send (p : nat) (tpc : string) (payload : bytes)
    (k : option bytes) : M U unit :=
  log (EvSend p tpc payload k) ;;
  r <- ext (producer_send E p tpc payload k) ;;
  match r with
  | Some e => raise e
  | None => ret tt
  end.

(** [future.get(timeout=t)] *)
Definition get_future (t : Z) : M U unit :=
  log (EvFutureGet t) ;;
  r <- ext (future_get E t) ;;
  match r with
  | Some e => raise e
  | None => ret tt
  end.

(** [self._callback(status, job, result, exception, traceback, try_count)] *)
Definition call_callback (cb : Callback U) (status : string) (job : Job)
    (result : PyVal) (exception : option PyExc) (traceback : option string)
    (try_count : Z) : M U PyVal :=
  log (EvCallback status job result exception traceback try_count) ;;
  r <- ext (cb status job result exception traceback try_count) ;;
  match r with
  | inl v => ret v
  | inr e => raise e
  end.

(** ** The methods of [Worker] *)

(** [Worker._exec_callback], lines 155-182. *)
Definition _exec_callback (self : Worker U) (status : string) (job : Job)
    (result : PyVal) (exception : option PyExc) (traceback : option string)
    (try_count : Z) : M U PyVal :=
  resp <- match _callback self with
          | Some cb =>
              try_except_else
                (call_callback cb status job result exception traceback
                               try_count)
                (fun e => if is_Exception e then ret VNone else raise e)
                (fun r => ret r)
          | None => ret VNone
          end ;;
  ret (if is_None resp then VInt 1 else resp).

(** [Worker._get_fail_topic], lines 184-185. *)
Definition _get_fail_topic (self : Worker U) : string :=
  (_topic self ++ ".failed")%string.

(** [Worker._fail_record], lines 187-222. *)
Definition _fail_record (self : Worker U) (record : ConsumerRecord)
    : M U bool :=
  let fail_topic := _get_fail_topic self in
  q <- Queue_init (mkQueueConfig (_hosts self) fail_topic
                     (_connect_timeout self) (-1) 5 (_job_size self)
                     (_cafile self) (_certfile self) (_keyfile self)
                     (_crlfile self)) ;;
  k <- try_except_else
         (obj <- loads (value record) ;; getattr_key obj)
         (fun _ => ret None)
         (fun k => ret k) ;;
  send (producer q) fail_topic (value record) k ;;
  try_except_else
    (get_future (py_or_default (_timeout self) 5))
    (fun e =>
       if is_KafkaError e
       then (_ <- getattr_message e ;; ret false)
       else raise e)
    (fun _ => ret true).

(** The validity check of lines 246-249; it gives the job back when the
    check passes. *)
Definition check_job (job : PyVal) : option Job :=
  match job with
  | VJob j =>
      if is_iterable (job_args j) && is_mapping (job_kwargs j)
         && callable (job_func j)
      then Some j
      else None
  | _ => None
  end.

(** The body of the inner [try] of [_consume_record], lines 258-263. *)
Definition run_job (self : Worker U) (job : Job) : M U PyVal :=
  let timeout := py_or (_timeout self) (job_timeout job) in
  match timeout with
  | None => call (job_func job) (job_args job) (job_kwargs job)
  | Some t =>
      run <- apply_async (_pool self) (job_func job) (job_args job)
                         (job_kwargs job) ;;
      async_get run t
  end.

(** [Worker._consume_record], lines 225-274. *)
Definition _consume_record (self : Worker U) (record : ConsumerRecord)
    (try_count : Z) : M U PyVal :=
  log (EvProcessing record) ;;
  try_except_else
    (loads (value record))
    (fun _ => ret (VInt (-1)))
    (fun job =>
       match check_job job with
       | None => ret (VInt (-1))
       | Some j =>
           try_except_else
             (run_job self j)
             (fun e =>
                if is_mp_TimeoutError e
                then _exec_callback self "timeout" j VNone None None
                                    try_count
                else if is_Exception e
                then _exec_callback self "failure" j VNone (Some e)
                                    (Some (exc_trace e)) try_count
                else raise e)
             (fun res =>
                _exec_callback self "success" j res None None try_count)
       end).

(** The [while] loop of [start], lines 325-327.  The loop has no bound of
    its own; [fuel] is the number of turns the model is willing to follow. *)
Fixpoint attempts (fuel : nat) (self : Worker U) (record : ConsumerRecord)
    (commit_control : PyVal) (try_count : Z) : M U PyVal :=
  if py_eq_int commit_control 0 then
    match fuel with
    | O => out_of_fuel
    | S fuel' =>
        cc <- _consume_record self record try_count ;;
        attempts fuel' self record cc (try_count + 1)
    end
  else ret commit_control.

(** What [start] does with the decision the loop ends on, lines 329-333. *)
Definition conclude (self : Worker U) (record : ConsumerRecord)
    (commit_control : PyVal) : M U unit :=
  if py_eq_int commit_control (-1) then
    ok <- _fail_record self record ;;
    if ok : bool then consumer_commit else ret tt
  else consumer_commit.

(** The body of the [for] loop of [start], lines 323-333. *)
Definition start_record (fuel : nat) (self : Worker U)
    (record : ConsumerRecord) : M U unit :=
  consumer_next record ;;
  commit_control <- attempts fuel self record (VInt 0) 0 ;;
  conclude self record commit_control.

(** The [for] loop over the records the consumer delivers. *)
Fixpoint for_records (fuel : nat) (self : Worker U)
    (records : list ConsumerRecord) : M U unit :=
  match records with
  | [] => ret tt
  | record :: rest =>
      start_record fuel self record ;;
      for_records fuel self rest
  end.

(** [Worker.start], lines 312-336, on the records delivered so far.  A
    result [Done] after the last of them stands for a worker that waits for
    the next record. *)
Definition start (fuel : nat) (self : Worker U)
    (records : list ConsumerRecord) : M U unit :=
  pool <- mp_Pool 1 ;;
  let self := set_pool self pool in
  try_except_else
    (for_records fuel self records)
    (fun e =>
       if is_KeyboardInterrupt e then terminate (_pool self) else raise e)
    (fun _ => ret tt).

End WorkerCode.

Arguments ext {U A} _ _.
Arguments loads {U} _ _ _.
Arguments call {U} _ _ _ _ _.
Arguments apply_async {U} _ _ _ _ _ _.
Arguments async_get {U} _ _ _.
Arguments mp_Pool {U} _ _.
Arguments terminate {U} _ _.
Arguments consumer_next {U} _ _.
Arguments consumer_commit {U} _.
Arguments getattr_key {U} _ _.
Arguments getattr_message {U} _ _.
Arguments Queue_init {U} _ _ _.
Arguments send {U} _ _ _ _ _ _.
Arguments get_future {U} _ _ _.
Arguments call_callback {U} _ _ _ _ _ _ _ _.
Arguments _exec_callback {U} _ _ _ _ _ _ _ _.
Arguments _get_fail_topic {U} _.
Arguments _fail_record {U} _ _ _ _.
Arguments run_job {U} _ _ _ _.
Arguments _consume_record {U} _ _ _ _ _.
Arguments attempts {U} _ _ _ _ _ _ _.
Arguments conclude {U} _ _ _ _ _.
Arguments start_record {U} _ _ _ _ _.
Arguments for_records {U} _ _ _ _ _.
Arguments start {U} _ _ _ _ _.

(* ================================================================== *)
(** * The vocabulary of the specification *)
(* ================================================================== *)

(** The three outcomes of an execution (spec, section 3). *)
Inductive Outcome : Type :=
| Success (res : PyVal)
| Failure (e : PyExc)
| Timeout.

(** How the [except] clauses of [_consume_record] read the result of
    running a job; an exception outside [Exception] is no outcome. *)
Definition outcome_of (r : Result PyVal) : option Outcome :=
  match r with
  | Done v => Some (Success v)
  | Raised e =>
      if is_mp_TimeoutError e then Some Timeout
      else if is_Exception e then Some (Failure e)
      else None
  | Hung => None
  | OutOfFuel => None
  end.

Definition status_of (o : Outcome) : string :=
  match o with
  | Success _ => "success"
  | Failure _ => "failure"
  | Timeout => "timeout"
  end.

Definition result_of (o : Outcome) : PyVal :=
  match o with Success v => v | _ => VNone end.

Definition exception_of (o : Outcome) : option PyExc :=
  match o with Failure e => Some e | _ => None end.

Definition traceback_of (o : Outcome) : option string :=
  match o with Failure e => Some (exc_trace e) | _ => None end.

(** What came back from the callback in one attempt. *)
Inductive Reply : Type :=
| NoCallback
| Replied (v : PyVal)
| CallbackRaised (e : PyExc).

(** The decision an attempt hands to the loop of [start] for a reply. *)
Definition decision (rep : Reply) : Result PyVal :=
  match rep with
  | NoCallback => Done (VInt 1)
  | Replied v => Done (if is_None v then VInt 1 else v)
  | CallbackRaised e => if is_Exception e then Done (VInt 1) else Raised e
  end.

(** The three decisions the controller tells apart. *)
Definition is_retry (v : PyVal) : bool := py_eq_int v 0.
Definition is_dead_letter (v : PyVal) : bool := py_eq_int v (-1).
Definition is_commit (v : PyVal) : bool :=
  negb (is_retry v) && negb (is_dead_letter v).

Definition is_processing (ev : Event) : bool :=
  match ev with EvProcessing _ => true | _ => false end.
Definition is_decode (ev : Event) : bool :=
  match ev with EvLoads _ => true | _ => false end.
Definition is_execution (ev : Event) : bool :=
  match ev with EvCall _ _ _ | EvApplyAsync _ _ _ _ => true | _ => false end.
Definition is_callback (ev : Event) : bool :=
  match ev with EvCallback _ _ _ _ _ _ => true | _ => false end.
Definition is_commit_event (ev : Event) : bool :=
  match ev with EvCommit _ => true | _ => false end.
Definition is_forward (ev : Event) : bool :=
  match ev with EvQueue _ => true | _ => false end.
Definition is_send (ev : Event) : bool :=
  match ev with EvSend _ _ _ _ => true | _ => false end.

Definition count (p : Event -> bool) (evs : list Event) : nat :=
  List.length (filter p evs).

(** The events of [w'] that [w] has not seen yet. *)
Definition new_events {U : Type} (w w' : World U) : list Event :=
  skipn (List.length (w_trace w)) (w_trace w').

Section Observation.

Variable U : Type.
Variable E : Env U.

(** One attempt on a record that decodes to a valid job and whose
    execution ends in an outcome: the job, the outcome, the callback's reply
    and the world the attempt leaves. *)
Definition observe_attempt (self : Worker U) (record : ConsumerRecord)
    (try_count : Z) (w : World U)
    : option (Job * Outcome * Reply * World U) :=
  let w0 := add_event (EvLoads (value record))
              (add_event (EvProcessing record) w) in
  match dill_loads E (value record) with
  | inr _ => None
  | inl obj =>
      match check_job obj with
      | None => None
      | Some j =>
          let (r, w1) := run_job E self j w0 in
          match outcome_of r with
          | None => None
          | Some o =>
              match _callback self with
              | None => Some (j, o, NoCallback, w1)
              | Some cb =>
                  let w2 :=
                    add_event (EvCallback (status_of o) j (result_of o)
                                 (exception_of o) (traceback_of o) try_count)
                              w1 in
                  let (a, u') :=
                    cb (status_of o) j (result_of o) (exception_of o)
                       (traceback_of o) try_count (w_ext w1) in
                  Some (j, o,
                        match a with
                        | inl v => Replied v
                        | inr e => CallbackRaised e
                        end,
                        set_ext u' w2)
              end
          end
      end
  end.

End Observation.

Arguments observe_attempt {U} _ _ _ _ _.

Section Runs.

Variable U : Type.
Variable E : Env U.

(** [n] attempts in a row on one record, starting with [try_count], in
    which the callback answers the retry signal [n - 1] times and a commit
    signal the [n]-th time; the world after the last of them. *)
Fixpoint retry_run (n : nat) (self : Worker U) (record : ConsumerRecord)
    (try_count : Z) (w : World U) : option (World U) :=
  match n with
  | O => None
  | S n' =>
      match observe_attempt E self record try_count w with
      | Some (_, _, Replied v, w1) =>
          match n' with
          | O => if is_commit v then Some w1 else None
          | S _ =>
              if is_retry v
              then retry_run n' self record (try_count + 1) w1
              else None
          end
      | _ => None
      end
  end.

End Runs.

Arguments retry_run {U} _ _ _ _ _ _.

(** The execution takes longer than [t] seconds. *)
Definition exceeds (b : Behaviour) (t : Z) : bool :=
  match b with
  | Returns d _ => t <? d
  | Raises d _ => t <? d
  | Hangs => true
  end.

(** The callback invocations of a trace, each with the number of attempts
    opened so far (counting from [k]) and the [try_count] it was given. *)
Fixpoint attempt_tries (k : nat) (evs : list Event) : list (nat * Z) :=
  match evs with
  | [] => []
  | EvProcessing _ :: rest => attempt_tries (S k) rest
  | EvCallback _ _ _ _ _ tc :: rest => (k, tc) :: attempt_tries k rest
  | _ :: rest => attempt_tries k rest
  end.

(** The producers the [send]s of a trace went through, in order. *)
Fixpoint send_producers (evs : list Event) : list nat :=
  match evs with
  | [] => []
  | EvSend p _ _ _ :: rest => p :: send_producers rest
  | _ :: rest => send_producers rest
  end.

(** The producers a trace has built, in order. *)
Fixpoint built_producers (evs : list Event) : list nat :=
  match evs with
  | [] => []
  | EvProducer p _ :: rest => p :: built_producers rest
  | _ :: rest => built_producers rest
  end.

(** ** Readings of the specification that the code does not follow *)

(** The effective timeout as the specification words it: the worker's
    timeout if one is configured, else the job's, else none. *)
Definition spec_effective_timeout (worker_timeout job_timeout : option Z)
    : option Z :=
  match worker_timeout with
  | Some t => Some t
  | None => job_timeout
  end.


(** Any answer of the callback other than [None] and the dead-letter
    sentinel ends the loop with that answer. *)
Definition non_sentinel_reply_ends_loop {U : Type} (E : Env U) : Prop :=
  forall (self : Worker U) (record : ConsumerRecord) (try_count : Z)
         (w w' : World U) (j : Job) (o : Outcome) (v : PyVal) (fuel : nat),
    observe_attempt E self record try_count w = Some (j, o, Replied v, w') ->
    is_None v = false ->
    is_dead_letter v = false ->
    attempts E (S fuel) self record (VInt 0) try_count w = (Done v, w').

(** ** The events of one attempt *)

(** What the execution of a job adds to the trace. *)
Definition execution_events {U : Type} (self : Worker U) (j : Job)
    : list Event :=
  match py_or (_timeout self) (job_timeout j) with
  | None => [EvCall (job_func j) (job_args j) (job_kwargs j)]
  | Some t =>
      match _pool self with
      | None => []
      | Some p =>
          [EvApplyAsync p (job_func j) (job_args j) (job_kwargs j); EvGet t]
      end
  end.

(** What the dispatch of an outcome adds to the trace. *)
Definition dispatch_events {U : Type} (self : Worker U) (j : Job)
    (o : Outcome) (try_count : Z) : list Event :=
  match _callback self with
  | None => []
  | Some _ =>
      [EvCallback (status_of o) j (result_of o) (exception_of o)
                  (traceback_of o) try_count]
  end.

(** ** The events of a forward *)

(** The configuration of the queue that [_fail_record] builds. *)
Definition forward_config {U : Type} (self : Worker U) : QueueConfig :=
  mkQueueConfig (_hosts self) (_topic self ++ ".failed")%string
                (_connect_timeout self) (-1) 5 (_job_size self)
                (_cafile self) (_certfile self) (_keyfile self)
                (_crlfile self).

(** The key that a second decoding of the payload recovers, if any. *)
Definition recovered_key {U : Type} (E : Env U) (record : ConsumerRecord)
    : option bytes :=
  match dill_loads E (value record) with
  | inl (VJob j) => job_key j
  | _ => None
  end.

(** The forward went through: [_fail_record] returned [True]. *)
Definition forwarded (r : Result bool) : bool :=
  match r with
  | Done true => true
  | _ => false
  end.

(** The worker's own bookkeeping that an attempt leaves alone. *)
Definition same_frame {U : Type} (w w' : World U) : Prop :=
  w_position w' = w_position w
  /\ w_producers w' = w_producers w
  /\ w_pools w' = w_pools w.
(** An event of the loop of a worker whose pool is [_pool self]: no pool
    is created or terminated, and a task goes to that pool only. *)
Definition uses_pool_of {U : Type} (self : Worker U) (ev : Event) : Prop :=
  match ev with
  | EvPoolCreate _ => False
  | EvPoolTerminate _ => False
  | EvApplyAsync p _ _ _ => _pool self = Some p
  | _ => True
  end.
(* ================================================================== *)
(** * The rest of the class *)
(* ================================================================== *)

(** [s.split(sep)] for a separator of one character: the pieces between
    the occurrences of [sep], empty pieces included. *)
Fixpoint split (sep : Ascii.ascii) (s : string) : list string :=
  match s with
  | EmptyString => [EmptyString]
  | String c rest =>
      if Ascii.eqb c sep then EmptyString :: split sep rest
      else match split sep rest with
           | [] => [String c EmptyString]
           | piece :: pieces => String c piece :: pieces
           end
  end.

(** [sep.join(pieces)] *)
Fixpoint join (sep : string) (pieces : list string) : string :=
  match pieces with
  | [] => EmptyString
  | [piece] => piece
  | piece :: rest => (piece ++ sep ++ join sep rest)%string
  end.

(** The number of occurrences of a character in a string. *)
Fixpoint occurrences (c : Ascii.ascii) (s : string) : nat :=
  match s with
  | EmptyString => 0%nat
  | String d rest =>
      if Ascii.eqb d c then S (occurrences c rest) else occurrences c rest
  end.

(** The property [Worker.hosts], lines 285-292. *)
Definition hosts {U : Type} (self : Worker U) : list string :=
  split ","%char (_hosts self).

(** The session timeout that [__init__] computes, lines 119-122. *)
Definition _session_timeout_ms {U : Type} (self : Worker U) : Z :=
  match _timeout self with
  | Some t => if truthy (Some t) then (t + _connect_timeout self) * 1000
              else 30000
  | None => 30000
  end.

(** The arguments of [kafka.KafkaConsumer(...)] in [__init__], lines
    123-136. *)
Record ConsumerConfig : Type := mkConsumerConfig {
  c_topic : string;
  c_group_id : string;
  c_bootstrap_servers : string;
  c_max_partition_fetch_bytes : Z;
  c_ssl_cafile : option string;
  c_ssl_certfile : option string;
  c_ssl_keyfile : option string;
  c_ssl_crlfile : option string;
  c_consumer_timeout_ms : Z;
  c_session_timeout_ms : Z;
  c_enable_auto_commit : bool;
  c_auto_offset_reset : string
}.

Definition consumer_config {U : Type} (self : Worker U) : ConsumerConfig :=
  mkConsumerConfig (_topic self) (_topic self) (_hosts self)
                   (_job_size self * 2) (_cafile self) (_certfile self)
                   (_keyfile self) (_crlfile self) (-1)
                   (_session_timeout_ms self) false "latest".

(** The number of seconds [_fail_record] waits for the acknowledgement,
    line 218. *)
Definition ack_wait {U : Type} (self : Worker U) : Z :=
  py_or_default (_timeout self) 5.

(** [Worker.__del__], lines 138-145: [has_consumer] is
    [hasattr(self, '_consumer')] and [close] what [self._consumer.close()]
    does to the outside world. *)
Definition __del__ {U : Type} (has_consumer : bool)
    (close : U -> option PyExc * U) : M U unit :=
  if has_consumer then
    try_except_else
      (fun w =>
         let (r, u') := close (w_ext w) in
         (match r with
          | Some e => Raised e
          | None => Done tt
          end, set_ext u' w))
      (fun e => if is_Exception e then ret tt else raise e)
      (fun _ => ret tt)
  else ret tt.

Definition is_fetch (ev : Event) : bool :=
  match ev with EvFetch _ => true | _ => false end.

(** The records a trace has fetched, in order. *)
Fixpoint fetched (evs : list Event) : list ConsumerRecord :=
  match evs with
  | [] => []
  | EvFetch r :: rest => r :: fetched rest
  | _ :: rest => fetched rest
  end.

(** What the worker may do while it handles [record]: every action is
    about that record and the job it decodes to. *)
Definition record_event {U : Type} (E : Env U) (self : Worker U)
    (record : ConsumerRecord) (ev : Event) : Prop :=
  match ev with
  | EvPoolCreate _ => False
  | EvPoolTerminate _ => False
  | EvFetch _ => False
  | EvProcessing r => r = record
  | EvLoads b => b = value record
  | EvCall f a k =>
      exists j : Job,
        dill_loads E (value record) = inl (VJob j)
        /\ f = job_func j /\ a = job_args j /\ k = job_kwargs j
  | EvApplyAsync p f a k =>
      _pool self = Some p
      /\ exists j : Job,
           dill_loads E (value record) = inl (VJob j)
           /\ f = job_func j /\ a = job_args j /\ k = job_kwargs j
  | EvGet t =>
      exists j : Job,
        dill_loads E (value record) = inl (VJob j)
        /\ py_or (_timeout self) (job_timeout j) = Some t
  | EvCallback _ j _ _ _ _ => dill_loads E (value record) = inl (VJob j)
  | EvQueue cfg => cfg = forward_config self
  | EvProducer _ cfg => cfg = forward_config self
  | EvSend _ tpc payload k =>
      tpc = (_topic self ++ ".failed")%string
      /\ payload = value record
      /\ k = recovered_key E record
  | EvFutureGet t => t = ack_wait self
  | EvCommit pos => pos = Some (partition record, offset record + 1)
  end.
(** [n] attempts in a row on one record, starting with [try_count], each
    on a valid job, ending in an outcome and answered by the configured
    callback; the first [n - 1] answers are the retry signal, as the loop
    of [start] requires to go on, and the last is any answer.  The world
    after the last of them; no attempt at all leaves the world as it is. *)
Fixpoint observed_attempts {U : Type} (E : Env U) (n : nat)
    (self : Worker U) (record : ConsumerRecord) (try_count : Z)
    (w : World U) : option (World U) :=
  match n with
  | O => Some w
  | S n' =>
      match observe_attempt E self record try_count w with
      | Some (_, _, Replied v, w1) =>
          match n' with
          | O => Some w1
          | S _ =>
              if is_retry v
              then observed_attempts E n' self record (try_count + 1) w1
              else None
          end
      | Some (_, _, CallbackRaised _, w1) =>
          match n' with
          | O => Some w1
          | S _ => None
          end
      | _ => None
      end
  end.

(** Whatever the callback raises is caught and the attempt decides to
    commit. *)
Definition callback_exception_commits {U : Type} (E : Env U) : Prop :=
  forall (self : Worker U) (record : ConsumerRecord) (try_count : Z)
         (w w' : World U) (j : Job) (o : Outcome) (e : PyExc),
    observe_attempt E self record try_count w
    = Some (j, o, CallbackRaised e, w') ->
    _consume_record E self record try_count w = (Done (VInt 1), w').

(* ================================================================== *)
(** * A concrete environment *)
(* ================================================================== *)

Module Demo.

Definition job_add : Job :=
  mkJob "job-add" (VFunc "add") (VList [VInt 2; VInt 3]) (VDict []) None
        (Some [x6b]).

Definition job_boom : Job :=
  mkJob "job-boom" (VFunc "boom") (VList []) (VDict []) None None.

Definition job_sleep : Job :=
  mkJob "job-sleep" (VFunc "sleep") (VList [VInt 10]) (VDict []) (Some 1)
        None.

Definition value_error : PyExc :=
  mkExc (OtherException "ValueError") None "Traceback: ValueError".

Definition unpickling_error : PyExc :=
  mkExc (OtherException "UnpicklingError") None "Traceback: UnpicklingError".

Definition kafka_timeout : PyExc :=
  mkExc KafkaError (Some "Timeout after waiting for 5 secs.")
        "Traceback: KafkaTimeoutError".

(** Three payloads are pickled jobs, one is a pickled string, the rest
    does not unpickle. *)
Definition demo_loads (b : bytes) : PyVal + PyExc :=
  match b with
  | [x01] => inl (VJob job_add)
  | [x02] => inl (VJob job_boom)
  | [x03] => inl (VJob job_sleep)
  | [x04] => inl (VStr "not a job")
  | _ => inr unpickling_error
  end.

(** The outside state counts the calls of job callables. *)
Definition demo_invoke (f a k : PyVal) (u : nat) : Behaviour * nat :=
  match f with
  | VFunc "add" => (Returns 0 (VInt 5), S u)
  | VFunc "boom" => (Raises 0 value_error, S u)
  | VFunc "sleep" => (Returns 10 VNone, S u)
  | _ => (Hangs, S u)
  end.

(** A broker that acknowledges the dead-letter publish, or not. *)
Definition env (ack : bool) : Env nat :=
  mkEnv nat demo_loads demo_invoke
        (fun _ u => (None, u))
        (fun _ _ _ _ u => (None, u))
        (fun _ u => (if ack then None else Some kafka_timeout, u)).

Definition w0 : World nat := mkWorld 0%nat [] 0%nat 0%nat None.

Definition rec_add : ConsumerRecord := mkRecord "jobs" 0 41 None [x01].
Definition rec_boom : ConsumerRecord := mkRecord "jobs" 0 42 None [x02].
Definition rec_sleep : ConsumerRecord := mkRecord "jobs" 0 43 None [x03].
Definition rec_junk : ConsumerRecord := mkRecord "jobs" 0 45 None [x09].

(** Retry until the [n]-th attempt, then commit. *)
Definition cb_retry (n : Z) : Callback nat :=
  fun _ _ _ _ _ try_count u =>
    (inl (if try_count <? n - 1 then VInt 0 else VInt 1), u).

(** Always the same answer. *)
Definition cb_const (v : PyVal) : Callback nat :=
  fun _ _ _ _ _ _ u => (inl v, u).

(** A callback that fails. *)
Definition cb_raise : Callback nat :=
  fun _ _ _ _ _ _ u => (inr value_error, u).

Definition worker (timeout : option Z) (cb : option (Callback nat))
    : Worker nat :=
  Worker_init "127.0.0.1:9092" "jobs" timeout None cb 1048576 None None None
              None.

Definition pool0 : Pool := mkPool 0 1.

(** The world after one attempt on [rec_add] without callback. *)
Definition after_add : World nat :=
  mkWorld 1%nat
          [EvProcessing rec_add; EvLoads (value rec_add);
           EvCall (job_func job_add) (job_args job_add) (job_kwargs job_add)]
          0%nat 0%nat None.

(** The world after one attempt on [rec_boom] with a callback. *)
Definition after_boom : World nat :=
  mkWorld 1%nat
          [EvProcessing rec_boom; EvLoads (value rec_boom);
           EvCall (job_func job_boom) (job_args job_boom)
                  (job_kwargs job_boom);
           EvCallback "failure" job_boom VNone (Some value_error)
                      (Some (exc_trace value_error)) 0]
          0%nat 0%nat None.

(** The world when the loop has ended on [rec_junk]. *)
Definition after_junk : World nat :=
  mkWorld 0%nat
          [EvFetch rec_junk; EvProcessing rec_junk; EvLoads (value rec_junk)]
          0%nat 0%nat (Some (0, 46)).

End Demo.

(** A second environment, for the ways out of the loop: jobs that raise
    [KeyboardInterrupt] or [multiprocessing.TimeoutError] and a broker that
    refuses the dead-letter queue. *)
Module Demo2.

Definition keyboard_interrupt : PyExc :=
  mkExc KeyboardInterrupt None "Traceback: KeyboardInterrupt".

Definition no_brokers : PyExc :=
  mkExc KafkaError (Some "NoBrokersAvailable")
        "Traceback: NoBrokersAvailable".

Definition job_interrupt : Job :=
  mkJob "job-interrupt" (VFunc "interrupt") (VList []) (VDict []) None None.

Definition job_mp : Job :=
  mkJob "job-mp" (VFunc "mp_timeout") (VList []) (VDict []) None None.

Definition demo_loads (b : bytes) : PyVal + PyExc :=
  match b with
  | [x11] => inl (VJob job_interrupt)
  | [x12] => inl (VJob job_mp)
  | _ => inr Demo.unpickling_error
  end.

Definition demo_invoke (f a k : PyVal) (u : nat) : Behaviour * nat :=
  match f with
  | VFunc "interrupt" => (Raises 0 keyboard_interrupt, S u)
  | VFunc "mp_timeout" => (Raises 0 mp_timeout_error, S u)
  | _ => (Returns 0 VNone, S u)
  end.

Definition env : Env nat :=
  mkEnv nat demo_loads demo_invoke
        (fun _ u => (Some no_brokers, u))
        (fun _ _ _ _ u => (None, u))
        (fun _ u => (None, u)).

Definition rec_interrupt : ConsumerRecord := mkRecord "jobs" 0 7 None [x11].
Definition rec_mp : ConsumerRecord := mkRecord "jobs" 0 8 None [x12].

(** A callback that is itself interrupted. *)
Definition cb_interrupt : Callback nat :=
  fun _ _ _ _ _ _ u => (inr keyboard_interrupt, u).

End Demo2.

(* ================================================================== *)
(** * Properties *)
(* ================================================================== *)

Ltac unfold_ops :=
  unfold call_callback, Queue_init, send, get_future, loads, call,
    apply_async, async_get, getattr_key, getattr_message, consumer_commit,
    consumer_next, mp_Pool, terminate, try_except_else, bind, ret, raise,
    log, ext, hang, out_of_fuel, add_event, set_ext in *.

(** ** Traces *)

Lemma new_events_app {U : Type} (w w' : World U) (evs : list Event) :
  w_trace w' = w_trace w ++ evs -> new_events w w' = evs.
Proof.
  intros H. unfold new_events. rewrite H.
  rewrite skipn_app, skipn_all, Nat.sub_diag. reflexivity.
Qed.

Lemma new_events_refl {U : Type} (w : World U) : new_events w w = [].
Proof. apply new_events_app. now rewrite app_nil_r. Qed.

Lemma count_app (p : Event -> bool) (l1 l2 : list Event) :
  count p (l1 ++ l2) = (count p l1 + count p l2)%nat.
Proof. unfold count. now rewrite filter_app, length_app. Qed.

Section Properties.

Variable U : Type.
Variable E : Env U.

(** ** The decoder *)

Lemma check_job_Some (obj : PyVal) (j : Job) :
  check_job obj = Some j <->
  obj = VJob j /\ is_iterable (job_args j) = true
  /\ is_mapping (job_kwargs j) = true /\ callable (job_func j) = true.
Proof.
  unfold check_job. split.
  - destruct obj; try discriminate.
    destruct (is_iterable (job_args j0)) eqn:Ha;
      destruct (is_mapping (job_kwargs j0)) eqn:Hk;
      destruct (callable (job_func j0)) eqn:Hf; simpl; try discriminate.
    intros H. injection H as <-. auto.
  - intros (-> & Ha & Hk & Hf). now rewrite Ha, Hk, Hf.
Qed.

Lemma check_job_None (obj : PyVal) :
  ~ (exists j : Job,
        obj = VJob j /\ is_iterable (job_args j) = true
        /\ is_mapping (job_kwargs j) = true /\ callable (job_func j) = true) ->
  check_job obj = None.
Proof.
  intros H. destruct (check_job obj) as [j|] eqn:Hc; [|reflexivity].
  exfalso. apply H. exists j. now apply check_job_Some.
Qed.

(** C4.  A record whose payload does not unpickle, or unpickles to
    something that is not a [Job] with iterable [args], mapping [kwargs] and
    callable [func], yields the dead-letter decision [-1] at once: the
    attempt consists of the decoding alone, so neither the job's callable
    nor the callback is invoked, and the outside world is left as it was. *)
Theorem malformed_record_is_dead_lettered :
  forall (self : Worker U) (record : ConsumerRecord) (try_count : Z)
         (w : World U),
    ((exists e : PyExc, dill_loads E (value record) = inr e)
     \/ (exists obj : PyVal,
            dill_loads E (value record) = inl obj
            /\ ~ (exists j : Job,
                     obj = VJob j /\ is_iterable (job_args j) = true
                     /\ is_mapping (job_kwargs j) = true
                     /\ callable (job_func j) = true))) ->
    let run := _consume_record E self record try_count w in
    fst run = Done (VInt (-1))
    /\ is_dead_letter (VInt (-1)) = true
    /\ new_events w (snd run) = [EvProcessing record; EvLoads (value record)]
    /\ count is_execution (new_events w (snd run)) = 0%nat
    /\ count is_callback (new_events w (snd run)) = 0%nat
    /\ w_ext (snd run) = w_ext w.
Proof.
  intros self record try_count w H run.
  assert (Hrun : run = (Done (VInt (-1)),
                        add_event (EvLoads (value record))
                          (add_event (EvProcessing record) w))).
  { subst run. unfold _consume_record. unfold_ops. simpl.
    destruct H as [[e He] | (obj & Hobj & Hbad)].
    - now rewrite He.
    - rewrite Hobj. simpl. now rewrite (check_job_None obj Hbad). }
  rewrite Hrun. simpl.
  assert (Hev : new_events w
                  (add_event (EvLoads (value record))
                     (add_event (EvProcessing record) w))
                = [EvProcessing record; EvLoads (value record)]).
  { apply new_events_app. simpl. now rewrite <- app_assoc. }
  rewrite Hev. repeat split; reflexivity.
Qed.

(** ** The dispatcher *)

Lemma exec_callback_no_callback (self : Worker U) (status : string)
    (job : Job) (result : PyVal) (exception : option PyExc)
    (traceback : option string) (try_count : Z) (w : World U) :
  _callback self = None ->
  _exec_callback self status job result exception traceback try_count w
  = (Done (VInt 1), w).
Proof. intros H. unfold _exec_callback. rewrite H. reflexivity. Qed.

Lemma exec_callback_reply (self : Worker U) (cb : Callback U)
    (status : string) (job : Job) (result : PyVal)
    (exception : option PyExc) (traceback : option string) (try_count : Z)
    (w : World U) :
  _callback self = Some cb ->
  _exec_callback self status job result exception traceback try_count w
  = let (a, u') :=
      cb status job result exception traceback try_count (w_ext w) in
    (decision match a with
              | inl v => Replied v
              | inr e => CallbackRaised e
              end,
     set_ext u'
       (add_event
          (EvCallback status job result exception traceback try_count) w)).
Proof.
  intros H. unfold _exec_callback. rewrite H. unfold_ops. simpl.
  destruct (cb status job result exception traceback try_count (w_ext w))
    as [[v | e] u'].
  - reflexivity.
  - simpl. destruct (is_Exception e); reflexivity.
Qed.

(** An attempt on a valid job is the execution followed by the dispatch
    that the outcome selects. *)
Lemma consume_record_valid (self : Worker U) (record : ConsumerRecord)
    (try_count : Z) (w : World U) (obj : PyVal) (j : Job) :
  dill_loads E (value record) = inl obj ->
  check_job obj = Some j ->
  _consume_record E self record try_count w
  = let w0 := add_event (EvLoads (value record))
                (add_event (EvProcessing record) w) in
    match run_job E self j w0 with
    | (Done res, w1) =>
        _exec_callback self "success" j res None None try_count w1
    | (Raised e, w1) =>
        if is_mp_TimeoutError e
        then _exec_callback self "timeout" j VNone None None try_count w1
        else if is_Exception e
        then _exec_callback self "failure" j VNone (Some e)
                            (Some (exc_trace e)) try_count w1
        else (Raised e, w1)
    | (Hung, w1) => (Hung, w1)
    | (OutOfFuel, w1) => (OutOfFuel, w1)
    end.
Proof.
  intros Hl Hc. unfold _consume_record.
  unfold loads, try_except_else, bind, log, ret, raise. simpl.
  rewrite Hl. simpl. rewrite Hc.
  destruct (run_job E self j _) as [[res | e | | ] w1]; try reflexivity.
  destruct (is_mp_TimeoutError e); [reflexivity|].
  destruct (is_Exception e); reflexivity.
Qed.

(** What [observe_attempt] reports is what [_consume_record] does. *)
Lemma observe_attempt_consume (self : Worker U) (record : ConsumerRecord)
    (try_count : Z) (w w' : World U) (j : Job) (o : Outcome) (rep : Reply) :
  observe_attempt E self record try_count w = Some (j, o, rep, w') ->
  _consume_record E self record try_count w = (decision rep, w').
Proof.
  unfold observe_attempt.
  destruct (dill_loads E (value record)) as [obj | e] eqn:Hl;
    [|discriminate].
  destruct (check_job obj) as [j0|] eqn:Hc; [|discriminate].
  rewrite (consume_record_valid self record try_count w obj j0 Hl Hc).
  cbv zeta.
  destruct (run_job E self j0 _) as [r w1].
  destruct (outcome_of r) as [o0|] eqn:Ho; [|discriminate].
  assert (Hdisp :
    match r with
    | Done res =>
        _exec_callback self "success" j0 res None None try_count w1
    | Raised e =>
        if is_mp_TimeoutError e
        then _exec_callback self "timeout" j0 VNone None None try_count w1
        else if is_Exception e
        then _exec_callback self "failure" j0 VNone (Some e)
                            (Some (exc_trace e)) try_count w1
        else (Raised e, w1)
    | Hung => (Hung, w1)
    | OutOfFuel => (OutOfFuel, w1)
    end
    = _exec_callback self (status_of o0) j0 (result_of o0)
        (exception_of o0) (traceback_of o0) try_count w1).
  { destruct r as [res | e | | ]; simpl in Ho; try discriminate.
    - injection Ho as <-. reflexivity.
    - destruct (is_mp_TimeoutError e).
      + injection Ho as <-. reflexivity.
      + destruct (is_Exception e); [|discriminate].
        injection Ho as <-. reflexivity. }
  assert (Hgoal :
    forall x : Result PyVal * World U,
      x = _exec_callback self (status_of o0) j0 (result_of o0)
            (exception_of o0) (traceback_of o0) try_count w1 ->
      match _callback self with
      | Some cb =>
          let (a, u') :=
            cb (status_of o0) j0 (result_of o0) (exception_of o0)
               (traceback_of o0) try_count (w_ext w1) in
          Some (j0, o0,
                match a with
                | inl v => Replied v
                | inr e => CallbackRaised e
                end,
                set_ext u'
                  (add_event
                     (EvCallback (status_of o0) j0 (result_of o0)
                        (exception_of o0) (traceback_of o0) try_count) w1))
      | None => Some (j0, o0, NoCallback, w1)
      end = Some (j, o, rep, w') ->
      x = (decision rep, w')).
  { intros x Hx. destruct (_callback self) as [cb|] eqn:Hcb.
    - rewrite (exec_callback_reply self cb _ _ _ _ _ _ _ Hcb) in Hx.
      destruct (cb _ _ _ _ _ _ _) as [a u'].
      intros H. injection H as <- <- <- <-. exact Hx.
    - rewrite (exec_callback_no_callback self _ _ _ _ _ _ _ Hcb) in Hx.
      intros H. injection H as <- <- <- <-. exact Hx. }
  intros H. apply Hgoal; [|exact H].
  destruct r; exact Hdisp.
Qed.

(** ** The shape of an attempt *)

Lemma run_job_frame (self : Worker U) (j : Job) (w : World U) :
  let w1 := snd (run_job E self j w) in
  w_trace w1 = w_trace w ++ execution_events self j
  /\ w_position w1 = w_position w
  /\ w_producers w1 = w_producers w
  /\ w_pools w1 = w_pools w.
Proof.
  unfold run_job, execution_events.
  destruct (py_or (_timeout self) (job_timeout j)) as [t|].
  - destruct (_pool self) as [p|]; unfold_ops; simpl.
    + destruct (invoke E (job_func j) (job_args j) (job_kwargs j) (w_ext w))
        as [b u']. simpl.
      destruct b as [d v | d e | ]; simpl;
        try destruct (d <=? t); simpl; try destruct (is_Exception e); simpl;
        rewrite <- app_assoc; auto.
    + rewrite app_nil_r. auto.
  - unfold_ops; simpl.
    destruct (invoke E (job_func j) (job_args j) (job_kwargs j) (w_ext w))
      as [b u']. simpl.
    destruct b; simpl; auto.
Qed.

Lemma observe_attempt_frame (self : Worker U) (record : ConsumerRecord)
    (try_count : Z) (w w' : World U) (j : Job) (o : Outcome) (rep : Reply) :
  observe_attempt E self record try_count w = Some (j, o, rep, w') ->
  w_trace w' = w_trace w
               ++ [EvProcessing record; EvLoads (value record)]
               ++ execution_events self j
               ++ dispatch_events self j o try_count
  /\ w_position w' = w_position w
  /\ w_producers w' = w_producers w
  /\ w_pools w' = w_pools w.
Proof.
  unfold observe_attempt, dispatch_events.
  destruct (dill_loads E (value record)) as [obj | e]; [|discriminate].
  destruct (check_job obj) as [j0|]; [|discriminate].
  pose proof (run_job_frame self j0
                (add_event (EvLoads (value record))
                   (add_event (EvProcessing record) w))) as Hf.
  destruct (run_job E self j0 _) as [r w1]. simpl in Hf.
  destruct Hf as (Ht & Hp & Hq & Hr).
  destruct (outcome_of r) as [o0|]; [|discriminate].
  destruct (_callback self) as [cb|].
  - destruct (cb _ _ _ _ _ _ _) as [a u'].
    intros H. injection H as <- <- <- <-. simpl.
    rewrite Ht. repeat rewrite <- app_assoc. simpl. auto.
  - intros H. injection H as <- <- <- <-.
    rewrite Ht. repeat rewrite <- app_assoc. simpl.
    rewrite app_nil_r. auto.
Qed.

(** ** The controller *)

Lemma attempts_step (fuel : nat) (self : Worker U) (record : ConsumerRecord)
    (cc : PyVal) (try_count : Z) (w : World U) :
  is_retry cc = true ->
  attempts E (S fuel) self record cc try_count w
  = match _consume_record E self record try_count w with
    | (Done cc', w') => attempts E fuel self record cc' (try_count + 1) w'
    | (Raised e, w') => (Raised e, w')
    | (Hung, w') => (Hung, w')
    | (OutOfFuel, w') => (OutOfFuel, w')
    end.
Proof.
  unfold is_retry. intros H. simpl. rewrite H. unfold bind.
  destruct (_consume_record E self record try_count w) as [[c | e | | ] w'];
    reflexivity.
Qed.

Lemma attempts_stop (fuel : nat) (self : Worker U) (record : ConsumerRecord)
    (cc : PyVal) (try_count : Z) (w : World U) :
  is_retry cc = false ->
  attempts E fuel self record cc try_count w = (Done cc, w).
Proof.
  unfold is_retry. intros H. destruct fuel; simpl; rewrite H; reflexivity.
Qed.

Lemma conclude_commit (self : Worker U) (record : ConsumerRecord)
    (cc : PyVal) (w : World U) :
  is_dead_letter cc = false ->
  conclude E self record cc w
  = (Done tt, add_event (EvCommit (w_position w)) w).
Proof.
  unfold is_dead_letter, conclude. intros H. rewrite H. reflexivity.
Qed.

(** C1 (amended).  Whatever the outcome of an attempt (success, failure
    or timeout): when no callback is configured, or the callback answers
    [None], or the callback raises an instance of [Exception] (which
    [_exec_callback] catches), the attempt's decision is [1], the loop of
    [start] ends on it and the consumer's position, still that of the
    record, is committed. *)
Theorem default_decision_is_commit :
  forall (self : Worker U) (record : ConsumerRecord) (try_count : Z)
         (w w' : World U) (j : Job) (o : Outcome) (rep : Reply) (fuel : nat),
    observe_attempt E self record try_count w = Some (j, o, rep, w') ->
    (rep = NoCallback
     \/ rep = Replied VNone
     \/ (exists e : PyExc, rep = CallbackRaised e /\ is_Exception e = true)) ->
    _consume_record E self record try_count w = (Done (VInt 1), w')
    /\ is_commit (VInt 1) = true
    /\ attempts E (S fuel) self record (VInt 0) try_count w
       = (Done (VInt 1), w')
    /\ conclude E self record (VInt 1) w'
       = (Done tt, add_event (EvCommit (w_position w)) w').
Proof.
  intros self record try_count w w' j o rep fuel Hobs Hrep.
  assert (Hdec : decision rep = Done (VInt 1)).
  { destruct Hrep as [-> | [-> | (e & -> & He)]]; simpl;
      [reflexivity | reflexivity | now rewrite He]. }
  pose proof (observe_attempt_consume _ _ _ _ _ _ _ _ Hobs) as Hc.
  rewrite Hdec in Hc.
  destruct (observe_attempt_frame _ _ _ _ _ _ _ _ Hobs) as (_ & Hpos & _).
  repeat split.
  - exact Hc.
  - rewrite attempts_step by reflexivity. rewrite Hc.
    now apply attempts_stop.
  - rewrite conclude_commit by reflexivity. now rewrite Hpos.
Qed.

(** C5 (amended).  An answer of the callback that is not [None] and
    compares equal neither to the dead-letter sentinel [-1] nor to the retry
    signal [0] is a commit: the loop of [start] ends on that very value and
    the position is committed without any forward. *)
Theorem other_reply_is_commit :
  forall (self : Worker U) (record : ConsumerRecord) (try_count : Z)
         (w w' : World U) (j : Job) (o : Outcome) (v : PyVal) (fuel : nat),
    observe_attempt E self record try_count w = Some (j, o, Replied v, w') ->
    is_None v = false ->
    is_dead_letter v = false ->
    is_retry v = false ->
    attempts E (S fuel) self record (VInt 0) try_count w = (Done v, w')
    /\ conclude E self record v w'
       = (Done tt, add_event (EvCommit (w_position w)) w').
Proof.
  intros self record try_count w w' j o v fuel Hobs Hn Hd Hr.
  pose proof (observe_attempt_consume _ _ _ _ _ _ _ _ Hobs) as Hc.
  simpl in Hc. rewrite Hn in Hc.
  destruct (observe_attempt_frame _ _ _ _ _ _ _ _ Hobs) as (_ & Hpos & _).
  split.
  - rewrite attempts_step by reflexivity. rewrite Hc.
    now apply attempts_stop.
  - rewrite conclude_commit by exact Hd. now rewrite Hpos.
Qed.

(** ** Retries *)

Lemma observe_attempt_replied (self : Worker U) (record : ConsumerRecord)
    (try_count : Z) (w w' : World U) (j : Job) (o : Outcome) (v : PyVal) :
  observe_attempt E self record try_count w = Some (j, o, Replied v, w') ->
  exists cb : Callback U, _callback self = Some cb.
Proof.
  unfold observe_attempt.
  destruct (dill_loads E (value record)) as [obj | e]; [|discriminate].
  destruct (check_job obj) as [j0|]; [|discriminate].
  destruct (run_job E self j0 _) as [r w1].
  destruct (outcome_of r) as [o0|]; [|discriminate].
  destruct (_callback self) as [cb|]; [eauto | discriminate].
Qed.

(** A replied attempt of a started worker: one decoding, one execution and
    one callback invocation, no commit. *)
Lemma replied_attempt_counts (self : Worker U) (p : Pool)
    (record : ConsumerRecord) (try_count : Z) (w w' : World U) (j : Job)
    (o : Outcome) (v : PyVal) :
  _pool self = Some p ->
  observe_attempt E self record try_count w = Some (j, o, Replied v, w') ->
  exists evs : list Event,
    w_trace w' = w_trace w ++ evs
    /\ w_position w' = w_position w
    /\ count is_processing evs = 1%nat
    /\ count is_decode evs = 1%nat
    /\ count is_execution evs = 1%nat
    /\ count is_callback evs = 1%nat
    /\ count is_commit_event evs = 0%nat.
Proof.
  intros Hp Hobs.
  destruct (observe_attempt_replied _ _ _ _ _ _ _ _ Hobs) as [cb Hcb].
  destruct (observe_attempt_frame _ _ _ _ _ _ _ _ Hobs) as (Ht & Hpos & _).
  eexists. split; [exact Ht|]. split; [exact Hpos|].
  unfold execution_events, dispatch_events. rewrite Hp, Hcb.
  destruct (py_or (_timeout self) (job_timeout j)); repeat split.
Qed.

Lemma retry_run_attempts (p : Pool) (record : ConsumerRecord) :
  forall (n : nat) (self : Worker U) (try_count : Z) (w w' : World U),
    _pool self = Some p ->
    retry_run E n self record try_count w = Some w' ->
    forall fuel : nat, (n <= fuel)%nat ->
    exists (v : PyVal) (evs : list Event),
      attempts E fuel self record (VInt 0) try_count w = (Done v, w')
      /\ is_commit v = true
      /\ w_trace w' = w_trace w ++ evs
      /\ w_position w' = w_position w
      /\ count is_processing evs = n
      /\ count is_decode evs = n
      /\ count is_execution evs = n
      /\ count is_callback evs = n
      /\ count is_commit_event evs = 0%nat.
Proof.
  induction n as [|n IH]; intros self try_count w w' Hp Hrun fuel Hfuel.
  - discriminate.
  - destruct fuel as [|fuel]; [lia|].
    simpl in Hrun.
    destruct (observe_attempt E self record try_count w)
      as [[[[j o] rep] w1]|] eqn:Hobs; [|discriminate].
    destruct rep as [ | v | e]; try discriminate.
    pose proof (observe_attempt_consume _ _ _ _ _ _ _ _ Hobs) as Hc.
    destruct (replied_attempt_counts _ _ _ _ _ _ _ _ _ Hp Hobs)
      as (evs1 & Ht1 & Hpos1 & C1 & C2 & C3 & C4 & C5).
    rewrite attempts_step by reflexivity. rewrite Hc. simpl.
    destruct n as [|n].
    + destruct (is_commit v) eqn:Hv; [|discriminate].
      injection Hrun as <-.
      destruct (is_None v) eqn:Hn.
      * exists (VInt 1), evs1. rewrite attempts_stop by reflexivity.
        repeat split; assumption.
      * exists v, evs1.
        unfold is_commit in Hv. apply andb_prop in Hv as [Hr Hd].
        rewrite attempts_stop by now apply negb_true_iff.
        unfold is_commit. rewrite Hr, Hd.
        repeat split; assumption.
    + destruct (is_retry v) eqn:Hv; [|discriminate].
      assert (Hn : is_None v = false).
      { destruct v; try reflexivity; discriminate. }
      rewrite Hn.
      assert (Hzero : attempts E fuel self record v (try_count + 1) w1
                      = attempts E fuel self record (VInt 0)
                          (try_count + 1) w1).
      { destruct fuel; simpl; unfold is_retry in Hv; rewrite Hv;
          reflexivity. }
      rewrite Hzero.
      destruct (IH self (try_count + 1) w1 w' Hp Hrun fuel ltac:(lia))
        as (v' & evs2 & Ha & Hcm & Ht2 & Hpos2 & D1 & D2 & D3 & D4 & D5).
      exists v', (evs1 ++ evs2).
      repeat rewrite count_app.
      rewrite C1, C2, C3, C4, C5, D1, D2, D3, D4, D5.
      repeat split; try assumption; try reflexivity.
      * rewrite Ht2, Ht1. now rewrite app_assoc.
      * now rewrite Hpos2.
Qed.

(** C2.  When, on a record, the callback answers the retry signal on the
    first [N - 1] attempts and a commit signal on the [N]-th, the loop body
    of [start] makes exactly [N] attempts (each with one decoding, one
    execution and one dispatch) and then commits, once, the record's
    position.  [N] is arbitrary: the loop itself sets no bound, it only
    needs to be followed for [N] turns. *)
Theorem retries_then_commit :
  forall (N : nat) (self : Worker U) (p : Pool) (record : ConsumerRecord)
         (w w' : World U) (fuel : nat),
    (1 <= N)%nat ->
    retry_run E N (set_pool self p) record 0 (snd (consumer_next record w))
    = Some w' ->
    (N <= fuel)%nat ->
    exists evs : list Event,
      start_record E fuel (set_pool self p) record w
      = (Done tt,
         add_event (EvCommit (Some (partition record, offset record + 1))) w')
      /\ w_trace w' = w_trace w ++ [EvFetch record] ++ evs
      /\ count is_processing evs = N
      /\ count is_decode evs = N
      /\ count is_execution evs = N
      /\ count is_callback evs = N
      /\ count is_commit_event evs = 0%nat.
Proof.
  intros N self p record w w' fuel _ Hrun Hfuel.
  destruct (retry_run_attempts p record N (set_pool self p) 0 _ w'
              eq_refl Hrun fuel Hfuel)
    as (v & evs & Ha & Hcm & Ht & Hpos & C1 & C2 & C3 & C4 & C5).
  exists evs.
  split; [|split; [|repeat split; assumption]].
  - unfold start_record, bind at 1.
    change (consumer_next record w)
      with (Done tt, snd (consumer_next record w)).
    cbv iota. unfold bind. rewrite Ha.
    unfold is_commit in Hcm. apply andb_prop in Hcm as [_ Hd].
    apply negb_true_iff in Hd.
    rewrite conclude_commit by exact Hd.
    rewrite Hpos. reflexivity.
  - rewrite Ht. simpl. now rewrite <- app_assoc.
Qed.


(** ** The forwarder *)

Lemma recover_key_step (record : ConsumerRecord) (w : World U) :
  try_except_else
    (obj <- loads E (value record) ;; getattr_key obj)
    (fun _ => ret None)
    (fun k => ret k) w
  = (Done (recovered_key E record), add_event (EvLoads (value record)) w).
Proof.
  unfold recovered_key. unfold_ops. simpl.
  destruct (dill_loads E (value record)) as [obj | e]; [|reflexivity].
  destruct obj; reflexivity.
Qed.

(** A forward, step by step: the queue and its producer are built, the
    payload is decoded once more for its key, sent as it is, and the
    acknowledgement is awaited. *)
Lemma fail_record_steps (self : Worker U) (record : ConsumerRecord)
    (w : World U) :
  _fail_record E self record w
  = let cfg := forward_config self in
    let p := w_producers w in
    let t := py_or_default (_timeout self) 5 in
    match queue_connect E cfg (w_ext w) with
    | (Some e, u1) => (Raised e, set_ext u1 (add_event (EvQueue cfg) w))
    | (None, u1) =>
        let w1 :=
          mkWorld u1
            (w_trace w
             ++ [EvQueue cfg; EvProducer p cfg; EvLoads (value record);
                 EvSend p (_topic self ++ ".failed")%string (value record)
                        (recovered_key E record)])
            (w_pools w) (S p) (w_position w) in
        match producer_send E p (_topic self ++ ".failed")%string
                (value record) (recovered_key E record) u1 with
        | (Some e, u2) => (Raised e, set_ext u2 w1)
        | (None, u2) =>
            let w2 := add_event (EvFutureGet t) (set_ext u2 w1) in
            match future_get E t u2 with
            | (None, u3) => (Done true, set_ext u3 w2)
            | (Some e, u3) =>
                if is_KafkaError e
                then match exc_message e with
                     | Some _ => (Done false, set_ext u3 w2)
                     | None =>
                         (Raised (attribute_error "message"), set_ext u3 w2)
                     end
                else (Raised e, set_ext u3 w2)
            end
        end
    end.
Proof.
  unfold _fail_record, _get_fail_topic. fold (forward_config self).
  cbv zeta.
  unfold bind at 1. unfold Queue_init.
  unfold bind at 1. unfold bind at 1. unfold log at 1. unfold ext at 1.
  simpl.
  destruct (queue_connect E (forward_config self) (w_ext w)) as [[e|] u1];
    simpl.
  - reflexivity.
  - unfold bind at 1. rewrite recover_key_step.
    unfold_ops. simpl.
    destruct (producer_send E (w_producers w) (_topic self ++ ".failed")%string
                (value record) (recovered_key E record) u1) as [[e|] u2];
      simpl.
    + repeat rewrite <- app_assoc. reflexivity.
    + destruct (future_get E (py_or_default (_timeout self) 5) u2)
        as [[e|] u3]; simpl.
      * destruct (is_KafkaError e); simpl;
          [destruct (exc_message e); simpl|];
          repeat rewrite <- app_assoc; reflexivity.
      * repeat rewrite <- app_assoc; reflexivity.
Qed.

Lemma fail_record_shape (self : Worker U) (record : ConsumerRecord)
    (w : World U) :
  let cfg := forward_config self in
  let run := _fail_record E self record w in
  match queue_connect E cfg (w_ext w) with
  | (Some e, u1) =>
      run = (Raised e, set_ext u1 (add_event (EvQueue cfg) w))
  | (None, _) =>
      exists rest : list Event,
        w_trace (snd run)
        = w_trace w
          ++ [EvQueue cfg; EvProducer (w_producers w) cfg;
              EvLoads (value record);
              EvSend (w_producers w) (_topic self ++ ".failed")%string
                     (value record) (recovered_key E record)]
          ++ rest
        /\ (rest = [] \/ rest = [EvFutureGet (py_or_default (_timeout self) 5)])
        /\ w_producers (snd run) = S (w_producers w)
        /\ w_position (snd run) = w_position w
        /\ w_pools (snd run) = w_pools w
  end.
Proof.
  intros cfg run. subst run cfg. rewrite fail_record_steps. cbv zeta.
  destruct (queue_connect E (forward_config self) (w_ext w)) as [[e|] u1].
  - reflexivity.
  - destruct (producer_send E _ _ _ _ u1) as [[e|] u2].
    + exists []. simpl. auto.
    + exists [EvFutureGet (py_or_default (_timeout self) 5)].
      destruct (future_get E _ u2) as [[e|] u3].
      * destruct (is_KafkaError e); [destruct (exc_message e)|];
          simpl; rewrite <- app_assoc; simpl; auto.
      * simpl. rewrite <- app_assoc. simpl. auto.
Qed.

(** ** What a trace remembers *)

Lemma attempt_tries_app (l1 l2 : list Event) :
  forall k : nat,
    attempt_tries k (l1 ++ l2)
    = attempt_tries k l1 ++ attempt_tries (k + count is_processing l1) l2.
Proof.
  induction l1 as [|ev l1 IH]; intros k.
  - simpl. now rewrite Nat.add_0_r.
  - destruct ev; simpl; rewrite IH; unfold count; simpl;
      try reflexivity.
    now rewrite Nat.add_succ_r.
Qed.

Lemma send_producers_app (l1 l2 : list Event) :
  send_producers (l1 ++ l2) = send_producers l1 ++ send_producers l2.
Proof.
  induction l1 as [|ev l1 IH]; [reflexivity|].
  destruct ev; simpl; rewrite IH; reflexivity.
Qed.

Lemma built_producers_app (l1 l2 : list Event) :
  built_producers (l1 ++ l2) = built_producers l1 ++ built_producers l2.
Proof.
  induction l1 as [|ev l1 IH]; [reflexivity|].
  destruct ev; simpl; rewrite IH; reflexivity.
Qed.

Lemma exec_callback_shape (self : Worker U) (status : string) (job : Job)
    (result : PyVal) (exception : option PyExc) (traceback : option string)
    (try_count : Z) (w : World U) :
  let run :=
    _exec_callback self status job result exception traceback try_count w in
  exists cbs : list Event,
    w_trace (snd run) = w_trace w ++ cbs
    /\ (cbs = []
        \/ cbs = [EvCallback status job result exception traceback
                             try_count])
    /\ (forall v : PyVal,
           fst run = Done v -> is_retry v = true -> cbs <> [])
    /\ same_frame w (snd run).
Proof.
  intros run. subst run. unfold same_frame.
  destruct (_callback self) as [cb|] eqn:Hcb.
  - rewrite (exec_callback_reply self cb _ _ _ _ _ _ _ Hcb).
    destruct (cb _ _ _ _ _ _ _) as [a u'].
    eexists. split; [reflexivity|]. split; [now right|].
    split; [discriminate|]. simpl. auto.
  - rewrite (exec_callback_no_callback self _ _ _ _ _ _ _ Hcb).
    exists []. simpl. rewrite app_nil_r. split; [reflexivity|].
    split; [now left|]. split; [|auto].
    intros v Hv. injection Hv as <-. discriminate.
Qed.

(** The events of any attempt: the opening line, the decoding, at most one
    execution, at most one callback invocation in which the attempt's
    [try_count] is passed on; a retry decision can only come out of a
    callback. *)
Lemma consume_record_shape (self : Worker U) (record : ConsumerRecord)
    (try_count : Z) (w : World U) :
  let run := _consume_record E self record try_count w in
  exists exec cbs : list Event,
    w_trace (snd run)
    = w_trace w ++ [EvProcessing record; EvLoads (value record)]
      ++ exec ++ cbs
    /\ (exec = [] \/ exists j : Job, exec = execution_events self j)
    /\ (cbs = []
        \/ exists st j res e t, cbs = [EvCallback st j res e t try_count])
    /\ (forall v : PyVal,
           fst run = Done v -> is_retry v = true -> cbs <> [])
    /\ same_frame w (snd run).
Proof.
  intros run. subst run.
  set (w0 := add_event (EvLoads (value record))
               (add_event (EvProcessing record) w)).
  assert (Hw0 : w_trace w0
                = w_trace w ++ [EvProcessing record; EvLoads (value record)]).
  { subst w0. simpl. now rewrite <- app_assoc. }
  assert (Hbad : forall x,
             x = (Done (VInt (-1)), w0) ->
             exists exec cbs : list Event,
               w_trace (snd x)
               = w_trace w ++ [EvProcessing record; EvLoads (value record)]
                 ++ exec ++ cbs
               /\ (exec = [] \/ exists j : Job, exec = execution_events self j)
               /\ (cbs = []
                   \/ exists st j res e t,
                       cbs = [EvCallback st j res e t try_count])
               /\ (forall v : PyVal,
                      fst x = Done v -> is_retry v = true -> cbs <> [])
               /\ same_frame w (snd x)).
  { intros x ->. exists [], []. cbn [snd fst]. rewrite Hw0.
    split; [now rewrite app_nil_r|].
    split; [now left|]. split; [now left|].
    split; [intros v Hv; injection Hv as <-; discriminate|].
    subst w0. unfold same_frame. simpl. auto. }
  destruct (dill_loads E (value record)) as [obj | e] eqn:Hl.
  - destruct (check_job obj) as [j|] eqn:Hc.
    + rewrite (consume_record_valid self record try_count w obj j Hl Hc).
      cbv zeta. fold w0.
      pose proof (run_job_frame self j w0) as Hf. cbv zeta in Hf.
      destruct (run_job E self j w0) as [r w1]. cbn [snd] in Hf.
      destruct Hf as (Ht & Hp & Hq & Hr).
      assert (Hcb : forall st res e t,
                exists exec cbs : list Event,
                  w_trace (snd (_exec_callback self st j res e t try_count w1))
                  = w_trace w
                    ++ [EvProcessing record; EvLoads (value record)]
                    ++ exec ++ cbs
                  /\ (exec = []
                      \/ exists j : Job, exec = execution_events self j)
                  /\ (cbs = []
                      \/ exists st j res e t,
                          cbs = [EvCallback st j res e t try_count])
                  /\ (forall v : PyVal,
                         fst (_exec_callback self st j res e t try_count w1)
                         = Done v -> is_retry v = true -> cbs <> [])
                  /\ same_frame w
                       (snd (_exec_callback self st j res e t try_count w1))).
      { intros st res e t.
        destruct (exec_callback_shape self st j res e t try_count w1)
          as (cbs & Hcbs & Hform & Hretry & Hfr1 & Hfr2 & Hfr3).
        exists (execution_events self j), cbs.
        split.
        { rewrite Hcbs, Ht, Hw0. now repeat rewrite <- app_assoc. }
        split; [right; eauto|].
        split.
        { destruct Hform as [-> | ->]; [now left|right; eauto 10]. }
        split; [exact Hretry|].
        unfold same_frame. rewrite Hfr1, Hfr2, Hfr3, Hp, Hq, Hr.
        subst w0. simpl. auto. }
      assert (Hstop : forall x : Result PyVal,
                (forall v, x <> Done v) ->
                exists exec cbs : list Event,
                  w_trace (snd (x, w1))
                  = w_trace w
                    ++ [EvProcessing record; EvLoads (value record)]
                    ++ exec ++ cbs
                  /\ (exec = []
                      \/ exists j : Job, exec = execution_events self j)
                  /\ (cbs = []
                      \/ exists st j res e t,
                          cbs = [EvCallback st j res e t try_count])
                  /\ (forall v : PyVal,
                         fst (x, w1) = Done v -> is_retry v = true ->
                         cbs <> [])
                  /\ same_frame w (snd (x, w1))).
      { intros x Hx. exists (execution_events self j), [].
        cbn [snd fst]. split.
        { rewrite Ht, Hw0, app_nil_r. now repeat rewrite <- app_assoc. }
        split; [right; eauto|]. split; [now left|].
        split; [intros v Hv; now apply Hx in Hv|].
        unfold same_frame. rewrite Hp, Hq, Hr. subst w0. simpl. auto. }
      destruct r as [res | e | | ].
      * apply Hcb.
      * destruct (is_mp_TimeoutError e); [apply Hcb|].
        destruct (is_Exception e); [apply Hcb|].
        apply Hstop. discriminate.
      * apply Hstop. discriminate.
      * apply Hstop. discriminate.
    + apply Hbad. unfold _consume_record. unfold_ops. simpl.
      rewrite Hl. simpl. now rewrite Hc.
  - apply Hbad. unfold _consume_record. unfold_ops. simpl.
    now rewrite Hl.
Qed.

Lemma consume_record_summary (self : Worker U) (record : ConsumerRecord)
    (k : nat) (w : World U) :
  let run := _consume_record E self record (Z.of_nat k) w in
  exists evs : list Event,
    w_trace (snd run) = w_trace w ++ evs
    /\ count is_processing evs = 1%nat
    /\ (attempt_tries k evs = []
        \/ attempt_tries k evs = [(S k, Z.of_nat k)])
    /\ (forall v : PyVal,
           fst run = Done v -> is_retry v = true ->
           attempt_tries k evs = [(S k, Z.of_nat k)])
    /\ count is_commit_event evs = 0%nat
    /\ send_producers evs = []
    /\ built_producers evs = []
    /\ same_frame w (snd run).
Proof.
  intros run.
  destruct (consume_record_shape self record (Z.of_nat k) w)
    as (exec & cbs & Ht & Hexec & Hcbs & Hretry & Hframe).
  fold run in Ht, Hretry, Hframe.
  exists ([EvProcessing record; EvLoads (value record)] ++ exec ++ cbs).
  split; [exact Ht|].
  assert (Hquiet :
    count is_processing exec = 0%nat
    /\ count is_commit_event exec = 0%nat
    /\ send_producers exec = [] /\ built_producers exec = []
    /\ forall n, attempt_tries n exec = []).
  { destruct Hexec as [-> | [j ->]]; [repeat split|].
    unfold execution_events.
    destruct (py_or (_timeout self) (job_timeout j));
      [destruct (_pool self)|]; repeat split. }
  destruct Hquiet as (Q1 & Q2 & Q3 & Q4 & Q5).
  assert (Htries : attempt_tries k
                     ([EvProcessing record; EvLoads (value record)]
                      ++ exec ++ cbs)
                   = attempt_tries (S k) cbs).
  { simpl. rewrite attempt_tries_app, Q5, Q1. simpl.
    now rewrite Nat.add_0_r. }
  rewrite Htries.
  repeat rewrite count_app. repeat rewrite send_producers_app.
  repeat rewrite built_producers_app. rewrite Q1, Q2, Q3, Q4.
  destruct Hcbs as [-> | (st & j & res & e & t & ->)].
  - repeat split; auto; try apply Hframe.
    intros v Hv Hr. exfalso. now apply (Hretry v Hv Hr).
  - repeat split; auto; apply Hframe.
Qed.

(** The loop of [start]: the callback invocations are those of the
    attempts [k + 1], [k + 2], ... up to some attempt, one each, and the
    one of attempt [i + 1] is given the try count [i]; the loop neither
    commits nor forwards. *)
Lemma attempts_shape (self : Worker U) (record : ConsumerRecord) :
  forall (fuel : nat) (cc : PyVal) (k : nat) (w : World U),
    let run := attempts E fuel self record cc (Z.of_nat k) w in
    exists (evs : list Event) (m : nat),
      w_trace (snd run) = w_trace w ++ evs
      /\ attempt_tries k evs = map (fun i => (S i, Z.of_nat i)) (seq k m)
      /\ count is_commit_event evs = 0%nat
      /\ send_producers evs = []
      /\ built_producers evs = []
      /\ same_frame w (snd run).
Proof.
  assert (Hnil : forall (k : nat) (w : World U) (x : Result PyVal),
             exists (evs : list Event) (m : nat),
               w_trace (snd (x, w)) = w_trace w ++ evs
               /\ attempt_tries k evs
                  = map (fun i => (S i, Z.of_nat i)) (seq k m)
               /\ count is_commit_event evs = 0%nat
               /\ send_producers evs = []
               /\ built_producers evs = []
               /\ same_frame w (snd (x, w))).
  { intros k w x. exists [], 0%nat. simpl. rewrite app_nil_r.
    unfold same_frame. repeat split. }
  induction fuel as [|fuel IH]; intros cc k w run; subst run.
  - simpl. destruct (py_eq_int cc 0); apply Hnil.
  - destruct (is_retry cc) eqn:Hcc.
    + rewrite attempts_step by exact Hcc.
      destruct (consume_record_summary self record k w)
        as (evs1 & Ht1 & Hp1 & Hform & Hretry & Hc1 & Hs1 & Hb1 & Hf1).
      cbv zeta in Hretry.
      destruct (_consume_record E self record (Z.of_nat k) w)
        as [r w1]. cbn [fst snd] in *.
      assert (Hlast : forall x : Result PyVal,
                exists (evs : list Event) (m : nat),
                  w_trace (snd (x, w1)) = w_trace w ++ evs
                  /\ attempt_tries k evs
                     = map (fun i => (S i, Z.of_nat i)) (seq k m)
                  /\ count is_commit_event evs = 0%nat
                  /\ send_producers evs = []
                  /\ built_producers evs = []
                  /\ same_frame w (snd (x, w1))).
      { intros x. cbn [snd].
        destruct Hform as [Hn | Hn].
        - exists evs1, 0%nat. rewrite Hn. repeat split; auto; apply Hf1.
        - exists evs1, 1%nat. rewrite Hn. repeat split; auto; apply Hf1. }
      destruct r as [cc' | e | | ]; try apply Hlast.
      destruct (is_retry cc') eqn:Hcc'.
      * replace (Z.of_nat k + 1) with (Z.of_nat (S k)) by lia.
        destruct (IH cc' (S k) w1)
          as (evs2 & m & Ht2 & Htr2 & Hc2 & Hs2 & Hb2 & Hf2).
        exists (evs1 ++ evs2), (S m).
        rewrite attempt_tries_app, Hp1, count_app, send_producers_app,
          built_producers_app, Hc1, Hc2, Hs1, Hs2, Hb1, Hb2.
        rewrite (Hretry cc' eq_refl Hcc').
        replace (k + 1)%nat with (S k) by lia. rewrite Htr2.
        split; [rewrite Ht2, Ht1; now rewrite app_assoc|].
        repeat split; auto.
        -- destruct Hf1 as (A & _), Hf2 as (B & _). now rewrite B.
        -- destruct Hf1 as (_ & A & _), Hf2 as (_ & B & _). now rewrite B.
        -- destruct Hf1 as (_ & _ & A), Hf2 as (_ & _ & B). now rewrite B.
      * rewrite attempts_stop by exact Hcc'. apply Hlast.
    + rewrite attempts_stop by exact Hcc. apply Hnil.
Qed.

(** A forward opens with the construction of the queue and never commits;
    when the queue connects it builds one producer, the next in number, and
    sends through it once. *)
Lemma fail_record_summary (self : Worker U) (record : ConsumerRecord)
    (w : World U) :
  let fwd := _fail_record E self record w in
  exists evs : list Event,
    w_trace (snd fwd) = w_trace w ++ EvQueue (forward_config self) :: evs
    /\ count is_commit_event evs = 0%nat
    /\ (forall k : nat,
           attempt_tries k (EvQueue (forward_config self) :: evs) = [])
    /\ w_position (snd fwd) = w_position w
    /\ w_pools (snd fwd) = w_pools w
    /\ ((send_producers evs = [] /\ built_producers evs = []
         /\ w_producers (snd fwd) = w_producers w
         /\ forwarded (fst fwd) = false)
        \/ (send_producers evs = [w_producers w]
            /\ built_producers evs = [w_producers w]
            /\ w_producers (snd fwd) = S (w_producers w))).
Proof.
  intros fwd. subst fwd.
  pose proof (fail_record_shape self record w) as H. cbv zeta in H.
  destruct (queue_connect E (forward_config self) (w_ext w)) as [[e|] u1].
  - rewrite H. exists []. simpl.
    do 5 (split; [reflexivity|]). left. repeat split.
  - destruct H as (rest & Ht & Hrest & Hp & Hpos & Hpool).
    eexists. split; [exact Ht|]. rewrite Hp, Hpos, Hpool.
    destruct Hrest as [-> | ->];
      (do 4 (split; [reflexivity|]); right; repeat split).
Qed.

Lemma conclude_steps (self : Worker U) (record : ConsumerRecord)
    (cc : PyVal) (w : World U) :
  conclude E self record cc w
  = if is_dead_letter cc
    then match _fail_record E self record w with
         | (Done true, w1) =>
             (Done tt, add_event (EvCommit (w_position w1)) w1)
         | (Done false, w1) => (Done tt, w1)
         | (Raised e, w1) => (Raised e, w1)
         | (Hung, w1) => (Hung, w1)
         | (OutOfFuel, w1) => (OutOfFuel, w1)
         end
    else (Done tt, add_event (EvCommit (w_position w)) w).
Proof.
  unfold conclude, is_dead_letter.
  destruct (py_eq_int cc (-1)); [|reflexivity].
  unfold bind.
  destruct (_fail_record E self record w) as [[[|] | e | | ] w1];
    reflexivity.
Qed.

Lemma start_record_steps (fuel : nat) (self : Worker U)
    (record : ConsumerRecord) (w : World U) :
  start_record E fuel self record w
  = match attempts E fuel self record (VInt 0) 0
            (snd (consumer_next record w)) with
    | (Done cc, w1) => conclude E self record cc w1
    | (Raised e, w1) => (Raised e, w1)
    | (Hung, w1) => (Hung, w1)
    | (OutOfFuel, w1) => (OutOfFuel, w1)
    end.
Proof.
  unfold start_record. unfold bind at 1. cbn [consumer_next snd].
  unfold bind.
  destruct (attempts E fuel self record (VInt 0) 0 _) as [[cc | e | | ] w1];
    reflexivity.
Qed.

(** C3.  When the loop of [start] ends on the dead-letter decision, the
    forwarder runs first, opening with the construction of the queue and
    committing nothing itself; the position is then committed if the forward
    returned [True] and is not committed otherwise, be it that the forward
    returned [False] or that it raised. *)
Theorem dead_letter_commits_iff_forwarded :
  forall (fuel : nat) (self : Worker U) (record : ConsumerRecord)
         (w w1 : World U) (cc : PyVal),
    attempts E fuel self record (VInt 0) 0 (snd (consumer_next record w))
    = (Done cc, w1) ->
    is_dead_letter cc = true ->
    let fwd := _fail_record E self record w1 in
    let run := start_record E fuel self record w in
    (exists evs : list Event,
        new_events w1 (snd fwd) = EvQueue (forward_config self) :: evs
        /\ count is_forward (new_events w1 (snd fwd)) = 1%nat
        /\ count is_commit_event (new_events w1 (snd fwd)) = 0%nat)
    /\ new_events w1 (snd run)
       = new_events w1 (snd fwd)
         ++ (if forwarded (fst fwd)
             then [EvCommit (Some (partition record, offset record + 1))]
             else [])
    /\ (forwarded (fst fwd) = true -> fst run = Done tt)
    /\ count is_commit_event (new_events w1 (snd run))
       = (if forwarded (fst fwd) then 1%nat else 0%nat).
Proof.
  intros fuel self record w w1 cc Hatt Hdl fwd run.
  assert (Hpos1 : w_position w1 = Some (partition record, offset record + 1)).
  { pose proof (attempts_shape self record fuel (VInt 0) 0%nat
                  (snd (consumer_next record w))) as H.
    cbv zeta in H. change (Z.of_nat 0) with 0 in H. rewrite Hatt in H.
    destruct H as (evs & m & _ & _ & _ & _ & _ & Hp & _).
    exact Hp. }
  destruct (fail_record_summary self record w1)
    as (evs & Ht & Hc & _ & Hpos & _ & Hprod).
  fold fwd in Ht, Hpos, Hprod.
  assert (Hfw : new_events w1 (snd fwd) = EvQueue (forward_config self) :: evs).
  { now apply new_events_app. }
  assert (Hrun : run
                 = if forwarded (fst fwd)
                   then (Done tt, add_event (EvCommit (w_position w1))
                                    (snd fwd))
                   else (match fst fwd with
                         | Done _ => Done tt
                         | Raised e => Raised e
                         | Hung => Hung
                         | OutOfFuel => OutOfFuel
                         end, snd fwd)).
  { subst run. rewrite start_record_steps, Hatt, conclude_steps, Hdl.
    subst fwd. destruct (_fail_record E self record w1)
      as [[[|] | e | | ] w2]; simpl in *; try reflexivity.
    now rewrite Hpos. }
  assert (Hcf : count is_forward evs = 0%nat).
  { destruct Hprod as [(_ & _ & _ & _) | _].
    - pose proof (fail_record_shape self record w1) as H. cbv zeta in H.
      fold fwd in H.
      destruct (queue_connect E (forward_config self) (w_ext w1))
        as [[e|] u1].
      + rewrite H in Ht. simpl in Ht.
        apply app_inv_head in Ht. injection Ht as <-. reflexivity.
      + destruct H as (rest & Ht' & Hrest & _).
        rewrite Ht' in Ht. apply app_inv_head in Ht. injection Ht as <-.
        destruct Hrest as [-> | ->]; reflexivity.
    - pose proof (fail_record_shape self record w1) as H. cbv zeta in H.
      fold fwd in H.
      destruct (queue_connect E (forward_config self) (w_ext w1))
        as [[e|] u1].
      + rewrite H in Ht. simpl in Ht.
        apply app_inv_head in Ht. injection Ht as <-. reflexivity.
      + destruct H as (rest & Ht' & Hrest & _).
        rewrite Ht' in Ht. apply app_inv_head in Ht. injection Ht as <-.
        destruct Hrest as [-> | ->]; reflexivity. }
  split.
  { exists evs. rewrite Hfw. split; [reflexivity|].
    split.
    - unfold count in *. simpl. now rewrite Hcf.
    - unfold count in *. simpl. exact Hc. }
  assert (Hnew : new_events w1 (snd run)
                 = new_events w1 (snd fwd)
                   ++ (if forwarded (fst fwd)
                       then [EvCommit
                               (Some (partition record, offset record + 1))]
                       else [])).
  { rewrite Hrun. destruct (forwarded (fst fwd)); cbn [snd].
    - rewrite Hfw. apply new_events_app. simpl. rewrite Ht, Hpos1.
      now rewrite <- app_assoc.
    - now rewrite app_nil_r. }
  split; [exact Hnew|].
  split.
  - intros Hf. rewrite Hrun, Hf. reflexivity.
  - rewrite Hnew, count_app, Hfw.
    replace (count is_commit_event (EvQueue (forward_config self) :: evs))
      with 0%nat by (unfold count in *; simpl; now rewrite Hc).
    destruct (forwarded (fst fwd)); reflexivity.
Qed.

(** C8.  Once its queue is built, the forwarder publishes exactly once: to
    the topic [<topic>.failed], the payload bytes of the record as they
    are, under the key found by decoding the payload again, which is the
    job's key when the payload is a job and [None] when the decoding raises
    or yields anything else; in every case the send takes place. *)
Theorem forward_is_verbatim :
  forall (self : Worker U) (record : ConsumerRecord) (w : World U),
    fst (queue_connect E (forward_config self) (w_ext w)) = None ->
    exists (k : option bytes) (rest : list Event),
      new_events w (snd (_fail_record E self record w))
      = [EvQueue (forward_config self);
         EvProducer (w_producers w) (forward_config self);
         EvLoads (value record);
         EvSend (w_producers w) (_get_fail_topic self) (value record) k]
        ++ rest
      /\ _get_fail_topic self = (_topic self ++ ".failed")%string
      /\ count is_send rest = 0%nat
      /\ (forall j : Job,
             dill_loads E (value record) = inl (VJob j) -> k = job_key j)
      /\ (forall obj : PyVal,
             dill_loads E (value record) = inl obj ->
             (forall j : Job, obj <> VJob j) -> k = None)
      /\ (forall e : PyExc,
             dill_loads E (value record) = inr e -> k = None).
Proof.
  intros self record w Hq.
  pose proof (fail_record_shape self record w) as H. cbv zeta in H.
  destruct (queue_connect E (forward_config self) (w_ext w)) as [[e|] u1];
    [discriminate|].
  destruct H as (rest & Ht & Hrest & _).
  exists (recovered_key E record), rest.
  split; [now apply new_events_app|].
  split; [reflexivity|].
  split; [destruct Hrest as [-> | ->]; reflexivity|].
  unfold recovered_key.
  repeat split.
  - intros j ->. reflexivity.
  - intros obj -> Hobj. destruct obj; try reflexivity.
    now destruct (Hobj j).
  - intros e' ->. reflexivity.
Qed.

(** ** The whole loop *)

(** What the handling of one record adds to the trace, as far as callbacks
    and producers are concerned. *)
Lemma start_record_shape (fuel : nat) (self : Worker U)
    (record : ConsumerRecord) (w : World U) :
  let run := start_record E fuel self record w in
  exists (evs : list Event) (m n : nat),
    w_trace (snd run) = w_trace w ++ evs
    /\ attempt_tries 0 evs = map (fun i => (S i, Z.of_nat i)) (seq 0 m)
    /\ send_producers evs = seq (w_producers w) n
    /\ built_producers evs = seq (w_producers w) n
    /\ w_producers (snd run) = (w_producers w + n)%nat
    /\ w_pools (snd run) = w_pools w.
Proof.
  intros run. subst run. rewrite start_record_steps.
  pose proof (attempts_shape self record fuel (VInt 0) 0%nat
                (snd (consumer_next record w))) as H.
  cbv zeta in H. change (Z.of_nat 0) with 0 in H.
  destruct (attempts E fuel self record (VInt 0) 0
              (snd (consumer_next record w))) as [r w1].
  cbn [snd] in H.
  destruct H as (evs & m & Ht & Htr & Hc & Hs & Hb & Hpos & Hprod & Hpool).
  cbn [consumer_next snd w_trace w_position w_producers w_pools] in *.
  assert (Hfin : forall (rest : list Event) (n0 : nat) (wfin : World U),
            (forall k, attempt_tries k rest = []) ->
            send_producers rest = seq (w_producers w) n0 ->
            built_producers rest = seq (w_producers w) n0 ->
            w_trace wfin = w_trace w1 ++ rest ->
            w_producers wfin = (w_producers w + n0)%nat ->
            w_pools wfin = w_pools w ->
            exists (evs0 : list Event) (m0 n1 : nat),
              w_trace wfin = w_trace w ++ evs0
              /\ attempt_tries 0 evs0
                 = map (fun i => (S i, Z.of_nat i)) (seq 0 m0)
              /\ send_producers evs0 = seq (w_producers w) n1
              /\ built_producers evs0 = seq (w_producers w) n1
              /\ w_producers wfin = (w_producers w + n1)%nat
              /\ w_pools wfin = w_pools w).
  { intros rest n0 wfin R1 R2 R3 R4 R5 R6.
    exists (EvFetch record :: evs ++ rest), m, n0.
    split; [rewrite R4, Ht; repeat rewrite <- app_assoc; reflexivity|].
    simpl. rewrite attempt_tries_app, send_producers_app,
      built_producers_app, Htr, Hs, Hb, R1, R2, R3, app_nil_r.
    repeat split; assumption. }
  assert (Hkeep : forall x : Result unit,
            exists (evs0 : list Event) (m0 n0 : nat),
              w_trace (snd (x, w1)) = w_trace w ++ evs0
              /\ attempt_tries 0 evs0
                 = map (fun i => (S i, Z.of_nat i)) (seq 0 m0)
              /\ send_producers evs0 = seq (w_producers w) n0
              /\ built_producers evs0 = seq (w_producers w) n0
              /\ w_producers (snd (x, w1)) = (w_producers w + n0)%nat
              /\ w_pools (snd (x, w1)) = w_pools w).
  { intros x. cbn [snd]. apply (Hfin [] 0%nat); auto.
    - now rewrite app_nil_r.
    - lia. }
  destruct r as [cc | e | | ]; try apply Hkeep.
  rewrite conclude_steps.
  destruct (is_dead_letter cc).
  - destruct (fail_record_summary self record w1)
      as (fevs & Hft & Hfc & Hftr & Hfpos & Hfpool & Hfprod).
    assert (Hfwd : forall (tail : list Event) (wfin : World U),
              (forall k, attempt_tries k tail = []) ->
              send_producers tail = [] -> built_producers tail = [] ->
              w_trace wfin
              = w_trace (snd (_fail_record E self record w1)) ++ tail ->
              w_producers wfin
              = w_producers (snd (_fail_record E self record w1)) ->
              w_pools wfin = w_pools (snd (_fail_record E self record w1)) ->
              exists (evs0 : list Event) (m0 n1 : nat),
                w_trace wfin = w_trace w ++ evs0
                /\ attempt_tries 0 evs0
                   = map (fun i => (S i, Z.of_nat i)) (seq 0 m0)
                /\ send_producers evs0 = seq (w_producers w) n1
                /\ built_producers evs0 = seq (w_producers w) n1
                /\ w_producers wfin = (w_producers w + n1)%nat
                /\ w_pools wfin = w_pools w).
    { intros tail wfin T1 T2 T3 T4 T5 T6.
      assert (Htries : forall k,
                attempt_tries k
                  ((EvQueue (forward_config self) :: fevs) ++ tail) = []).
      { intros k. now rewrite attempt_tries_app, Hftr, T1. }
      assert (Htrace : w_trace wfin
                       = w_trace w1
                         ++ (EvQueue (forward_config self) :: fevs) ++ tail).
      { rewrite T4, Hft. now rewrite <- app_assoc. }
      destruct Hfprod as [(S1 & B1 & P1 & _) | (S1 & B1 & P1)].
      - apply (Hfin ((EvQueue (forward_config self) :: fevs) ++ tail)
                 0%nat); auto.
        + simpl. now rewrite send_producers_app, S1, T2.
        + simpl. now rewrite built_producers_app, B1, T3.
        + rewrite T5, P1, Hprod. lia.
        + now rewrite T6, Hfpool.
      - apply (Hfin ((EvQueue (forward_config self) :: fevs) ++ tail)
                 1%nat); auto.
        + simpl. now rewrite send_producers_app, S1, T2, Hprod.
        + simpl. now rewrite built_producers_app, B1, T3, Hprod.
        + rewrite T5, P1, Hprod. lia.
        + now rewrite T6, Hfpool. }
    destruct (_fail_record E self record w1) as [[[|] | e | | ] w2];
      cbn [snd fst] in *;
      first [ apply (Hfwd [EvCommit (w_position w2)]); reflexivity
            | apply (Hfwd []); auto; now rewrite app_nil_r ].
  - apply (Hfin [EvCommit (w_position w1)] 0%nat); auto. simpl. lia.
Qed.

(** A callback that answers the retry signal every time keeps the loop
    turning for as long as one follows it, and nothing is committed. *)
Lemma always_retry_never_ends (self : Worker U) (record : ConsumerRecord) :
  (forall (k : nat) (w : World U),
      exists (j : Job) (o : Outcome) (v : PyVal) (w' : World U),
        observe_attempt E self record (Z.of_nat k) w
        = Some (j, o, Replied v, w')
        /\ is_retry v = true) ->
  forall (fuel k : nat) (w : World U),
    fst (attempts E fuel self record (VInt 0) (Z.of_nat k) w) = OutOfFuel
    /\ count is_commit_event
         (new_events w (snd (attempts E fuel self record (VInt 0)
                               (Z.of_nat k) w))) = 0%nat.
Proof.
  intros H fuel k w. split.
  - revert k w. induction fuel as [|fuel IH]; intros k w; [reflexivity|].
    destruct (H k w) as (j & o & v & w' & Hobs & Hv).
    pose proof (observe_attempt_consume _ _ _ _ _ _ _ _ Hobs) as Hc.
    assert (Hn : is_None v = false).
    { destruct v; try reflexivity; discriminate. }
    simpl in Hc. rewrite Hn in Hc.
    rewrite attempts_step by reflexivity. rewrite Hc.
    replace (Z.of_nat k + 1) with (Z.of_nat (S k)) by lia.
    assert (Hzero : attempts E fuel self record v (Z.of_nat (S k)) w'
                    = attempts E fuel self record (VInt 0)
                        (Z.of_nat (S k)) w').
    { destruct fuel; simpl; unfold is_retry in Hv; rewrite Hv;
        reflexivity. }
    rewrite Hzero. apply IH.
  - destruct (attempts_shape self record fuel (VInt 0) k w)
      as (evs & m & Ht & _ & Hc & _).
    now rewrite (new_events_app _ _ _ Ht).
Qed.

(** ** The try count *)

Lemma firstn_seq_le (n : nat) :
  forall a m : nat, (n <= m)%nat -> firstn n (seq a m) = seq a n.
Proof.
  induction n as [|n IH]; intros a m H; [reflexivity|].
  destruct m as [|m]; [lia|].
  simpl. f_equal. apply IH. lia.
Qed.

Lemma attempt_tries_length (evs : list Event) :
  forall k : nat,
    List.length (attempt_tries k evs) = count is_callback evs.
Proof.
  induction evs as [|ev evs IH]; intros k; [reflexivity|].
  destruct ev; simpl; try apply IH.
  unfold count. simpl. f_equal. apply IH.
Qed.

Lemma observe_attempt_answered (self : Worker U) (record : ConsumerRecord)
    (try_count : Z) (w w' : World U) (j : Job) (o : Outcome) (rep : Reply) :
  observe_attempt E self record try_count w = Some (j, o, rep, w') ->
  rep <> NoCallback ->
  exists evs : list Event,
    w_trace w' = w_trace w ++ evs
    /\ count is_callback evs = 1%nat.
Proof.
  intros Hobs Hrep.
  destruct (observe_attempt_frame _ _ _ _ _ _ _ _ Hobs) as (Ht & _).
  assert (Hcb : exists cb, _callback self = Some cb).
  { unfold observe_attempt in Hobs.
    destruct (dill_loads E (value record)) as [obj | e0]; [|discriminate].
    destruct (check_job obj) as [j0|]; [|discriminate].
    destruct (run_job E self j0 _) as [r w1].
    destruct (outcome_of r) as [o0|]; [|discriminate].
    destruct (_callback self) as [cb|]; [eauto|].
    injection Hobs as _ _ <- _. now destruct Hrep. }
  destruct Hcb as [cb Hcb].
  eexists. split; [exact Ht|].
  unfold execution_events, dispatch_events. rewrite Hcb.
  destruct (py_or (_timeout self) (job_timeout j));
    [destruct (_pool self)|]; reflexivity.
Qed.

(** The loop of [start] goes through every observed attempt. *)
Lemma observed_attempts_prefix (self : Worker U) (record : ConsumerRecord) :
  forall (n k : nat) (w w' : World U) (fuel : nat) (cc : PyVal),
    observed_attempts E n self record (Z.of_nat k) w = Some w' ->
    is_retry cc = true ->
    (n <= fuel)%nat ->
    exists evs1 evs2 : list Event,
      w_trace w' = w_trace w ++ evs1
      /\ count is_callback evs1 = n
      /\ w_trace (snd (attempts E fuel self record cc (Z.of_nat k) w))
         = w_trace w' ++ evs2.
Proof.
  induction n as [|n IH]; intros k w w' fuel cc Hrun Hcc Hfuel.
  - injection Hrun as <-. exists [].
    destruct (attempts_shape self record fuel cc k w) as (evs & m & Ht & _).
    exists evs. rewrite app_nil_r. auto.
  - destruct fuel as [|fuel]; [lia|].
    simpl in Hrun.
    destruct (observe_attempt E self record (Z.of_nat k) w)
      as [[[[j o] rep] w1]|] eqn:Hobs; [|discriminate].
    pose proof (observe_attempt_consume _ _ _ _ _ _ _ _ Hobs) as Hc.
    assert (Hrest : forall r : Result PyVal,
              exists evs2 : list Event,
                w_trace
                  (snd (match r with
                        | Done cc' =>
                            attempts E fuel self record cc'
                                     (Z.of_nat (S k)) w1
                        | Raised e => (Raised e, w1)
                        | Hung => (Hung, w1)
                        | OutOfFuel => (OutOfFuel, w1)
                        end))
                = w_trace w1 ++ evs2).
    { intros [cc' | e | | ]; try (exists []; simpl; now rewrite app_nil_r).
      destruct (attempts_shape self record fuel cc' (S k) w1)
        as (evs & m & Ht & _).
      now exists evs. }
    rewrite attempts_step by exact Hcc. rewrite Hc.
    replace (Z.of_nat k + 1) with (Z.of_nat (S k)) in * by lia.
    destruct rep as [ | v | e]; [discriminate | |].
    + destruct (observe_attempt_answered _ _ _ _ _ _ _ _ Hobs)
        as (evs1 & Ht1 & Hc1); [discriminate|].
      destruct n as [|n].
      * injection Hrun as <-.
        destruct (Hrest (decision (Replied v))) as (evs2 & Ht2).
        exists evs1, evs2. auto.
      * destruct (is_retry v) eqn:Hv; [|discriminate].
        assert (Hn : is_None v = false).
        { destruct v; try reflexivity; discriminate. }
        cbn [decision]. rewrite Hn.
        destruct (IH (S k) w1 w' fuel v Hrun Hv ltac:(lia))
          as (evs1' & evs2 & Ht1' & Hc1' & Ht2).
        exists (evs1 ++ evs1'), evs2.
        split; [rewrite Ht1', Ht1; now rewrite app_assoc|].
        split; [rewrite count_app, Hc1, Hc1'; reflexivity | exact Ht2].
    + destruct n as [|n]; [|discriminate].
      injection Hrun as <-.
      destruct (observe_attempt_answered _ _ _ _ _ _ _ _ Hobs)
        as (evs1 & Ht1 & Hc1); [discriminate|].
      destruct (Hrest (decision (CallbackRaised e))) as (evs2 & Ht2).
      exists evs1, evs2. auto.
Qed.

(** In the loop there are as many callback invocations as attempts, but
    for the last attempt, which may end without one. *)
Lemma attempts_callbacks (self : Worker U) (record : ConsumerRecord) :
  forall (fuel : nat) (cc : PyVal) (k : nat) (w : World U),
    exists evs : list Event,
      w_trace (snd (attempts E fuel self record cc (Z.of_nat k) w))
      = w_trace w ++ evs
      /\ (count is_callback evs <= count is_processing evs)%nat
      /\ (count is_processing evs <= S (count is_callback evs))%nat.
Proof.
  induction fuel as [|fuel IH]; intros cc k w.
  - exists []. simpl. destruct (py_eq_int cc 0); simpl;
      rewrite app_nil_r; unfold count; simpl; auto.
  - destruct (is_retry cc) eqn:Hcc.
    + rewrite attempts_step by exact Hcc.
      destruct (consume_record_summary self record k w)
        as (evs1 & Ht1 & Hp1 & Hform & Hretry & _).
      cbv zeta in Ht1, Hretry.
      assert (Hone : (count is_callback evs1 <= 1)%nat).
      { rewrite <- (attempt_tries_length evs1 k).
        destruct Hform as [-> | ->]; simpl; lia. }
      destruct (_consume_record E self record (Z.of_nat k) w)
        as [[cc' | e | | ] w1]; cbn [fst snd] in *;
        try (exists evs1; split; [exact Ht1 | lia]).
      destruct (is_retry cc') eqn:Hcc'.
      * replace (Z.of_nat k + 1) with (Z.of_nat (S k)) by lia.
        destruct (IH cc' (S k) w1) as (evs2 & Ht2 & Hlo & Hhi).
        assert (Hc1 : count is_callback evs1 = 1%nat).
        { rewrite <- (attempt_tries_length evs1 k).
          now rewrite (Hretry cc' eq_refl Hcc'). }
        exists (evs1 ++ evs2).
        split; [rewrite Ht2, Ht1; now rewrite app_assoc|].
        repeat rewrite count_app. lia.
      * rewrite attempts_stop by exact Hcc'.
        exists evs1. split; [exact Ht1 | lia].
    + rewrite attempts_stop by exact Hcc.
      exists []. simpl. rewrite app_nil_r. unfold count. simpl. auto.
Qed.

Lemma conclude_quiet (self : Worker U) (record : ConsumerRecord)
    (cc : PyVal) (w : World U) :
  exists evs : list Event,
    w_trace (snd (conclude E self record cc w)) = w_trace w ++ evs
    /\ count is_processing evs = 0%nat
    /\ count is_callback evs = 0%nat.
Proof.
  rewrite conclude_steps.
  destruct (is_dead_letter cc).
  - pose proof (fail_record_shape self record w) as H. cbv zeta in H.
    assert (Hq : exists evs : list Event,
               w_trace (snd (_fail_record E self record w))
               = w_trace w ++ evs
               /\ count is_processing evs = 0%nat
               /\ count is_callback evs = 0%nat).
    { destruct (queue_connect E (forward_config self) (w_ext w))
        as [[e|] u1].
      - rewrite H. eexists. split; [reflexivity|]. split; reflexivity.
      - destruct H as (rest & Ht & Hrest & _).
        eexists. split; [exact Ht|].
        destruct Hrest as [-> | ->]; split; reflexivity. }
    destruct Hq as (evs & Ht & Hp & Hc).
    destruct (_fail_record E self record w) as [[[|] | e | | ] w1];
      cbn [snd] in *; try solve [exists evs; auto].
    exists (evs ++ [EvCommit (w_position w1)]).
    split; [simpl; rewrite Ht; now rewrite <- app_assoc|].
    repeat rewrite count_app. rewrite Hp, Hc. split; reflexivity.
  - eexists. split; [reflexivity|]. split; reflexivity.
Qed.

(** C10.  In the handling of one record, the callback invocations happen
    in the attempts 1, 2, ..., m, one in each, and the invocation in the
    [k]-th attempt is given [try_count = k - 1]: [0] on the first attempt of
    a delivery, one more after every attempt.  Every attempt but possibly
    the last comes with an invocation, and whenever [n] attempts in a row
    are made on a valid job and answered by the callback, the loop goes
    through all of them: it invokes the callback at least those [n]
    times, with the try counts [0] to [n - 1]. *)
Theorem try_count_counts_attempts :
  forall (n fuel : nat) (self : Worker U) (record : ConsumerRecord)
         (w w' : World U),
    observed_attempts E n self record 0 (snd (consumer_next record w))
    = Some w' ->
    (n <= fuel)%nat ->
    let evs := new_events w (snd (start_record E fuel self record w)) in
    exists m : nat,
      (n <= m)%nat
      /\ attempt_tries 0 evs = map (fun i => (S i, Z.of_nat i)) (seq 0 m)
      /\ firstn n (attempt_tries 0 evs)
         = map (fun i => (S i, Z.of_nat i)) (seq 0 n)
      /\ Forall (fun kt : nat * Z => snd kt = Z.of_nat (fst kt) - 1)
                (attempt_tries 0 evs)
      /\ count is_callback evs = m
      /\ (m <= count is_processing evs)%nat
      /\ (count is_processing evs <= S m)%nat.
Proof.
  intros n fuel self record w w' Hrun Hfuel evs.
  destruct (start_record_shape fuel self record w)
    as (evs0 & m & n0 & Ht & Htr & _).
  assert (Hev : evs = evs0) by now apply new_events_app.
  assert (Hm : count is_callback evs0 = m).
  { rewrite <- (attempt_tries_length evs0 0), Htr.
    now rewrite length_map, length_seq. }
  (* the events of the loop and of what follows it *)
  destruct (observed_attempts_prefix self record n 0
              (snd (consumer_next record w)) w' fuel (VInt 0)
              Hrun eq_refl Hfuel)
    as (evs1 & evs2 & Ht1 & Hc1 & Ht2).
  destruct (attempts_callbacks self record fuel (VInt 0) 0
              (snd (consumer_next record w)))
    as (evsA & HtA & Hlo & Hhi).
  change (Z.of_nat 0) with 0 in *.
  assert (HevsA : evsA = evs1 ++ evs2).
  { rewrite Ht2, Ht1, <- app_assoc in HtA.
    apply app_inv_head in HtA. now symmetry. }
  assert (Htail : exists evsC : list Event,
             evs0 = EvFetch record :: evsA ++ evsC
             /\ count is_processing evsC = 0%nat
             /\ count is_callback evsC = 0%nat).
  { rewrite start_record_steps in Ht.
    destruct (attempts E fuel self record (VInt 0) 0
                (snd (consumer_next record w))) as [[cc | e | | ] w1];
      cbn [snd] in *.
    - destruct (conclude_quiet self record cc w1) as (evsC & HtC & Hp & Hc).
      exists evsC. split; [|now split].
      rewrite HtC, HtA in Ht. simpl in Ht.
      repeat rewrite <- app_assoc in Ht. now apply app_inv_head in Ht.
    - exists []. split; [|now split].
      rewrite HtA in Ht. simpl in Ht.
      repeat rewrite <- app_assoc in Ht. apply app_inv_head in Ht.
      now rewrite app_nil_r.
    - exists []. split; [|now split].
      rewrite HtA in Ht. simpl in Ht.
      repeat rewrite <- app_assoc in Ht. apply app_inv_head in Ht.
      now rewrite app_nil_r.
    - exists []. split; [|now split].
      rewrite HtA in Ht. simpl in Ht.
      repeat rewrite <- app_assoc in Ht. apply app_inv_head in Ht.
      now rewrite app_nil_r. }
  destruct Htail as (evsC & Hshape & HpC & HcC).
  assert (Hcb : count is_callback evs0 = count is_callback evsA).
  { rewrite Hshape.
    change (count is_callback (EvFetch record :: evsA ++ evsC))
      with (count is_callback (evsA ++ evsC)).
    rewrite count_app, HcC. lia. }
  assert (Hpr : count is_processing evs0 = count is_processing evsA).
  { rewrite Hshape.
    change (count is_processing (EvFetch record :: evsA ++ evsC))
      with (count is_processing (evsA ++ evsC)).
    rewrite count_app, HpC. lia. }
  assert (Hn : (n <= m)%nat).
  { rewrite <- Hm, Hcb, HevsA, count_app, Hc1. lia. }
  exists m. rewrite Hev, Htr.
  split; [exact Hn|]. split; [reflexivity|].
  split.
  { rewrite firstn_map. now rewrite firstn_seq_le by exact Hn. }
  split.
  { apply Forall_forall. intros [k t] Hin.
    apply in_map_iff in Hin as (i & Hi & _).
    injection Hi as <- <-. cbn [fst snd]. rewrite Nat2Z.inj_succ. lia. }
  split; [exact Hm|].
  rewrite Hpr, <- Hm, Hcb. split; assumption.
Qed.

(** ** The pool *)

Lemma consume_record_pool (self : Worker U) (record : ConsumerRecord)
    (try_count : Z) (w : World U) :
  exists evs : list Event,
    w_trace (snd (_consume_record E self record try_count w))
    = w_trace w ++ evs
    /\ Forall (uses_pool_of self) evs.
Proof.
  destruct (consume_record_shape self record try_count w)
    as (exec & cbs & Ht & Hexec & Hcbs & _).
  eexists. split; [exact Ht|].
  apply Forall_app. split; [repeat constructor|].
  apply Forall_app. split.
  - destruct Hexec as [-> | [j ->]]; [constructor|].
    unfold execution_events.
    destruct (py_or (_timeout self) (job_timeout j));
      [destruct (_pool self) eqn:Hp|]; repeat constructor.
    simpl. exact Hp.
  - destruct Hcbs as [-> | (st & j & res & e & t & ->)];
      repeat constructor.
Qed.

Lemma attempts_pool (self : Worker U) (record : ConsumerRecord) :
  forall (fuel : nat) (cc : PyVal) (try_count : Z) (w : World U),
  exists evs : list Event,
    w_trace (snd (attempts E fuel self record cc try_count w))
    = w_trace w ++ evs
    /\ Forall (uses_pool_of self) evs.
Proof.
  induction fuel as [|fuel IH]; intros cc try_count w.
  - exists []. simpl. destruct (py_eq_int cc 0); simpl;
      now rewrite app_nil_r.
  - destruct (is_retry cc) eqn:Hcc.
    + rewrite attempts_step by exact Hcc.
      destruct (consume_record_pool self record try_count w)
        as (evs1 & Ht1 & Hp1).
      destruct (_consume_record E self record try_count w)
        as [[cc' | e | | ] w1]; cbn [snd] in *;
        try (exists evs1; now split).
      destruct (IH cc' (try_count + 1) w1) as (evs2 & Ht2 & Hp2).
      exists (evs1 ++ evs2). split.
      * rewrite Ht2, Ht1. now rewrite app_assoc.
      * apply Forall_app. now split.
    + rewrite attempts_stop by exact Hcc.
      exists []. simpl. now rewrite app_nil_r.
Qed.

Lemma fail_record_pool (self : Worker U) (record : ConsumerRecord)
    (w : World U) :
  exists evs : list Event,
    w_trace (snd (_fail_record E self record w)) = w_trace w ++ evs
    /\ Forall (uses_pool_of self) evs.
Proof.
  pose proof (fail_record_shape self record w) as H. cbv zeta in H.
  destruct (queue_connect E (forward_config self) (w_ext w)) as [[e|] u1].
  - rewrite H. eexists. split; [reflexivity|]. repeat constructor.
  - destruct H as (rest & Ht & Hrest & _).
    eexists. split; [exact Ht|].
    destruct Hrest as [-> | ->]; repeat constructor.
Qed.

Lemma start_record_pool (fuel : nat) (self : Worker U)
    (record : ConsumerRecord) (w : World U) :
  exists evs : list Event,
    w_trace (snd (start_record E fuel self record w)) = w_trace w ++ evs
    /\ Forall (uses_pool_of self) evs.
Proof.
  rewrite start_record_steps.
  destruct (attempts_pool self record fuel (VInt 0) 0
              (snd (consumer_next record w))) as (evs1 & Ht1 & Hp1).
  assert (Hfetch : w_trace (snd (consumer_next record w))
                   = w_trace w ++ [EvFetch record]) by reflexivity.
  assert (Hhead : forall (rest : list Event) (wfin : World U),
            w_trace wfin
            = w_trace (snd (attempts E fuel self record (VInt 0) 0
                              (snd (consumer_next record w)))) ++ rest ->
            Forall (uses_pool_of self) rest ->
            exists evs : list Event,
              w_trace wfin = w_trace w ++ evs
              /\ Forall (uses_pool_of self) evs).
  { intros rest wfin Hw Hr.
    exists ([EvFetch record] ++ evs1 ++ rest). split.
    - rewrite Hw, Ht1, Hfetch. now repeat rewrite <- app_assoc.
    - apply Forall_app. split; [repeat constructor|].
      apply Forall_app. now split. }
  destruct (attempts E fuel self record (VInt 0) 0
              (snd (consumer_next record w))) as [[cc | e | | ] w1];
    cbn [snd] in *;
    try (apply (Hhead []); [now rewrite app_nil_r | constructor]).
  rewrite conclude_steps.
  destruct (is_dead_letter cc).
  - destruct (fail_record_pool self record w1) as (evs2 & Ht2 & Hp2).
    destruct (_fail_record E self record w1) as [[[|] | e | | ] w2];
      cbn [snd] in *;
      try (apply (Hhead evs2); assumption).
    apply (Hhead (evs2 ++ [EvCommit (w_position w2)])).
    + simpl. rewrite Ht2. now rewrite <- app_assoc.
    + apply Forall_app. split; [assumption | repeat constructor].
  - apply (Hhead [EvCommit (w_position w1)]); [reflexivity|].
    repeat constructor.
Qed.

Lemma for_records_steps (fuel : nat) (self : Worker U)
    (record : ConsumerRecord) (rest : list ConsumerRecord) (w : World U) :
  for_records E fuel self (record :: rest) w
  = match start_record E fuel self record w with
    | (Done _, w1) => for_records E fuel self rest w1
    | (Raised e, w1) => (Raised e, w1)
    | (Hung, w1) => (Hung, w1)
    | (OutOfFuel, w1) => (OutOfFuel, w1)
    end.
Proof.
  simpl. unfold bind.
  destruct (start_record E fuel self record w) as [[[] | e | | ] w1];
    reflexivity.
Qed.

Lemma for_records_shape (fuel : nat) (self : Worker U) :
  forall (records : list ConsumerRecord) (w : World U),
    let run := for_records E fuel self records w in
    exists (evs : list Event) (n : nat),
      w_trace (snd run) = w_trace w ++ evs
      /\ Forall (uses_pool_of self) evs
      /\ send_producers evs = seq (w_producers w) n
      /\ built_producers evs = seq (w_producers w) n
      /\ w_producers (snd run) = (w_producers w + n)%nat
      /\ w_pools (snd run) = w_pools w.
Proof.
  induction records as [|record rest IH]; intros w run; subst run.
  - exists [], 0%nat. simpl. rewrite app_nil_r, Nat.add_0_r.
    repeat split. constructor.
  - rewrite for_records_steps.
    destruct (start_record_pool fuel self record w) as (evsp & Htp & Hp).
    destruct (start_record_shape fuel self record w)
      as (evs1 & m & n1 & Ht1 & _ & Hs1 & Hb1 & Hprod1 & Hpool1).
    cbv zeta in *.
    assert (Heq : evsp = evs1).
    { rewrite Htp in Ht1. now apply app_inv_head in Ht1. }
    subst evsp.
    destruct (start_record E fuel self record w) as [[[] | e | | ] w1];
      cbn [snd] in *;
      try (exists evs1, n1; repeat split; assumption).
    destruct (IH w1) as (evs2 & n2 & Ht2 & Hp2 & Hs2 & Hb2 & Hprod2 & Hpool2).
    exists (evs1 ++ evs2), (n1 + n2)%nat.
    rewrite send_producers_app, built_producers_app, Hs1, Hb1, Hs2, Hb2,
      Hprod1, seq_app.
    split; [rewrite Ht2, Ht1; now rewrite app_assoc|].
    split; [apply Forall_app; now split|].
    repeat split; try reflexivity.
    + rewrite Hprod2, Hprod1. lia.
    + now rewrite Hpool2.
Qed.

(** [start] creates its pool first, runs the loop with it and terminates
    it only when interrupted. *)
Lemma start_shape (fuel : nat) (self : Worker U)
    (records : list ConsumerRecord) (w : World U) :
  let pool := mkPool (w_pools w) 1 in
  let run := start E fuel self records w in
  exists (evs tail : list Event) (n : nat),
    w_trace (snd run) = w_trace w ++ EvPoolCreate pool :: evs ++ tail
    /\ Forall (uses_pool_of (set_pool self pool)) evs
    /\ (tail = [] \/ tail = [EvPoolTerminate pool])
    /\ send_producers evs = seq (w_producers w) n
    /\ built_producers evs = seq (w_producers w) n.
Proof.
  intros pool run. subst run. unfold start.
  unfold bind, mp_Pool. fold pool. unfold try_except_else.
  set (w0 := mkWorld (w_ext w) (w_trace w ++ [EvPoolCreate pool])
               (S (w_pools w)) (w_producers w) (w_position w)).
  destruct (for_records_shape fuel (set_pool self pool) records w0)
    as (evs & n & Ht & Hp & Hs & Hb & _).
  cbv zeta in Ht.
  destruct (for_records E fuel (set_pool self pool) records w0)
    as [[[] | e | | ] w1]; cbn [snd] in *.
  - exists evs, [], n. unfold ret. cbn [snd].
    rewrite Ht, app_nil_r. subst w0. simpl. rewrite <- app_assoc.
    repeat split; auto.
  - destruct (is_KeyboardInterrupt e).
    + exists evs, [EvPoolTerminate pool], n. simpl.
      rewrite Ht. subst w0. simpl. repeat rewrite <- app_assoc.
      repeat split; auto.
    + exists evs, [], n. unfold raise. cbn [snd].
      rewrite Ht, app_nil_r. subst w0. simpl. rewrite <- app_assoc.
      repeat split; auto.
  - exists evs, [], n.
    rewrite Ht, app_nil_r. subst w0. simpl. rewrite <- app_assoc.
    repeat split; auto.
  - exists evs, [], n.
    rewrite Ht, app_nil_r. subst w0. simpl. rewrite <- app_assoc.
    repeat split; auto.
Qed.


(** ** Execution *)

Lemma run_job_inline (self : Worker U) (j : Job) (w : World U) :
  py_or (_timeout self) (job_timeout j) = None ->
  run_job E self j w = call E (job_func j) (job_args j) (job_kwargs j) w
  /\ run_job E self j w
     = (match fst (invoke E (job_func j) (job_args j) (job_kwargs j)
                     (w_ext w)) with
        | Returns _ v => Done v
        | Raises _ e => Raised e
        | Hangs => Hung
        end,
        set_ext (snd (invoke E (job_func j) (job_args j) (job_kwargs j)
                        (w_ext w)))
          (add_event (EvCall (job_func j) (job_args j) (job_kwargs j)) w)).
Proof.
  intros H. unfold run_job. rewrite H. split; [reflexivity|].
  unfold_ops. simpl.
  destruct (invoke E (job_func j) (job_args j) (job_kwargs j) (w_ext w))
    as [[d v | d e | ] u']; reflexivity.
Qed.

Lemma run_job_pool (self : Worker U) (p : Pool) (j : Job) (t : Z)
    (w : World U) :
  py_or (_timeout self) (job_timeout j) = Some t ->
  _pool self = Some p ->
  run_job E self j w
  = (match fst (invoke E (job_func j) (job_args j) (job_kwargs j)
                  (w_ext w)) with
     | Returns d v => if d <=? t then Done v else Raised mp_timeout_error
     | Raises d e =>
         if (d <=? t) && is_Exception e then Raised e
         else Raised mp_timeout_error
     | Hangs => Raised mp_timeout_error
     end,
     add_event (EvGet t)
       (set_ext (snd (invoke E (job_func j) (job_args j) (job_kwargs j)
                        (w_ext w)))
          (add_event
             (EvApplyAsync p (job_func j) (job_args j) (job_kwargs j)) w))).
Proof.
  intros H Hp. unfold run_job. rewrite H, Hp.
  unfold_ops. simpl.
  destruct (invoke E (job_func j) (job_args j) (job_kwargs j) (w_ext w))
    as [[d v | d e | ] u']; simpl; try destruct (d <=? t); simpl;
    try destruct (is_Exception e); reflexivity.
Qed.

(** C6 (amended).  The effective timeout is the worker's timeout when
    that is set and not zero, else the job's own timeout, else none.  With
    no effective timeout the callable is called in the worker's own process
    and whatever it does, however late, is the result.  With an effective
    timeout [t] the call goes to the pool and is awaited for [t] seconds;
    that pool is the one pool, of one process, that [start] creates before
    the loop, and no other pool is created while the loop runs. *)
Theorem effective_timeout_selects_execution :
  forall (fuel : nat) (self : Worker U) (records : list ConsumerRecord)
         (j : Job) (w w1 : World U),
    let pool := mkPool (w_pools w) 1 in
    let started := set_pool self pool in
    let f := job_func j in
    let a := job_args j in
    let k := job_kwargs j in
    let eff := py_or (_timeout started) (job_timeout j) in
    eff = match _timeout self with
          | Some t => if t =? 0 then job_timeout j else Some t
          | None => job_timeout j
          end
    /\ (eff = None ->
        run_job E started j w1 = call E f a k w1
        /\ new_events w1 (snd (run_job E started j w1)) = [EvCall f a k]
        /\ fst (run_job E started j w1)
           = match fst (invoke E f a k (w_ext w1)) with
             | Returns _ v => Done v
             | Raises _ e => Raised e
             | Hangs => Hung
             end)
    /\ (forall t : Z,
           eff = Some t ->
           new_events w1 (snd (run_job E started j w1))
           = [EvApplyAsync pool f a k; EvGet t]
           /\ fst (run_job E started j w1)
              = match fst (invoke E f a k (w_ext w1)) with
                | Returns d v =>
                    if d <=? t then Done v else Raised mp_timeout_error
                | Raises d e =>
                    if (d <=? t) && is_Exception e then Raised e
                    else Raised mp_timeout_error
                | Hangs => Raised mp_timeout_error
                end)
    /\ (exists rest : list Event,
           new_events w (snd (start E fuel self records w))
           = EvPoolCreate pool :: rest
           /\ processes pool = 1
           /\ Forall (fun ev =>
                        match ev with
                        | EvPoolCreate _ => False
                        | EvApplyAsync p _ _ _ => p = pool
                        | _ => True
                        end) rest).
Proof.
  intros fuel self records j w w1 pool started f a k eff.
  split.
  { subst eff started. simpl. unfold py_or, truthy.
    destruct (_timeout self) as [t|]; [|reflexivity].
    destruct (t =? 0); reflexivity. }
  split.
  { intros Heff.
    destruct (run_job_inline started j w1 Heff) as [H1 H2].
    split; [exact H1|]. rewrite H2. cbn [fst snd].
    split; [|reflexivity].
    apply new_events_app. reflexivity. }
  split.
  { intros t Heff.
    rewrite (run_job_pool started pool j t w1 Heff eq_refl).
    cbn [fst snd]. split; [|reflexivity].
    apply new_events_app. simpl. now rewrite <- app_assoc. }
  destruct (start_shape fuel self records w)
    as (evs & tail & n & Ht & Hp & Htail & _).
  cbv zeta in Ht, Hp. fold pool in Ht, Hp. fold started in Hp.
  exists (evs ++ tail).
  split; [now apply new_events_app|].
  split; [reflexivity|].
  apply Forall_app. split.
  - eapply Forall_impl; [|exact Hp].
    intros ev Hev. destruct ev; simpl in *; auto.
    now injection Hev as <-.
  - destruct Htail as [-> | ->]; repeat constructor.
Qed.

(** C7.  A valid job with an effective timeout [t] whose execution takes
    longer than [t] seconds (or never ends): the attempt of a started
    worker has outcome [timeout].  With a callback configured,
    [_consume_record] itself invokes it, once, after the wait, on exactly
    [("timeout", job, None, None, None, try_count)], and hands on its
    answer as the decision; without a callback nothing is invoked and the
    decision is [1]. *)
Theorem overrun_is_timeout :
  forall (self : Worker U) (p : Pool) (record : ConsumerRecord)
         (try_count : Z) (w : World U) (obj : PyVal) (j : Job) (t : Z),
    dill_loads E (value record) = inl obj ->
    check_job obj = Some j ->
    py_or (_timeout self) (job_timeout j) = Some t ->
    exceeds (fst (invoke E (job_func j) (job_args j) (job_kwargs j)
                    (w_ext w))) t = true ->
    let started := set_pool self p in
    let after :=
      mkWorld (snd (invoke E (job_func j) (job_args j) (job_kwargs j)
                      (w_ext w)))
              (w_trace w
               ++ [EvProcessing record; EvLoads (value record);
                   EvApplyAsync p (job_func j) (job_args j) (job_kwargs j);
                   EvGet t])
              (w_pools w) (w_producers w) (w_position w) in
    let run := _consume_record E started record try_count w in
    run = _exec_callback started "timeout" j VNone None None try_count after
    /\ match _callback self with
       | None =>
           run = (Done (VInt 1), after)
           /\ count is_callback (new_events w (snd run)) = 0%nat
       | Some cb =>
           let answer :=
             cb "timeout" j VNone None None try_count (w_ext after) in
           fst run
           = match fst answer with
             | inl v => Done (if is_None v then VInt 1 else v)
             | inr e => if is_Exception e then Done (VInt 1) else Raised e
             end
           /\ snd run
              = set_ext (snd answer)
                  (add_event
                     (EvCallback "timeout" j VNone None None try_count)
                     after)
           /\ new_events w (snd run)
              = [EvProcessing record; EvLoads (value record);
                 EvApplyAsync p (job_func j) (job_args j) (job_kwargs j);
                 EvGet t;
                 EvCallback "timeout" j VNone None None try_count]
       end
    /\ exists (rep : Reply) (w' : World U),
         observe_attempt E started record try_count w
         = Some (j, Timeout, rep, w')
         /\ match _callback self with
            | None => rep = NoCallback /\ w' = after
            | Some cb =>
                rep = match fst (cb "timeout" j VNone None None try_count
                                    (w_ext after)) with
                      | inl v => Replied v
                      | inr e => CallbackRaised e
                      end
                /\ w' = set_ext
                          (snd (cb "timeout" j VNone None None try_count
                                   (w_ext after)))
                          (add_event
                             (EvCallback "timeout" j VNone None None
                                         try_count) after)
            end.
Proof.
  intros self p record try_count w obj j t Hl Hc Heff Hex started after run.
  assert (Hrun : run_job E started j
                   (add_event (EvLoads (value record))
                      (add_event (EvProcessing record) w))
                 = (Raised mp_timeout_error, after)).
  { rewrite (run_job_pool started p j t _ Heff eq_refl). subst after.
    simpl.
    destruct (invoke E (job_func j) (job_args j) (job_kwargs j) (w_ext w))
      as [[d v | d e | ] u']; simpl in *.
    - apply Z.ltb_lt in Hex.
      destruct (d <=? t) eqn:Hd; [apply Z.leb_le in Hd; lia|].
      unfold add_event, set_ext; simpl; now repeat rewrite <- app_assoc.
    - apply Z.ltb_lt in Hex.
      destruct (d <=? t) eqn:Hd; [apply Z.leb_le in Hd; lia|].
      unfold add_event, set_ext; simpl; now repeat rewrite <- app_assoc.
    - unfold add_event, set_ext; simpl; now repeat rewrite <- app_assoc. }
  assert (Heq : run = _exec_callback started "timeout" j VNone None None
                        try_count after).
  { subst run.
    rewrite (consume_record_valid started record try_count w obj j Hl Hc).
    cbv zeta. rewrite Hrun. reflexivity. }
  split; [exact Heq|].
  split.
  - change (_callback self) with (_callback started).
    destruct (_callback started) as [cb|] eqn:Hcb.
    + cbv zeta. rewrite Heq.
      rewrite (exec_callback_reply started cb _ _ _ _ _ _ _ Hcb).
      destruct (cb "timeout" j VNone None None try_count (w_ext after))
        as [[v | e] u']; cbn [fst snd decision].
      * split; [reflexivity|]. split; [reflexivity|].
        apply new_events_app. subst after. simpl.
        now rewrite <- app_assoc.
      * split; [reflexivity|]. split; [reflexivity|].
        apply new_events_app. subst after. simpl.
        now rewrite <- app_assoc.
    + rewrite Heq.
      rewrite (exec_callback_no_callback started _ _ _ _ _ _ _ Hcb).
      split; [reflexivity|]. cbn [snd].
      assert (Hev : new_events w after
                    = [EvProcessing record; EvLoads (value record);
                       EvApplyAsync p (job_func j) (job_args j)
                                    (job_kwargs j);
                       EvGet t]).
      { apply new_events_app. reflexivity. }
      rewrite Hev. reflexivity.
  - unfold observe_attempt. rewrite Hl, Hc, Hrun. simpl outcome_of.
    cbv iota. change (_callback started) with (_callback self).
    destruct (_callback self) as [cb|].
    + simpl status_of. simpl result_of. simpl exception_of.
      simpl traceback_of.
      destruct (cb "timeout" j VNone None None try_count (w_ext after))
        as [r u'] eqn:Hcb.
      eexists _, _. split; [reflexivity|]. cbn [fst snd]. auto.
    + eexists _, _. split; [reflexivity|]. auto.
Qed.

End Properties.


(* ================================================================== *)
(** * The properties on the concrete environment *)
(* ================================================================== *)

(** A job that succeeds, on a worker without callback: the default
    decision commits. *)
Lemma default_decision_is_commit_demo :
  observe_attempt (Demo.env true) (Demo.worker None None) Demo.rec_add 0
                  Demo.w0
  = Some (Demo.job_add, Success (VInt 5), NoCallback, Demo.after_add)
  /\ attempts (Demo.env true) 1 (Demo.worker None None) Demo.rec_add
              (VInt 0) 0 Demo.w0
     = (Done (VInt 1), Demo.after_add)
  /\ conclude (Demo.env true) (Demo.worker None None) Demo.rec_add (VInt 1)
              Demo.after_add
     = (Done tt, add_event (EvCommit None) Demo.after_add).
Proof.
  split; [reflexivity|].
  destruct (default_decision_is_commit nat (Demo.env true)
              (Demo.worker None None) Demo.rec_add 0 Demo.w0 Demo.after_add
              Demo.job_add (Success (VInt 5)) NoCallback 0%nat
              eq_refl (or_introl eq_refl))
    as (_ & _ & Hloop & Hcommit).
  split; [exact Hloop | exact Hcommit].
Defined.

(** A payload that does not unpickle. *)
Lemma malformed_record_is_dead_lettered_demo :
  Demo.demo_loads (value Demo.rec_junk) = inr Demo.unpickling_error
  /\ fst (_consume_record (Demo.env true) (Demo.worker None None)
            Demo.rec_junk 0 Demo.w0) = Done (VInt (-1))
  /\ new_events Demo.w0
       (snd (_consume_record (Demo.env true) (Demo.worker None None)
               Demo.rec_junk 0 Demo.w0))
     = [EvProcessing Demo.rec_junk; EvLoads (value Demo.rec_junk)].
Proof.
  split; [reflexivity|].
  destruct (malformed_record_is_dead_lettered nat (Demo.env true)
              (Demo.worker None None) Demo.rec_junk 0 Demo.w0
              (or_introl (ex_intro _ Demo.unpickling_error eq_refl)))
    as (Hres & _ & Hev & _).
  split; [exact Hres | exact Hev].
Defined.

(** A job that raises [ValueError] while the callback answers [7]: the
    position is committed all the same. *)
Lemma other_reply_is_commit_demo :
  observe_attempt (Demo.env true)
                  (Demo.worker None (Some (Demo.cb_const (VInt 7))))
                  Demo.rec_boom 0 Demo.w0
  = Some (Demo.job_boom, Failure Demo.value_error, Replied (VInt 7),
          Demo.after_boom)
  /\ is_None (VInt 7) = false
  /\ is_dead_letter (VInt 7) = false
  /\ is_retry (VInt 7) = false
  /\ attempts (Demo.env true) 1
              (Demo.worker None (Some (Demo.cb_const (VInt 7))))
              Demo.rec_boom (VInt 0) 0 Demo.w0
     = (Done (VInt 7), Demo.after_boom)
  /\ conclude (Demo.env true)
              (Demo.worker None (Some (Demo.cb_const (VInt 7))))
              Demo.rec_boom (VInt 7) Demo.after_boom
     = (Done tt, add_event (EvCommit None) Demo.after_boom).
Proof.
  do 4 (split; [reflexivity|]).
  exact (other_reply_is_commit nat (Demo.env true)
           (Demo.worker None (Some (Demo.cb_const (VInt 7))))
           Demo.rec_boom 0 Demo.w0 Demo.after_boom Demo.job_boom
           (Failure Demo.value_error) (VInt 7) 0%nat
           eq_refl eq_refl eq_refl eq_refl).
Defined.

(** C5, as stated, fails: the answer [0] is neither [None] nor the
    dead-letter sentinel, and the loop does not end on it. *)
Lemma retry_reply_does_not_end_loop :
  ~ non_sentinel_reply_ends_loop (Demo.env true).
Proof.
  intros H.
  assert (Hobs : exists (j : Job) (o : Outcome) (w' : World nat),
             observe_attempt (Demo.env true)
               (Demo.worker None (Some (Demo.cb_const (VInt 0))))
               Demo.rec_add 0 Demo.w0
             = Some (j, o, Replied (VInt 0), w')).
  { do 3 eexists. reflexivity. }
  destruct Hobs as (j & o & w' & Hobs).
  specialize (H _ _ _ _ _ _ _ _ 0%nat Hobs eq_refl eq_refl).
  vm_compute in H. discriminate H.
Qed.

(** Two retries, then a commit: three attempts and one commit. *)
Lemma retries_then_commit_demo :
  exists w' : World nat,
    (1 <= 3)%nat
    /\ retry_run (Demo.env true) 3
         (set_pool (Demo.worker None (Some (Demo.cb_retry 3))) Demo.pool0)
         Demo.rec_add 0 (snd (consumer_next Demo.rec_add Demo.w0))
       = Some w'
    /\ (3 <= 5)%nat
    /\ start_record (Demo.env true) 5
         (set_pool (Demo.worker None (Some (Demo.cb_retry 3))) Demo.pool0)
         Demo.rec_add Demo.w0
       = (Done tt, add_event (EvCommit (Some (0, 42))) w')
    /\ count is_callback (new_events Demo.w0 w') = 3%nat.
Proof.
  eexists. split; [lia|]. split; [vm_compute; reflexivity|].
  split; [lia|].
  destruct (retries_then_commit nat (Demo.env true) 3
              (Demo.worker None (Some (Demo.cb_retry 3))) Demo.pool0
              Demo.rec_add Demo.w0 _ 5%nat
              ltac:(lia) eq_refl ltac:(lia))
    as (evs & Hrun & _).
  split; [exact Hrun | reflexivity].
Defined.

(** A payload that does not unpickle and a broker that does not
    acknowledge the forward: nothing is committed. *)
Lemma dead_letter_commits_iff_forwarded_demo :
  attempts (Demo.env false) 1 (Demo.worker None None) Demo.rec_junk (VInt 0)
           0 (snd (consumer_next Demo.rec_junk Demo.w0))
  = (Done (VInt (-1)), Demo.after_junk)
  /\ is_dead_letter (VInt (-1)) = true
  /\ forwarded (fst (_fail_record (Demo.env false) (Demo.worker None None)
                       Demo.rec_junk Demo.after_junk)) = false
  /\ count is_commit_event
       (new_events Demo.after_junk
          (snd (start_record (Demo.env false) 1 (Demo.worker None None)
                  Demo.rec_junk Demo.w0)))
     = 0%nat.
Proof.
  do 3 (split; [reflexivity|]).
  destruct (dead_letter_commits_iff_forwarded nat (Demo.env false) 1
              (Demo.worker None None) Demo.rec_junk Demo.w0 Demo.after_junk
              (VInt (-1)) eq_refl eq_refl)
    as (_ & _ & _ & Hcount).
  exact Hcount.
Defined.

(** The same payload with a broker that acknowledges: one commit, after
    the forward. *)
Example dead_letter_forwarded_then_committed :
  new_events Demo.after_junk
    (snd (start_record (Demo.env true) 1 (Demo.worker None None)
            Demo.rec_junk Demo.w0))
  = [EvQueue (forward_config (Demo.worker None None));
     EvProducer 0 (forward_config (Demo.worker None None));
     EvLoads (value Demo.rec_junk);
     EvSend 0 "jobs.failed" (value Demo.rec_junk) None;
     EvFutureGet 5;
     EvCommit (Some (0, 46))].
Proof. reflexivity. Qed.

(** The job of [rec_sleep] declares a timeout of one second and the worker
    none: the call goes to the pool and is awaited for one second. *)
Lemma effective_timeout_selects_execution_demo :
  py_or (_timeout (set_pool (Demo.worker None None) Demo.pool0))
        (job_timeout Demo.job_sleep) = Some 1
  /\ new_events Demo.w0
       (snd (run_job (Demo.env true)
               (set_pool (Demo.worker None None) Demo.pool0)
               Demo.job_sleep Demo.w0))
     = [EvApplyAsync Demo.pool0 (job_func Demo.job_sleep)
                     (job_args Demo.job_sleep) (job_kwargs Demo.job_sleep);
        EvGet 1]
  /\ fst (run_job (Demo.env true)
            (set_pool (Demo.worker None None) Demo.pool0)
            Demo.job_sleep Demo.w0)
     = Raised mp_timeout_error.
Proof.
  split; [reflexivity|].
  destruct (effective_timeout_selects_execution nat (Demo.env true) 1
              (Demo.worker None None) [] Demo.job_sleep Demo.w0 Demo.w0)
    as (_ & _ & Hpool & _).
  exact (Hpool 1 eq_refl).
Defined.

(** C6, as stated, fails: a worker configured with the timeout [0] runs
    a job that declares one second under the job's timeout, not its own. *)
Lemma zero_worker_timeout_is_ignored :
  spec_effective_timeout (_timeout (Demo.worker (Some 0) None))
                         (job_timeout Demo.job_sleep) = Some 0
  /\ py_or (_timeout (Demo.worker (Some 0) None))
           (job_timeout Demo.job_sleep)
     <> spec_effective_timeout (_timeout (Demo.worker (Some 0) None))
                               (job_timeout Demo.job_sleep)
  /\ new_events Demo.w0
       (snd (run_job (Demo.env true)
               (set_pool (Demo.worker (Some 0) None) Demo.pool0)
               Demo.job_sleep Demo.w0))
     = [EvApplyAsync Demo.pool0 (job_func Demo.job_sleep)
                     (job_args Demo.job_sleep) (job_kwargs Demo.job_sleep);
        EvGet 1].
Proof.
  split; [reflexivity|]. split; [discriminate|]. reflexivity.
Qed.

(** The job of [rec_sleep] sleeps ten seconds under a timeout of one. *)
Lemma overrun_is_timeout_demo :
  Demo.demo_loads (value Demo.rec_sleep) = inl (VJob Demo.job_sleep)
  /\ check_job (VJob Demo.job_sleep) = Some Demo.job_sleep
  /\ py_or (_timeout (Demo.worker None (Some (Demo.cb_const (VInt 1)))))
           (job_timeout Demo.job_sleep) = Some 1
  /\ exceeds (fst (Demo.demo_invoke (job_func Demo.job_sleep)
                     (job_args Demo.job_sleep) (job_kwargs Demo.job_sleep)
                     0%nat)) 1 = true
  /\ new_events Demo.w0
       (snd (_consume_record (Demo.env true)
               (set_pool (Demo.worker None (Some (Demo.cb_const (VInt 1))))
                         Demo.pool0)
               Demo.rec_sleep 0 Demo.w0))
     = [EvProcessing Demo.rec_sleep; EvLoads (value Demo.rec_sleep);
        EvApplyAsync Demo.pool0 (job_func Demo.job_sleep)
                     (job_args Demo.job_sleep) (job_kwargs Demo.job_sleep);
        EvGet 1;
        EvCallback "timeout" Demo.job_sleep VNone None None 0]
  /\ exists (rep : Reply) (w' : World nat),
       observe_attempt (Demo.env true)
         (set_pool (Demo.worker None (Some (Demo.cb_const (VInt 1))))
                   Demo.pool0)
         Demo.rec_sleep 0 Demo.w0
       = Some (Demo.job_sleep, Timeout, rep, w')
       /\ rep = Replied (VInt 1)
       /\ count is_callback (new_events Demo.w0 w') = 1%nat.
Proof.
  do 4 (split; [reflexivity|]).
  destruct (overrun_is_timeout nat (Demo.env true)
              (Demo.worker None (Some (Demo.cb_const (VInt 1)))) Demo.pool0
              Demo.rec_sleep 0 Demo.w0 (VJob Demo.job_sleep) Demo.job_sleep 1
              eq_refl eq_refl eq_refl eq_refl)
    as (_ & (_ & _ & Hev) & rep & w' & Hobs & Hrep & Hw).
  split; [exact Hev|].
  exists rep, w'. split; [exact Hobs|].
  split; [exact Hrep|]. rewrite Hw. reflexivity.
Defined.

(** The forward of [rec_add]: its own bytes, to [jobs.failed], under the
    key of the job. *)
Lemma forward_is_verbatim_demo :
  fst (queue_connect (Demo.env true)
         (forward_config (Demo.worker None None)) (w_ext Demo.w0)) = None
  /\ exists (k : option bytes) (rest : list Event),
       new_events Demo.w0
         (snd (_fail_record (Demo.env true) (Demo.worker None None)
                 Demo.rec_add Demo.w0))
       = [EvQueue (forward_config (Demo.worker None None));
          EvProducer 0 (forward_config (Demo.worker None None));
          EvLoads (value Demo.rec_add);
          EvSend 0 "jobs.failed" (value Demo.rec_add) k] ++ rest
       /\ k = Some [x6b].
Proof.
  split; [reflexivity|].
  destruct (forward_is_verbatim nat (Demo.env true) (Demo.worker None None)
              Demo.rec_add Demo.w0 eq_refl)
    as (k & rest & Hev & _ & _ & Hkey & _).
  exists k, rest. split; [exact Hev|].
  exact (Hkey Demo.job_add eq_refl).
Defined.


(** Three attempts on one record: the callback sees the try counts 0, 1
    and 2. *)
Example try_counts_of_three_attempts :
  attempt_tries 0
    (new_events Demo.w0
       (snd (start_record (Demo.env true) 5
               (Demo.worker None (Some (Demo.cb_retry 3))) Demo.rec_add
               Demo.w0)))
  = [(1%nat, 0); (2%nat, 1); (3%nat, 2)].
Proof. reflexivity. Qed.

(* ================================================================== *)
(** * The host list *)
(* ================================================================== *)

Lemma split_not_nil (c : ascii) (s : string) : split c s <> [].
Proof.
  destruct s as [|a rest]; simpl; [discriminate|].
  destruct (Ascii.eqb a c); [discriminate|].
  destruct (split c rest); discriminate.
Qed.

Lemma join_cons (sep piece : string) (pieces : list string) :
  pieces <> [] ->
  join sep (piece :: pieces) = (piece ++ sep ++ join sep pieces)%string.
Proof. destruct pieces; [now intros H|reflexivity]. Qed.

Lemma join_split (c : ascii) (s : string) :
  join (String c EmptyString) (split c s) = s.
Proof.
  induction s as [|a rest IH]; [reflexivity|].
  simpl split. destruct (Ascii.eqb a c) eqn:Hac.
  - apply Ascii.eqb_eq in Hac. subst a.
    rewrite join_cons by apply split_not_nil.
    simpl. now rewrite IH.
  - pose proof (split_not_nil c rest) as Hne.
    destruct (split c rest) as [|piece pieces]; [now destruct Hne|].
    destruct pieces as [|p2 ps].
    + simpl in *. now rewrite IH.
    + change (String a (join (String c EmptyString) (piece :: p2 :: ps))
              = String a rest).
      now rewrite IH.
Qed.

Lemma split_length (c : ascii) (s : string) :
  List.length (split c s) = S (occurrences c s).
Proof.
  induction s as [|a rest IH]; [reflexivity|].
  simpl. destruct (Ascii.eqb a c).
  - simpl. now rewrite IH.
  - destruct (split c rest); simpl in *; [discriminate|exact IH].
Qed.

Lemma split_pieces_clean (c : ascii) (s : string) :
  Forall (fun piece => occurrences c piece = 0%nat) (split c s).
Proof.
  induction s as [|a rest IH]; [repeat constructor|].
  simpl. destruct (Ascii.eqb a c) eqn:Hac.
  - constructor; [reflexivity | exact IH].
  - destruct (split c rest) as [|piece pieces].
    + constructor; [|constructor]. simpl. now rewrite Hac.
    + inversion IH as [|? ? Hp Hps]; subst.
      constructor; [|exact Hps]. simpl. now rewrite Hac.
Qed.

Lemma split_clean (c : ascii) (s : string) :
  occurrences c s = 0%nat -> split c s = [s].
Proof.
  induction s as [|a rest IH]; [reflexivity|].
  simpl. destruct (Ascii.eqb a c); [discriminate|].
  intros H. now rewrite (IH H).
Qed.

Lemma split_app_sep (c : ascii) (piece rest : string) :
  occurrences c piece = 0%nat ->
  split c (piece ++ String c rest) = piece :: split c rest.
Proof.
  induction piece as [|a piece IH]; simpl.
  - intros _. now rewrite Ascii.eqb_refl.
  - destruct (Ascii.eqb a c); [discriminate|].
    intros H. now rewrite (IH H).
Qed.

Lemma split_join (c : ascii) (pieces : list string) :
  pieces <> [] ->
  Forall (fun piece => occurrences c piece = 0%nat) pieces ->
  split c (join (String c EmptyString) pieces) = pieces.
Proof.
  induction pieces as [|piece rest IH]; [now intros H|].
  intros _ Hall. inversion Hall as [|? ? Hp Hrest]; subst.
  destruct rest as [|p2 ps].
  - simpl. now apply split_clean.
  - change (split c (piece ++ String c
                               (join (String c EmptyString) (p2 :: ps)))
            = piece :: p2 :: ps).
    rewrite split_app_sep by exact Hp.
    rewrite IH; [reflexivity | discriminate | exact Hrest].
Qed.

Section Hosts.

Variable U : Type.

(** X1.  The host list loses nothing: joined with commas again it is the
    configured string. *)
Theorem hosts_join (self : Worker U) :
  join "," (hosts self) = _hosts self.
Proof. apply join_split. Qed.

(** X2.  The host list is never empty: it has one entry more than the
    configured string has commas, and no entry contains a comma; an empty
    string gives the one entry [""], not an empty list. *)
Theorem hosts_pieces (self : Worker U) :
  hosts self <> []
  /\ List.length (hosts self) = S (occurrences ","%char (_hosts self))
  /\ Forall (fun h => occurrences ","%char h = 0%nat) (hosts self)
  /\ (_hosts self = EmptyString -> hosts self = [EmptyString]).
Proof.
  unfold hosts. split; [apply split_not_nil|].
  split; [apply split_length|].
  split; [apply split_pieces_clean|].
  intros ->. reflexivity.
Qed.

(** X3.  A worker configured with the comma-joined form of a non-empty
    list of comma-free host names reports exactly that list. *)
Theorem hosts_of_joined (self : Worker U) (names : list string) :
  names <> [] ->
  Forall (fun h => occurrences ","%char h = 0%nat) names ->
  _hosts self = join "," names ->
  hosts self = names.
Proof.
  intros Hne Hclean Heq. unfold hosts. rewrite Heq.
  now apply split_join.
Qed.

End Hosts.

(* ================================================================== *)
(** * Configuration *)
(* ================================================================== *)

Section Configuration.

Variable U : Type.

(** X4.  For a worker constructed with a connection timeout that is absent
    or not negative: the connection timeout in force is positive ([0] and
    [None] stand for 5 seconds), the forwarder never waits zero seconds for
    an acknowledgement, and both that wait and a worker-level job timeout
    end before the consumer's session timeout does; without a worker-level
    timeout the session timeout is 30 seconds whatever else is
    configured. *)
Theorem session_outlasts_waits :
  forall (hosts0 topic0 : string) (timeout connect_timeout : option Z)
         (callback : option (Callback U)) (job_size : Z)
         (cafile certfile keyfile crlfile : option string),
    (forall c : Z, connect_timeout = Some c -> 0 <= c) ->
    let self := Worker_init hosts0 topic0 timeout connect_timeout callback
                            job_size cafile certfile keyfile crlfile in
    0 < _connect_timeout self
    /\ ack_wait self <> 0
    /\ 1000 * ack_wait self < _session_timeout_ms self
    /\ (truthy timeout = true ->
        forall (j : Job) (t : Z),
          py_or (_timeout self) (job_timeout j) = Some t ->
          1000 * t < _session_timeout_ms self)
    /\ (truthy timeout = false ->
        c_session_timeout_ms (consumer_config self) = 30000).
Proof.
  intros hosts0 topic0 timeout connect_timeout callback job_size cafile
         certfile keyfile crlfile Hc self.
  assert (Hct : 0 < _connect_timeout self).
  { subst self. simpl. unfold py_or_default, py_or, truthy.
    destruct connect_timeout as [c|]; [|lia].
    specialize (Hc c eq_refl).
    destruct (c =? 0) eqn:Hz; simpl; [lia|].
    apply Z.eqb_neq in Hz. lia. }
  assert (Hself : _timeout self = timeout) by reflexivity.
  clearbody self.
  unfold ack_wait, consumer_config, _session_timeout_ms, py_or_default,
    py_or. rewrite Hself.
  destruct timeout as [t|]; cbn -[Z.mul Z.add].
  - destruct (t =? 0) eqn:Hz; cbn -[Z.mul Z.add].
    + repeat split; try lia; discriminate.
    + apply Z.eqb_neq in Hz.
      repeat split; try lia; try discriminate.
      intros _ j t' Ht. injection Ht as <-. lia.
  - repeat split; try lia; try discriminate.
Qed.

End Configuration.

(* ================================================================== *)
(** * More on the forwarder and the loop *)
(* ================================================================== *)

Section Behaviour.

Variable U : Type.
Variable E : Env U.

(** X5.  The forward returns [True] exactly when the queue connects, the
    send is accepted and the acknowledgement arrives; it returns [False]
    exactly when queue and send succeed and the wait for the
    acknowledgement raises a [KafkaError] that carries a [message].  Only
    that wait is protected: an error of the constructor or of the send,
    [KafkaError] or not, comes out of [_fail_record] as it was raised. *)
Theorem forward_result :
  forall (self : Worker U) (record : ConsumerRecord) (w : World U),
    let c := queue_connect E (forward_config self) (w_ext w) in
    let s := producer_send E (w_producers w) (_get_fail_topic self)
               (value record) (recovered_key E record) (snd c) in
    let g := future_get E (ack_wait self) (snd s) in
    let r := fst (_fail_record E self record w) in
    (r = Done true <-> fst c = None /\ fst s = None /\ fst g = None)
    /\ (r = Done false <->
        fst c = None /\ fst s = None
        /\ exists e : PyExc,
             fst g = Some e /\ is_KafkaError e = true
             /\ exc_message e <> None)
    /\ (forall e : PyExc, fst c = Some e -> r = Raised e)
    /\ (forall e : PyExc, fst c = None -> fst s = Some e -> r = Raised e).
Proof.
  intros self record w c s g r. subst r g s c.
  rewrite fail_record_steps. cbv zeta.
  unfold _get_fail_topic, ack_wait.
  destruct (queue_connect E (forward_config self) (w_ext w)) as [[ec|] u1];
    cbn [fst snd];
    [|destruct (producer_send E (w_producers w)
                  (_topic self ++ ".failed")%string (value record)
                  (recovered_key E record) u1) as [[es|] u2];
      cbn [fst snd];
      [|destruct (future_get E (py_or_default (_timeout self) 5) u2)
          as [[eg|] u3]; cbn [fst snd];
        [destruct (is_KafkaError eg) eqn:Hk;
         [destruct (exc_message eg) as [m|] eqn:Hm|]|]]];
    cbn [fst];
    repeat match goal with
           | |- _ /\ _ => split
           | |- _ <-> _ => split
           | |- forall _, _ => intro
           | H : _ /\ _ |- _ => destruct H
           | H : exists _, _ |- _ => destruct H
           end;
    try discriminate; try congruence; auto.
  exists eg. repeat split; auto. congruence.
Qed.

(** ** Every action is about the record in hand *)

Lemma execution_events_alphabet (self : Worker U) (record : ConsumerRecord)
    (j : Job) :
  dill_loads E (value record) = inl (VJob j) ->
  Forall (record_event E self record) (execution_events self j).
Proof.
  intros Hl. unfold execution_events.
  destruct (py_or (_timeout self) (job_timeout j)) as [t|] eqn:Ht;
    [destruct (_pool self) as [p|] eqn:Hp|]; repeat constructor;
    simpl; eauto 10.
Qed.

Lemma consume_record_alphabet (self : Worker U) (record : ConsumerRecord)
    (try_count : Z) (w : World U) :
  exists evs : list Event,
    w_trace (snd (_consume_record E self record try_count w))
    = w_trace w ++ evs
    /\ Forall (record_event E self record) evs.
Proof.
  set (w0 := add_event (EvLoads (value record))
               (add_event (EvProcessing record) w)).
  assert (Hw0 : w_trace w0
                = w_trace w ++ [EvProcessing record; EvLoads (value record)]).
  { subst w0. simpl. now rewrite <- app_assoc. }
  assert (Hhead : Forall (record_event E self record)
                    [EvProcessing record; EvLoads (value record)]).
  { repeat constructor. }
  assert (Hbad : _consume_record E self record try_count w
                 = (Done (VInt (-1)), w0) ->
                 exists evs : list Event,
                   w_trace (snd (_consume_record E self record try_count w))
                   = w_trace w ++ evs
                   /\ Forall (record_event E self record) evs).
  { intros ->. eexists. split; [exact Hw0 | exact Hhead]. }
  destruct (dill_loads E (value record)) as [obj | e] eqn:Hl.
  - destruct (check_job obj) as [j|] eqn:Hc.
    + rewrite (consume_record_valid U E self record try_count w obj j Hl Hc).
      cbv zeta. fold w0.
      apply check_job_Some in Hc as (-> & _).
      pose proof (run_job_frame U E self j w0) as Hf. cbv zeta in Hf.
      pose proof (execution_events_alphabet self record j Hl) as Hexec.
      destruct (run_job E self j w0) as [r w1]. cbn [snd] in Hf.
      destruct Hf as (Ht & _).
      assert (Hcb : forall st res e t,
                exists evs : list Event,
                  w_trace (snd (_exec_callback self st j res e t try_count w1))
                  = w_trace w ++ evs
                  /\ Forall (record_event E self record) evs).
      { intros st res e t.
        destruct (exec_callback_shape U self st j res e t try_count w1)
          as (cbs & Hcbs & Hform & _).
        exists ([EvProcessing record; EvLoads (value record)]
                ++ execution_events self j ++ cbs).
        split; [rewrite Hcbs, Ht, Hw0; now repeat rewrite <- app_assoc|].
        apply Forall_app. split; [exact Hhead|].
        apply Forall_app. split; [exact Hexec|].
        destruct Hform as [-> | ->]; repeat constructor. exact Hl. }
      assert (Hstop : forall x : Result PyVal,
                exists evs : list Event,
                  w_trace (snd (x, w1)) = w_trace w ++ evs
                  /\ Forall (record_event E self record) evs).
      { intros x.
        exists ([EvProcessing record; EvLoads (value record)]
                ++ execution_events self j).
        cbn [snd]. split; [rewrite Ht, Hw0; now rewrite <- app_assoc|].
        apply Forall_app. now split. }
      destruct r as [res | e | | ]; try apply Hstop; try apply Hcb.
      destruct (is_mp_TimeoutError e); [apply Hcb|].
      destruct (is_Exception e); [apply Hcb | apply Hstop].
    + apply Hbad. unfold _consume_record. unfold_ops. simpl.
      rewrite Hl. simpl. now rewrite Hc.
  - apply Hbad. unfold _consume_record. unfold_ops. simpl.
    now rewrite Hl.
Qed.

Lemma attempts_alphabet (self : Worker U) (record : ConsumerRecord) :
  forall (fuel : nat) (cc : PyVal) (try_count : Z) (w : World U),
  exists evs : list Event,
    w_trace (snd (attempts E fuel self record cc try_count w))
    = w_trace w ++ evs
    /\ Forall (record_event E self record) evs.
Proof.
  induction fuel as [|fuel IH]; intros cc try_count w.
  - exists []. simpl. destruct (py_eq_int cc 0); simpl;
      now rewrite app_nil_r.
  - destruct (is_retry cc) eqn:Hcc.
    + rewrite (attempts_step U E) by exact Hcc.
      destruct (consume_record_alphabet self record try_count w)
        as (evs1 & Ht1 & Hp1).
      destruct (_consume_record E self record try_count w)
        as [[cc' | e | | ] w1]; cbn [snd] in *;
        try (exists evs1; now split).
      destruct (IH cc' (try_count + 1) w1) as (evs2 & Ht2 & Hp2).
      exists (evs1 ++ evs2). split.
      * rewrite Ht2, Ht1. now rewrite app_assoc.
      * apply Forall_app. now split.
    + rewrite (attempts_stop U E) by exact Hcc.
      exists []. simpl. now rewrite app_nil_r.
Qed.

Lemma fail_record_alphabet (self : Worker U) (record : ConsumerRecord)
    (w : World U) :
  exists evs : list Event,
    w_trace (snd (_fail_record E self record w)) = w_trace w ++ evs
    /\ Forall (record_event E self record) evs
    /\ count is_commit_event evs = 0%nat.
Proof.
  pose proof (fail_record_shape U E self record w) as H. cbv zeta in H.
  destruct (queue_connect E (forward_config self) (w_ext w)) as [[e|] u1].
  - rewrite H. eexists. split; [reflexivity|].
    split; [repeat constructor | reflexivity].
  - destruct H as (rest & Ht & Hrest & _).
    eexists. split; [exact Ht|].
    destruct Hrest as [-> | ->];
      (split; [repeat constructor | reflexivity]).
Qed.
Lemma fetched_app (l1 l2 : list Event) :
  fetched (l1 ++ l2) = fetched l1 ++ fetched l2.
Proof.
  induction l1 as [|ev l1 IH]; [reflexivity|].
  destruct ev; simpl; rewrite IH; reflexivity.
Qed.

Lemma fetched_record_events (self : Worker U) (record : ConsumerRecord)
    (evs : list Event) :
  Forall (record_event E self record) evs -> fetched evs = [].
Proof.
  induction 1 as [|ev evs Hev _ IH]; [reflexivity|].
  destruct ev; simpl in *; try exact IH; contradiction.
Qed.

Lemma start_record_alphabet (fuel : nat) (self : Worker U)
    (record : ConsumerRecord) (w : World U) :
  exists evs : list Event,
    w_trace (snd (start_record E fuel self record w))
    = w_trace w ++ EvFetch record :: evs
    /\ Forall (record_event E self record) evs
    /\ (count is_commit_event evs <= 1)%nat.
Proof.
  rewrite (start_record_steps U E).
  destruct (attempts_alphabet self record fuel (VInt 0) 0
              (snd (consumer_next record w))) as (evsA & HtA & HaA).
  pose proof (attempts_shape U E self record fuel (VInt 0) 0%nat
                (snd (consumer_next record w))) as Hs.
  cbv zeta in Hs. change (Z.of_nat 0) with 0 in Hs.
  destruct Hs as (evsA' & m & HtA' & _ & HcA & _ & _ & HposA & _).
  assert (Heq : evsA' = evsA).
  { rewrite HtA in HtA'. now apply app_inv_head in HtA'. }
  subst evsA'.
  assert (Hfetch : w_trace (snd (consumer_next record w))
                   = w_trace w ++ [EvFetch record]) by reflexivity.
  assert (Hpos0 : w_position (snd (consumer_next record w))
                  = Some (partition record, offset record + 1))
    by reflexivity.
  assert (Hfin : forall (rest : list Event) (wfin : World U),
            w_trace wfin
            = w_trace (snd (attempts E fuel self record (VInt 0) 0
                              (snd (consumer_next record w)))) ++ rest ->
            Forall (record_event E self record) rest ->
            (count is_commit_event rest <= 1)%nat ->
            exists evs : list Event,
              w_trace wfin = w_trace w ++ EvFetch record :: evs
              /\ Forall (record_event E self record) evs
              /\ (count is_commit_event evs <= 1)%nat).
  { intros rest wfin Hw Hr Hc. exists (evsA ++ rest). split.
    - rewrite Hw, HtA, Hfetch. now repeat rewrite <- app_assoc.
    - split; [apply Forall_app; now split|].
      rewrite count_app, HcA. exact Hc. }
  destruct (attempts E fuel self record (VInt 0) 0
              (snd (consumer_next record w))) as [[cc | e | | ] w1];
    cbn [snd] in *;
    try (apply (Hfin []);
         [now rewrite app_nil_r | constructor | unfold count; simpl; lia]).
  rewrite (conclude_steps U E).
  assert (Hcommit : forall w2 : World U,
            w_position w2 = w_position w1 ->
            Forall (record_event E self record) [EvCommit (w_position w2)]).
  { intros w2 Hw2. repeat constructor. simpl.
    now rewrite Hw2, HposA, Hpos0. }
  destruct (is_dead_letter cc).
  - destruct (fail_record_alphabet self record w1) as (evsF & HtF & HaF & HcF).
    destruct (fail_record_summary U E self record w1)
      as (_ & _ & _ & _ & HposF & _).
    destruct (_fail_record E self record w1) as [[[|] | e | | ] w2];
      cbn [snd] in *;
      try (apply (Hfin evsF); [exact HtF | exact HaF | rewrite HcF; lia]).
    apply (Hfin (evsF ++ [EvCommit (w_position w2)])).
    + simpl. rewrite HtF. now rewrite <- app_assoc.
    + apply Forall_app. split; [exact HaF | now apply Hcommit].
    + rewrite count_app, HcF. unfold count. simpl. lia.
  - apply (Hfin [EvCommit (w_position w1)]); [reflexivity | |].
    + now apply Hcommit.
    + unfold count. simpl. lia.
Qed.

(** X6.  The handling of one record opens with its fetch; after that the
    worker only decodes that record's payload, runs and reports the job it
    holds, builds the dead-letter queue, sends that record's own bytes to
    [<topic>.failed] and commits that record's position, and it commits at
    most once. *)
Theorem record_handling_concerns_record :
  forall (fuel : nat) (self : Worker U) (record : ConsumerRecord)
         (w : World U),
    exists rest : list Event,
      new_events w (snd (start_record E fuel self record w))
      = EvFetch record :: rest
      /\ Forall (record_event E self record) rest
      /\ (count is_commit_event rest <= 1)%nat.
Proof.
  intros fuel self record w.
  destruct (start_record_alphabet fuel self record w) as (evs & Ht & Ha & Hc).
  exists evs. split; [now apply new_events_app|]. now split.
Qed.

Lemma for_records_order (fuel : nat) (self : Worker U) :
  forall (records : list ConsumerRecord) (w : World U),
    let run := for_records E fuel self records w in
    exists (evs : list Event) (k : nat),
      w_trace (snd run) = w_trace w ++ evs
      /\ fetched evs = firstn k records
      /\ (k <= List.length records)%nat
      /\ (count is_commit_event evs <= k)%nat
      /\ (fst run = Done tt -> k = List.length records)
      /\ Forall (fun ev =>
                   exists r : ConsumerRecord,
                     In r records
                     /\ (ev = EvFetch r \/ record_event E self r ev)) evs.
Proof.
  induction records as [|record rest IH]; intros w run; subst run.
  - exists [], 0%nat. simpl. rewrite app_nil_r.
    repeat split; auto.
  - rewrite (for_records_steps U E).
    destruct (start_record_alphabet fuel self record w)
      as (evs1 & Ht1 & Ha1 & Hc1).
    assert (Hone : forall x : Result unit,
              (forall u, x <> Done u) ->
              exists (evs : list Event) (k : nat),
                w_trace (snd (x, snd (start_record E fuel self record w)))
                = w_trace w ++ evs
                /\ fetched evs = firstn k (record :: rest)
                /\ (k <= List.length (record :: rest))%nat
                /\ (count is_commit_event evs <= k)%nat
                /\ (fst (x, snd (start_record E fuel self record w))
                    = Done tt -> k = List.length (record :: rest))
                /\ Forall (fun ev =>
                             exists r : ConsumerRecord,
                               In r (record :: rest)
                               /\ (ev = EvFetch r
                                   \/ record_event E self r ev)) evs).
    { intros x Hx. exists (EvFetch record :: evs1), 1%nat.
      cbn [snd fst]. split; [exact Ht1|].
      split; [simpl; now rewrite (fetched_record_events self record evs1 Ha1)|].
      split; [simpl; lia|].
      split; [unfold count in *; simpl; exact Hc1|].
      split; [intros H; now apply Hx in H|].
      constructor.
      - exists record. split; [now left | now left].
      - eapply Forall_impl; [|exact Ha1].
        intros ev Hev. exists record. split; [now left | now right]. }
    destruct (start_record E fuel self record w) as [[[] | e | | ] w1];
      cbn [snd] in *; try (apply Hone; discriminate).
    destruct (IH w1) as (evs2 & k & Ht2 & Hf2 & Hk2 & Hc2 & Hd2 & Ha2).
    exists ((EvFetch record :: evs1) ++ evs2), (S k).
    split; [rewrite Ht2, Ht1; now rewrite <- app_assoc|].
    split.
    { rewrite fetched_app. simpl.
      now rewrite (fetched_record_events self record evs1 Ha1), Hf2. }
    split; [simpl; lia|].
    split.
    { rewrite count_app.
      assert (count is_commit_event (EvFetch record :: evs1)
              = count is_commit_event evs1) by reflexivity.
      lia. }
    split; [intros H; simpl; f_equal; now apply Hd2|].
    apply Forall_app. split.
    + constructor.
      * exists record. split; [now left | now left].
      * eapply Forall_impl; [|exact Ha1].
        intros ev Hev. exists record. split; [now left | now right].
    + eapply Forall_impl; [|exact Ha2].
      intros ev (r & Hin & Hev). exists r. split; [now right | exact Hev].
Qed.

Lemma start_steps (fuel : nat) (self : Worker U)
    (records : list ConsumerRecord) (w : World U) :
  start E fuel self records w
  = let pool := mkPool (w_pools w) 1 in
    let w0 := mkWorld (w_ext w) (w_trace w ++ [EvPoolCreate pool])
                (S (w_pools w)) (w_producers w) (w_position w) in
    match for_records E fuel (set_pool self pool) records w0 with
    | (Done _, w1) => (Done tt, w1)
    | (Raised e, w1) =>
        if is_KeyboardInterrupt e
        then (Done tt, add_event (EvPoolTerminate pool) w1)
        else (Raised e, w1)
    | (Hung, w1) => (Hung, w1)
    | (OutOfFuel, w1) => (OutOfFuel, w1)
    end.
Proof.
  unfold start, bind, mp_Pool, try_except_else. cbv zeta.
  destruct (for_records E fuel _ records _) as [[[] | e | | ] w1];
    try reflexivity.
  destruct (is_KeyboardInterrupt e); reflexivity.
Qed.

Lemma fail_topic_differs (s : string) : (s ++ ".failed")%string <> s.
Proof.
  induction s as [|a s IH]; simpl; [discriminate|].
  intros H. injection H as H. now apply IH.
Qed.

(** X7.  [start] takes the records in the order the consumer delivers
    them, one after the other: the records fetched in a run are an initial
    segment of the delivered ones, all of them when [start] comes back
    without having been interrupted, and there are never more commits than
    fetched records. *)
Theorem start_takes_records_in_order :
  forall (fuel : nat) (self : Worker U) (records : list ConsumerRecord)
         (w : World U),
    let run := start E fuel self records w in
    let evs := new_events w (snd run) in
    exists k : nat,
      fetched evs = firstn k records
      /\ (k <= List.length records)%nat
      /\ (count is_commit_event evs <= k)%nat
      /\ (fst run = Done tt ->
          ~ In (EvPoolTerminate (mkPool (w_pools w) 1)) evs ->
          k = List.length records).
Proof.
  intros fuel self records w run evs. subst evs run.
  rewrite start_steps. cbv zeta.
  set (pool := mkPool (w_pools w) 1).
  set (w0 := mkWorld (w_ext w) (w_trace w ++ [EvPoolCreate pool])
               (S (w_pools w)) (w_producers w) (w_position w)).
  destruct (for_records_order fuel (set_pool self pool) records w0)
    as (evs & k & Ht & Hf & Hk & Hc & Hd & _).
  cbv zeta in Ht, Hd.
  assert (Hplain : forall (x : Result unit) (w1 : World U),
            w_trace w1 = w_trace w0 ++ evs ->
            (x = Done tt -> k = List.length records) ->
            exists k0 : nat,
              fetched (new_events w (snd (x, w1))) = firstn k0 records
              /\ (k0 <= List.length records)%nat
              /\ (count is_commit_event (new_events w (snd (x, w1))) <= k0)%nat
              /\ (fst (x, w1) = Done tt ->
                  ~ In (EvPoolTerminate pool) (new_events w (snd (x, w1))) ->
                  k0 = List.length records)).
  { intros x w1 Hw Hx. exists k. cbn [fst snd].
    assert (Hev : new_events w w1 = EvPoolCreate pool :: evs).
    { apply new_events_app. rewrite Hw. subst w0. simpl.
      now rewrite <- app_assoc. }
    rewrite Hev. simpl. repeat split; auto. }
  destruct (for_records E fuel (set_pool self pool) records w0)
    as [[[] | e | | ] w1]; cbn [fst snd] in *.
  - apply Hplain; auto.
  - destruct (is_KeyboardInterrupt e).
    + exists k. cbn [fst snd].
      assert (Hev : new_events w (add_event (EvPoolTerminate pool) w1)
                    = EvPoolCreate pool :: evs ++ [EvPoolTerminate pool]).
      { apply new_events_app. simpl. rewrite Ht. subst w0. simpl.
        now repeat rewrite <- app_assoc. }
      rewrite Hev. simpl. rewrite fetched_app. simpl. rewrite app_nil_r.
      split; [exact Hf|]. split; [exact Hk|].
      split.
      * change (count is_commit_event
                  (EvPoolCreate pool :: evs ++ [EvPoolTerminate pool]))
          with (count is_commit_event (evs ++ [EvPoolTerminate pool])).
        rewrite count_app. unfold count at 2. simpl. lia.
      * intros _ Hno. exfalso. apply Hno. right.
        apply in_or_app. right. now left.
    + apply Hplain; [exact Ht | discriminate].
  - apply Hplain; [exact Ht | discriminate].
  - apply Hplain; [exact Ht | discriminate].
Qed.

(** X8.  Whatever a run of [start] sends, it sends to [<topic>.failed],
    which is never the topic the worker consumes, and what it sends is the
    payload of one of the delivered records, unchanged, under the key that
    decoding that payload recovers. *)
Theorem sends_go_to_the_fail_topic :
  forall (fuel : nat) (self : Worker U) (records : list ConsumerRecord)
         (w : World U) (p : nat) (tpc : string) (payload : bytes)
         (k : option bytes),
    In (EvSend p tpc payload k)
       (new_events w (snd (start E fuel self records w))) ->
    tpc = _get_fail_topic self
    /\ tpc <> _topic self
    /\ exists r : ConsumerRecord,
         In r records /\ payload = value r /\ k = recovered_key E r.
Proof.
  intros fuel self records w p tpc payload k.
  rewrite start_steps. cbv zeta.
  set (pool := mkPool (w_pools w) 1).
  set (w0 := mkWorld (w_ext w) (w_trace w ++ [EvPoolCreate pool])
               (S (w_pools w)) (w_producers w) (w_position w)).
  destruct (for_records_order fuel (set_pool self pool) records w0)
    as (evs & n & Ht & _ & _ & _ & _ & Ha).
  cbv zeta in Ht.
  assert (Hin : In (EvSend p tpc payload k) evs ->
                tpc = _get_fail_topic self
                /\ tpc <> _topic self
                /\ exists r : ConsumerRecord,
                     In r records /\ payload = value r
                     /\ k = recovered_key E r).
  { intros H. rewrite Forall_forall in Ha.
    destruct (Ha _ H) as (r & Hr & [Hev | Hev]); [discriminate|].
    simpl in Hev. destruct Hev as (-> & -> & ->).
    split; [reflexivity|]. split; [apply fail_topic_differs|].
    exists r. auto. }
  assert (Hplain : forall (x : Result unit) (w1 : World U),
            w_trace w1 = w_trace w0 ++ evs ->
            In (EvSend p tpc payload k) (new_events w (snd (x, w1))) ->
            In (EvSend p tpc payload k) evs).
  { intros x w1 Hw. cbn [snd].
    assert (Hev : new_events w w1 = EvPoolCreate pool :: evs).
    { apply new_events_app. rewrite Hw. subst w0. simpl.
      now rewrite <- app_assoc. }
    rewrite Hev. intros [H | H]; [discriminate | exact H]. }
  destruct (for_records E fuel (set_pool self pool) records w0)
    as [[[] | e | | ] w1]; cbn [snd] in *;
    try (intros H; apply Hin; now apply (Hplain (Done tt) _ Ht H)).
  destruct (is_KeyboardInterrupt e);
    [|intros H; apply Hin; now apply (Hplain (Done tt) _ Ht H)].
  cbn [snd].
  assert (Hev : new_events w (add_event (EvPoolTerminate pool) w1)
                = EvPoolCreate pool :: evs ++ [EvPoolTerminate pool]).
  { apply new_events_app. simpl. rewrite Ht. subst w0. simpl.
    now repeat rewrite <- app_assoc. }
  rewrite Hev. intros [H | H]; [discriminate|].
  apply in_app_or in H as [H | [H | []]]; [now apply Hin | discriminate].
Qed.

(** ** Edge cases of an attempt *)

Lemma consume_record_undecodable (self : Worker U)
    (record : ConsumerRecord) (try_count : Z) (w : World U) (e : PyExc) :
  dill_loads E (value record) = inr e ->
  _consume_record E self record try_count w
  = (Done (VInt (-1)),
     add_event (EvLoads (value record)) (add_event (EvProcessing record) w)).
Proof.
  intros Hl. unfold _consume_record. unfold_ops. simpl. now rewrite Hl.
Qed.

Lemma consume_record_no_callback (self : Worker U)
    (record : ConsumerRecord) (try_count : Z) (w : World U) :
  _callback self = None ->
  let run := _consume_record E self record try_count w in
  exists exec : list Event,
    w_trace (snd run)
    = w_trace w ++ [EvProcessing record; EvLoads (value record)] ++ exec
    /\ (exec = [] \/ exists j : Job, exec = execution_events self j)
    /\ (forall v : PyVal, fst run = Done v -> is_retry v = false).
Proof.
  intros Hcb run. subst run.
  set (w0 := add_event (EvLoads (value record))
               (add_event (EvProcessing record) w)).
  assert (Hw0 : w_trace w0
                = w_trace w ++ [EvProcessing record; EvLoads (value record)]).
  { subst w0. simpl. now rewrite <- app_assoc. }
  assert (Hbad : _consume_record E self record try_count w
                 = (Done (VInt (-1)), w0) ->
                 exists exec : list Event,
                   w_trace (snd (_consume_record E self record try_count w))
                   = w_trace w
                     ++ [EvProcessing record; EvLoads (value record)] ++ exec
                   /\ (exec = []
                       \/ exists j : Job, exec = execution_events self j)
                   /\ (forall v : PyVal,
                          fst (_consume_record E self record try_count w)
                          = Done v -> is_retry v = false)).
  { intros ->. exists []. cbn [fst snd]. rewrite Hw0, app_nil_r.
    split; [reflexivity|]. split; [now left|].
    intros v Hv. injection Hv as <-. reflexivity. }
  destruct (dill_loads E (value record)) as [obj | e] eqn:Hl.
  - destruct (check_job obj) as [j|] eqn:Hc.
    + rewrite (consume_record_valid U E self record try_count w obj j Hl Hc).
      cbv zeta. fold w0.
      pose proof (run_job_frame U E self j w0) as Hf. cbv zeta in Hf.
      destruct (run_job E self j w0) as [r w1]. cbn [snd] in Hf.
      destruct Hf as (Ht & _).
      assert (Hany : forall x : Result PyVal,
                (forall v, x = Done v -> is_retry v = false) ->
                exists exec : list Event,
                  w_trace (snd (x, w1))
                  = w_trace w
                    ++ [EvProcessing record; EvLoads (value record)] ++ exec
                  /\ (exec = []
                      \/ exists j : Job, exec = execution_events self j)
                  /\ (forall v : PyVal,
                         fst (x, w1) = Done v -> is_retry v = false)).
      { intros x Hx. exists (execution_events self j). cbn [fst snd].
        split; [rewrite Ht, Hw0; now rewrite <- app_assoc|].
        split; [right; eauto | exact Hx]. }
      assert (Hone : forall v : PyVal,
                Done (VInt 1) = Done v -> is_retry v = false).
      { intros v Hv. injection Hv as <-. reflexivity. }
      destruct r as [res | e | | ];
        repeat rewrite (exec_callback_no_callback U self _ _ _ _ _ _ _ Hcb);
        try (apply Hany; first [exact Hone | discriminate]).
      destruct (is_mp_TimeoutError e);
        [|destruct (is_Exception e)];
        repeat rewrite (exec_callback_no_callback U self _ _ _ _ _ _ _ Hcb);
        apply Hany; first [exact Hone | discriminate].
    + apply Hbad. unfold _consume_record. unfold_ops. simpl.
      rewrite Hl. simpl. now rewrite Hc.
  - apply Hbad. now apply consume_record_undecodable with (e := e).
Qed.

Lemma run_job_has_fuel (self : Worker U) (j : Job) (w : World U) :
  fst (run_job E self j w) <> OutOfFuel.
Proof.
  unfold run_job.
  destruct (py_or (_timeout self) (job_timeout j)) as [t|];
    [destruct (_pool self) as [p|]|]; unfold_ops; simpl;
    try discriminate;
    destruct (invoke E (job_func j) (job_args j) (job_kwargs j) (w_ext w))
      as [[d v | d e | ] u']; simpl; try destruct (d <=? t); simpl;
      try destruct (is_Exception e); discriminate.
Qed.

(** X9.  Without a callback the worker never retries: however the
    attempt ends, the loop of [start] makes exactly one attempt per
    delivery, with at most one execution of the job. *)
Theorem no_callback_one_attempt :
  forall (fuel : nat) (self : Worker U) (record : ConsumerRecord)
         (try_count : Z) (w : World U),
    _callback self = None ->
    let loop := attempts E (S fuel) self record (VInt 0) try_count w in
    loop = _consume_record E self record try_count w
    /\ fst loop <> OutOfFuel
    /\ count is_processing (new_events w (snd loop)) = 1%nat
    /\ (count is_execution (new_events w (snd loop)) <= 1)%nat
    /\ count is_callback (new_events w (snd loop)) = 0%nat.
Proof.
  intros fuel self record try_count w Hcb loop.
  destruct (consume_record_no_callback self record try_count w Hcb)
    as (exec & Ht & Hexec & Hretry).
  cbv zeta in Ht, Hretry.
  assert (Hloop : loop = _consume_record E self record try_count w).
  { subst loop. rewrite (attempts_step U E) by reflexivity.
    destruct (_consume_record E self record try_count w)
      as [[v | e | | ] w1]; try reflexivity.
    apply (attempts_stop U E). now apply Hretry. }
  rewrite Hloop. split; [reflexivity|].
  split.
  { unfold _consume_record. unfold_ops. simpl.
    destruct (dill_loads E (value record)) as [obj | e]; simpl;
      [|discriminate].
    destruct (check_job obj) as [j|]; [|discriminate].
    unfold try_except_else.
    pose proof (run_job_has_fuel self j
                  {| w_ext := w_ext w;
                     w_trace := (w_trace w ++ [EvProcessing record])
                                ++ [EvLoads (value record)];
                     w_pools := w_pools w;
                     w_producers := w_producers w;
                     w_position := w_position w |}) as Hfuel.
    destruct (run_job E self j _) as [[res | e | | ] w1]; try discriminate.
    - unfold _exec_callback. rewrite Hcb. discriminate.
    - destruct (is_mp_TimeoutError e); [|destruct (is_Exception e)];
        unfold _exec_callback; try rewrite Hcb; discriminate.
    - now destruct Hfuel. }
  rewrite (new_events_app _ _ _ Ht).
  repeat rewrite count_app.
  destruct Hexec as [-> | [j ->]];
    [repeat split; unfold count; simpl; lia|].
  unfold execution_events.
  destruct (py_or (_timeout self) (job_timeout j));
    [destruct (_pool self)|]; repeat split; unfold count; simpl; lia.
Qed.

(** X10.  A job that runs without any timeout and itself raises
    [multiprocessing.TimeoutError] is reported as a timeout: the dispatch
    gets the status [timeout] and neither the exception nor a traceback. *)
Theorem inline_timeout_error_is_a_timeout :
  forall (self : Worker U) (record : ConsumerRecord) (try_count : Z)
         (w : World U) (obj : PyVal) (j : Job) (d : Z) (e : PyExc) (u' : U),
    dill_loads E (value record) = inl obj ->
    check_job obj = Some j ->
    py_or (_timeout self) (job_timeout j) = None ->
    invoke E (job_func j) (job_args j) (job_kwargs j) (w_ext w)
    = (Raises d e, u') ->
    is_mp_TimeoutError e = true ->
    _consume_record E self record try_count w
    = _exec_callback self "timeout" j VNone None None try_count
        (mkWorld u'
           (w_trace w
            ++ [EvProcessing record; EvLoads (value record);
                EvCall (job_func j) (job_args j) (job_kwargs j)])
           (w_pools w) (w_producers w) (w_position w)).
Proof.
  intros self record try_count w obj j d e u' Hl Hc Heff Hinv He.
  rewrite (consume_record_valid U E self record try_count w obj j Hl Hc).
  cbv zeta.
  destruct (run_job_inline U E self j
              (add_event (EvLoads (value record))
                 (add_event (EvProcessing record) w)) Heff) as [_ Hrun].
  rewrite Hrun. simpl w_ext. rewrite Hinv. cbn [fst snd]. rewrite He.
  unfold add_event, set_ext. simpl.
  now repeat rewrite <- app_assoc.
Qed.

(** X11.  On a worker that has no pool yet ([start] has not run), a job
    with an effective timeout is not executed at all: the missing pool
    shows as an [AttributeError], which is dispatched as a failure of the
    job. *)
Theorem no_pool_is_a_failure :
  forall (self : Worker U) (record : ConsumerRecord) (try_count : Z)
         (w : World U) (obj : PyVal) (j : Job) (t : Z),
    dill_loads E (value record) = inl obj ->
    check_job obj = Some j ->
    py_or (_timeout self) (job_timeout j) = Some t ->
    _pool self = None ->
    let err := attribute_error "apply_async" in
    _consume_record E self record try_count w
    = _exec_callback self "failure" j VNone (Some err)
        (Some (exc_trace err)) try_count
        (mkWorld (w_ext w)
           (w_trace w ++ [EvProcessing record; EvLoads (value record)])
           (w_pools w) (w_producers w) (w_position w)).
Proof.
  intros self record try_count w obj j t Hl Hc Heff Hp err.
  rewrite (consume_record_valid U E self record try_count w obj j Hl Hc).
  cbv zeta. unfold run_job. rewrite Heff, Hp.
  unfold apply_async, bind, raise. cbn [is_mp_TimeoutError is_Exception].
  simpl. unfold add_event. simpl.
  now repeat rewrite <- app_assoc.
Qed.

(** ** What escapes the loop *)

Lemma base_exception_is_no_timeout (e : PyExc) :
  is_Exception e = false -> is_mp_TimeoutError e = false.
Proof.
  unfold is_Exception, is_mp_TimeoutError.
  destruct (exc_class e); intros H; try discriminate; reflexivity.
Qed.

(** X12.  An exception outside [Exception] ([KeyboardInterrupt],
    [SystemExit]) raised by a job that runs in the worker's own process,
    that is without an effective timeout, is no outcome: no callback is
    invoked, nothing is committed and no further record is fetched.
    [start] absorbs a [KeyboardInterrupt], terminating its pool as its last
    action, and lets any other such exception through with the pool left
    running. *)
Theorem job_base_exception_stops_worker :
  forall (fuel : nat) (self : Worker U) (record : ConsumerRecord)
         (rest : list ConsumerRecord) (w : World U) (obj : PyVal)
         (j : Job) (d : Z) (e : PyExc) (u' : U),
    let pool := mkPool (w_pools w) 1 in
    let w1 :=
      mkWorld u'
              (w_trace w
               ++ [EvPoolCreate pool; EvFetch record; EvProcessing record;
                   EvLoads (value record);
                   EvCall (job_func j) (job_args j) (job_kwargs j)])
              (S (w_pools w)) (w_producers w)
              (Some (partition record, offset record + 1)) in
    dill_loads E (value record) = inl obj ->
    check_job obj = Some j ->
    py_or (_timeout self) (job_timeout j) = None ->
    invoke E (job_func j) (job_args j) (job_kwargs j) (w_ext w)
    = (Raises d e, u') ->
    is_Exception e = false ->
    start E (S fuel) self (record :: rest) w
    = (if is_KeyboardInterrupt e
       then (Done tt, add_event (EvPoolTerminate pool) w1)
       else (Raised e, w1)).
Proof.
  intros fuel self record rest w obj j d e u' pool w1 Hl Hc Heff Hinv He.
  rewrite start_steps. cbv zeta. fold pool.
  rewrite (for_records_steps U E), (start_record_steps U E).
  rewrite (attempts_step U E) by reflexivity.
  rewrite (consume_record_valid U E (set_pool self pool) record 0 _ obj j
             Hl Hc).
  cbv zeta.
  destruct (run_job_inline U E (set_pool self pool) j
              (add_event (EvLoads (value record))
                 (add_event (EvProcessing record)
                    (snd (consumer_next record
                            (mkWorld (w_ext w)
                               (w_trace w ++ [EvPoolCreate pool])
                               (S (w_pools w)) (w_producers w)
                               (w_position w)))))) Heff) as [_ Hrun].
  rewrite Hrun. simpl w_ext. rewrite Hinv. cbn [fst snd].
  rewrite (base_exception_is_no_timeout e He), He.
  replace (set_ext u' _) with w1.
  - destruct (is_KeyboardInterrupt e); reflexivity.
  - subst w1. unfold set_ext, add_event. simpl.
    now repeat rewrite <- app_assoc.
Qed.

(** X13.  A callback that raises an exception outside [Exception] is not
    shielded: the exception leaves the handling of the record, and nothing
    is committed for it. *)
Theorem callback_base_exception_escapes :
  forall (fuel : nat) (self : Worker U) (record : ConsumerRecord)
         (w w' : World U) (j : Job) (o : Outcome) (e : PyExc),
    observe_attempt E self record 0 (snd (consumer_next record w))
    = Some (j, o, CallbackRaised e, w') ->
    is_Exception e = false ->
    start_record E (S fuel) self record w = (Raised e, w')
    /\ count is_commit_event (new_events w w') = 0%nat
    /\ count is_callback (new_events w w') = 1%nat.
Proof.
  intros fuel self record w w' j o e Hobs He.
  pose proof (observe_attempt_consume U E _ _ _ _ _ _ _ _ Hobs) as Hc.
  unfold decision in Hc. rewrite He in Hc.
  split.
  - rewrite (start_record_steps U E).
    rewrite (attempts_step U E) by reflexivity. now rewrite Hc.
  - destruct (observe_attempt_frame U E _ _ _ _ _ _ _ _ Hobs) as (Ht & _).
    assert (Hcb : exists cb, _callback self = Some cb).
    { unfold observe_attempt in Hobs.
      destruct (dill_loads E (value record)) as [obj | e0]; [|discriminate].
      destruct (check_job obj) as [j0|]; [|discriminate].
      destruct (run_job E self j0 _) as [r w1].
      destruct (outcome_of r) as [o0|]; [|discriminate].
      destruct (_callback self) as [cb|]; [eauto | discriminate]. }
    destruct Hcb as [cb Hcb].
    assert (Hev : new_events w w'
                  = [EvFetch record]
                    ++ [EvProcessing record; EvLoads (value record)]
                    ++ execution_events self j
                    ++ dispatch_events self j o 0).
    { apply new_events_app. rewrite Ht. simpl.
      now repeat rewrite <- app_assoc. }
    rewrite Hev. unfold dispatch_events, execution_events. rewrite Hcb.
    destruct (py_or (_timeout self) (job_timeout j));
      [destruct (_pool self)|]; split; reflexivity.
Qed.

(** X14.  A dead-letter queue that cannot be built stops the worker: when
    the constructor of the queue raises while an undecodable record is
    being forwarded, nothing is sent or committed, no further record is
    fetched, and the exception leaves [start] (unless it is a
    [KeyboardInterrupt], which ends [start] as any interrupt does). *)
Theorem queue_failure_stops_worker :
  forall (fuel : nat) (self : Worker U) (record : ConsumerRecord)
         (rest : list ConsumerRecord) (w : World U) (e0 e : PyExc)
         (u1 : U),
    dill_loads E (value record) = inr e0 ->
    queue_connect E (forward_config self) (w_ext w) = (Some e, u1) ->
    let pool := mkPool (w_pools w) 1 in
    let wq :=
      mkWorld u1
              (w_trace w
               ++ [EvPoolCreate pool; EvFetch record; EvProcessing record;
                   EvLoads (value record); EvQueue (forward_config self)])
              (S (w_pools w)) (w_producers w)
              (Some (partition record, offset record + 1)) in
    start E (S fuel) self (record :: rest) w
    = (if is_KeyboardInterrupt e
       then (Done tt, add_event (EvPoolTerminate pool) wq)
       else (Raised e, wq)).
Proof.
  intros fuel self record rest w e0 e u1 Hl Hq pool wq.
  rewrite start_steps. cbv zeta. fold pool.
  rewrite (for_records_steps U E), (start_record_steps U E).
  rewrite (attempts_step U E) by reflexivity.
  rewrite (consume_record_undecodable (set_pool self pool) record 0 _ e0 Hl).
  rewrite (attempts_stop U E) by reflexivity.
  rewrite (conclude_steps U E).
  change (is_dead_letter (VInt (-1))) with true. cbv iota.
  rewrite (fail_record_steps U E). cbv zeta.
  change (forward_config (set_pool self pool)) with (forward_config self).
  cbn [consumer_next snd add_event w_ext]. rewrite Hq.
  replace (set_ext u1 _) with wq.
  - destruct (is_KeyboardInterrupt e); reflexivity.
  - subst wq. unfold set_ext, add_event. simpl.
    now repeat rewrite <- app_assoc.
Qed.

(** X15.  While the loop of [start] retries a record, however often, it
    commits nothing, sends nothing, builds no producer and leaves the
    consumer's position where it was. *)
Theorem retry_loop_is_silent :
  forall (fuel : nat) (self : Worker U) (record : ConsumerRecord)
         (cc : PyVal) (k : nat) (w : World U),
    let w' := snd (attempts E fuel self record cc (Z.of_nat k) w) in
    count is_commit_event (new_events w w') = 0%nat
    /\ send_producers (new_events w w') = []
    /\ built_producers (new_events w w') = []
    /\ w_position w' = w_position w
    /\ w_producers w' = w_producers w.
Proof.
  intros fuel self record cc k w w'.
  destruct (attempts_shape U E self record fuel cc k w)
    as (evs & m & Ht & _ & Hc & Hs & Hb & Hpos & Hprod & _).
  fold w' in Ht, Hpos, Hprod.
  rewrite (new_events_app _ _ _ Ht). auto.
Qed.

(** X16.  Finalising a worker never fails with an [Exception]: one raised
    while the consumer is closed is swallowed, and a worker whose consumer
    was never created is left alone. *)
Theorem del_swallows_exceptions :
  forall (has_consumer : bool) (close : U -> option PyExc * U)
         (w : World U),
    let run := __del__ has_consumer close w in
    (forall e : PyExc, fst run = Raised e -> is_Exception e = false)
    /\ (forall e : PyExc,
           has_consumer = true ->
           fst (close (w_ext w)) = Some e ->
           is_Exception e = true ->
           run = (Done tt, set_ext (snd (close (w_ext w))) w))
    /\ (has_consumer = false -> run = (Done tt, w))
    /\ w_trace (snd run) = w_trace w.
Proof.
  intros has_consumer close w run. subst run. unfold __del__.
  destruct has_consumer; [|repeat split; discriminate].
  unfold try_except_else.
  destruct (close (w_ext w)) as [[e|] u']; cbn [fst snd].
  - destruct (is_Exception e) eqn:He; cbn [fst snd].
    + repeat split; try discriminate.
    + repeat split; try discriminate.
      * intros e' H. injection H as <-. exact He.
      * intros e' _ H He'. injection H as <-.
        rewrite He in He'. discriminate.
  - repeat split; discriminate.
Qed.

(** X17.  The decision is compared with [==], under which booleans are
    numbers: a callback that answers [False] asks for a retry, exactly as
    [0] does, and one that answers [True] ends the loop with a commit. *)
Theorem boolean_reply :
  forall (fuel : nat) (self : Worker U) (record : ConsumerRecord)
         (try_count : Z) (w w' : World U) (j : Job) (o : Outcome)
         (b : bool),
    observe_attempt E self record try_count w
    = Some (j, o, Replied (VBool b), w') ->
    attempts E (S fuel) self record (VInt 0) try_count w
    = (if b then (Done (VBool true), w')
       else attempts E fuel self record (VInt 0) (try_count + 1) w')
    /\ (b = true ->
        conclude E self record (VBool true) w'
        = (Done tt, add_event (EvCommit (w_position w)) w')).
Proof.
  intros fuel self record try_count w w' j o b Hobs.
  pose proof (observe_attempt_consume U E _ _ _ _ _ _ _ _ Hobs) as Hc.
  unfold decision in Hc. cbn [is_None] in Hc.
  destruct (observe_attempt_frame U E _ _ _ _ _ _ _ _ Hobs)
    as (_ & Hpos & _).
  split.
  - rewrite (attempts_step U E) by reflexivity. rewrite Hc.
    destruct b.
    + now apply (attempts_stop U E).
    + destruct fuel; reflexivity.
  - intros ->. rewrite (conclude_commit U E) by reflexivity.
    now rewrite Hpos.
Qed.

End Behaviour.

(* ================================================================== *)
(** * These properties on the concrete environments *)
(* ================================================================== *)

(** The two hosts of the example in the class documentation. *)
Lemma hosts_of_joined_demo :
  ["host:7000"; "host:8000"] <> []
  /\ Forall (fun h => occurrences ","%char h = 0%nat)
            ["host:7000"; "host:8000"]
  /\ hosts (Worker_init (U := nat) "host:7000,host:8000" "foo" (Some 3600)
              None None 10000000 None None None None)
     = ["host:7000"; "host:8000"].
Proof.
  split; [discriminate|]. split; [repeat constructor|].
  apply (hosts_of_joined nat
           (Worker_init "host:7000,host:8000" "foo" (Some 3600) None None
                        10000000 None None None None)
           ["host:7000"; "host:8000"]);
    [discriminate | repeat constructor | reflexivity].
Defined.

(** A worker with a timeout of one hour and the default connection
    timeout: the session lasts 3605 seconds. *)
Lemma session_outlasts_waits_demo :
  (forall c : Z, @None Z = Some c -> 0 <= c)
  /\ 1000 * ack_wait (Worker_init (U := nat) "host:7000" "foo" (Some 3600)
                        None None 10000000 None None None None)
     < _session_timeout_ms
         (Worker_init (U := nat) "host:7000" "foo" (Some 3600) None None
                      10000000 None None None None)
  /\ _session_timeout_ms
       (Worker_init (U := nat) "host:7000" "foo" (Some 3600) None None
                    10000000 None None None None) = 3605000.
Proof.
  split; [discriminate|].
  destruct (session_outlasts_waits nat "host:7000" "foo" (Some 3600) None
              None 10000000 None None None None
              ltac:(discriminate))
    as (_ & _ & Hack & _).
  split; [exact Hack | reflexivity].
Defined.

(** The one send of a run over an undecodable record. *)
Lemma sends_go_to_the_fail_topic_demo :
  In (EvSend 0 "jobs.failed" (value Demo.rec_junk) None)
     (new_events Demo.w0
        (snd (start (Demo.env true) 1 (Demo.worker None None)
                [Demo.rec_junk] Demo.w0)))
  /\ "jobs.failed" <> _topic (Demo.worker None None)
  /\ exists r : ConsumerRecord,
       In r [Demo.rec_junk] /\ value Demo.rec_junk = value r
       /\ None = recovered_key (Demo.env true) r.
Proof.
  assert (Hin : In (EvSend 0 "jobs.failed" (value Demo.rec_junk) None)
                   (new_events Demo.w0
                      (snd (start (Demo.env true) 1 (Demo.worker None None)
                              [Demo.rec_junk] Demo.w0)))).
  { vm_compute. do 7 right. left. reflexivity. }
  split; [exact Hin|].
  destruct (sends_go_to_the_fail_topic nat (Demo.env true) 1
              (Demo.worker None None) [Demo.rec_junk] Demo.w0 0%nat
              "jobs.failed" (value Demo.rec_junk) None Hin)
    as (_ & Hne & Hr).
  split; [exact Hne | exact Hr].
Defined.

(** A worker without callback on a job that fails. *)
Lemma no_callback_one_attempt_demo :
  _callback (Demo.worker None None) = None
  /\ attempts (Demo.env true) 4 (Demo.worker None None) Demo.rec_boom
              (VInt 0) 0 Demo.w0
     = _consume_record (Demo.env true) (Demo.worker None None)
                       Demo.rec_boom 0 Demo.w0
  /\ count is_processing
       (new_events Demo.w0
          (snd (attempts (Demo.env true) 4 (Demo.worker None None)
                  Demo.rec_boom (VInt 0) 0 Demo.w0))) = 1%nat.
Proof.
  split; [reflexivity|].
  destruct (no_callback_one_attempt nat (Demo.env true) 3
              (Demo.worker None None) Demo.rec_boom 0 Demo.w0 eq_refl)
    as (Hloop & _ & Hcount & _).
  split; [exact Hloop | exact Hcount].
Defined.

(** A job without timeout that raises [multiprocessing.TimeoutError]. *)
Lemma inline_timeout_error_is_a_timeout_demo :
  Demo2.demo_loads (value Demo2.rec_mp) = inl (VJob Demo2.job_mp)
  /\ check_job (VJob Demo2.job_mp) = Some Demo2.job_mp
  /\ py_or (_timeout (Demo.worker None (Some (Demo.cb_const (VInt 1)))))
           (job_timeout Demo2.job_mp) = None
  /\ is_mp_TimeoutError mp_timeout_error = true
  /\ new_events Demo.w0
       (snd (_consume_record Demo2.env
               (Demo.worker None (Some (Demo.cb_const (VInt 1))))
               Demo2.rec_mp 0 Demo.w0))
     = [EvProcessing Demo2.rec_mp; EvLoads (value Demo2.rec_mp);
        EvCall (VFunc "mp_timeout") (VList []) (VDict []);
        EvCallback "timeout" Demo2.job_mp VNone None None 0].
Proof.
  do 4 (split; [reflexivity|]).
  rewrite (inline_timeout_error_is_a_timeout nat Demo2.env
             (Demo.worker None (Some (Demo.cb_const (VInt 1))))
             Demo2.rec_mp 0 Demo.w0 (VJob Demo2.job_mp) Demo2.job_mp 0
             mp_timeout_error 1%nat eq_refl eq_refl eq_refl eq_refl eq_refl).
  reflexivity.
Defined.

(** A job with a timeout on a worker that was never started. *)
Lemma no_pool_is_a_failure_demo :
  Demo.demo_loads (value Demo.rec_sleep) = inl (VJob Demo.job_sleep)
  /\ check_job (VJob Demo.job_sleep) = Some Demo.job_sleep
  /\ py_or (_timeout (Demo.worker None (Some (Demo.cb_const (VInt 1)))))
           (job_timeout Demo.job_sleep) = Some 1
  /\ _pool (Demo.worker None (Some (Demo.cb_const (VInt 1)))) = None
  /\ new_events Demo.w0
       (snd (_consume_record (Demo.env true)
               (Demo.worker None (Some (Demo.cb_const (VInt 1))))
               Demo.rec_sleep 0 Demo.w0))
     = [EvProcessing Demo.rec_sleep; EvLoads (value Demo.rec_sleep);
        EvCallback "failure" Demo.job_sleep VNone
                   (Some (attribute_error "apply_async"))
                   (Some (exc_trace (attribute_error "apply_async"))) 0].
Proof.
  do 4 (split; [reflexivity|]).
  rewrite (no_pool_is_a_failure nat (Demo.env true)
             (Demo.worker None (Some (Demo.cb_const (VInt 1))))
             Demo.rec_sleep 0 Demo.w0 (VJob Demo.job_sleep) Demo.job_sleep 1
             eq_refl eq_refl eq_refl eq_refl).
  reflexivity.
Defined.

(** A job that is interrupted: [start] comes back, the pool is terminated,
    the second record is never fetched. *)
Lemma job_base_exception_stops_worker_demo :
  Demo2.demo_loads (value Demo2.rec_interrupt)
  = inl (VJob Demo2.job_interrupt)
  /\ check_job (VJob Demo2.job_interrupt) = Some Demo2.job_interrupt
  /\ py_or (_timeout (Demo.worker None None))
           (job_timeout Demo2.job_interrupt) = None
  /\ Demo2.demo_invoke (VFunc "interrupt") (VList []) (VDict []) 0%nat
     = (Raises 0 Demo2.keyboard_interrupt, 1%nat)
  /\ is_Exception Demo2.keyboard_interrupt = false
  /\ start Demo2.env 1 (Demo.worker None None)
           [Demo2.rec_interrupt; Demo2.rec_mp] Demo.w0
     = (Done tt,
        mkWorld 1%nat
                [EvPoolCreate Demo.pool0; EvFetch Demo2.rec_interrupt;
                 EvProcessing Demo2.rec_interrupt;
                 EvLoads (value Demo2.rec_interrupt);
                 EvCall (VFunc "interrupt") (VList []) (VDict []);
                 EvPoolTerminate Demo.pool0]
                1%nat 0%nat (Some (0, 8))).
Proof.
  do 5 (split; [reflexivity|]).
  exact (job_base_exception_stops_worker nat Demo2.env 0
           (Demo.worker None None) Demo2.rec_interrupt [Demo2.rec_mp]
           Demo.w0 (VJob Demo2.job_interrupt) Demo2.job_interrupt 0
           Demo2.keyboard_interrupt 1%nat
           eq_refl eq_refl eq_refl eq_refl eq_refl).
Defined.

(** A callback that is interrupted. *)
Lemma callback_base_exception_escapes_demo :
  is_Exception Demo2.keyboard_interrupt = false
  /\ fst (start_record (Demo.env true) 1
            (Demo.worker None (Some Demo2.cb_interrupt)) Demo.rec_add
            Demo.w0)
     = Raised Demo2.keyboard_interrupt
  /\ count is_commit_event
       (new_events Demo.w0
          (snd (start_record (Demo.env true) 1
                  (Demo.worker None (Some Demo2.cb_interrupt)) Demo.rec_add
                  Demo.w0))) = 0%nat.
Proof.
  split; [reflexivity|].
  destruct (callback_base_exception_escapes nat (Demo.env true) 0
              (Demo.worker None (Some Demo2.cb_interrupt)) Demo.rec_add
              Demo.w0 _ Demo.job_add (Success (VInt 5))
              Demo2.keyboard_interrupt eq_refl eq_refl)
    as (Hrun & Hcommit & _).
  rewrite Hrun. split; [reflexivity | exact Hcommit].
Defined.

(** No broker for the dead-letter queue: the worker stops with the
    error. *)
Lemma queue_failure_stops_worker_demo :
  Demo2.demo_loads (value Demo.rec_junk) = inr Demo.unpickling_error
  /\ queue_connect Demo2.env (forward_config (Demo.worker None None))
                   (w_ext Demo.w0) = (Some Demo2.no_brokers, 0%nat)
  /\ fst (start Demo2.env 1 (Demo.worker None None)
            [Demo.rec_junk; Demo2.rec_mp] Demo.w0)
     = Raised Demo2.no_brokers
  /\ fetched (new_events Demo.w0
                (snd (start Demo2.env 1 (Demo.worker None None)
                        [Demo.rec_junk; Demo2.rec_mp] Demo.w0)))
     = [Demo.rec_junk].
Proof.
  do 2 (split; [reflexivity|]).
  rewrite (queue_failure_stops_worker nat Demo2.env 0 (Demo.worker None None)
             Demo.rec_junk [Demo2.rec_mp] Demo.w0 Demo.unpickling_error
             Demo2.no_brokers 0%nat eq_refl eq_refl).
  split; reflexivity.
Defined.

(** A callback that answers [False]: the record is tried again. *)
Lemma boolean_reply_demo :
  exists w' : World nat,
    observe_attempt (Demo.env true)
      (Demo.worker None (Some (Demo.cb_const (VBool false)))) Demo.rec_add 0
      Demo.w0
    = Some (Demo.job_add, Success (VInt 5), Replied (VBool false), w')
    /\ fst (attempts (Demo.env true) 3
              (Demo.worker None (Some (Demo.cb_const (VBool false))))
              Demo.rec_add (VInt 0) 0 Demo.w0)
       = OutOfFuel.
Proof.
  eexists. split; [reflexivity|].
  destruct (boolean_reply nat (Demo.env true) 2
              (Demo.worker None (Some (Demo.cb_const (VBool false))))
              Demo.rec_add 0 Demo.w0 _ Demo.job_add (Success (VInt 5)) false
              eq_refl)
    as (Hloop & _).
  rewrite Hloop. reflexivity.
Defined.

(** C1, as stated, fails: a callback that raises [KeyboardInterrupt] is not
    caught by [except Exception]; the exception leaves the attempt and the
    handling of the record, and nothing is committed. *)
Lemma interrupted_callback_is_not_caught :
  ~ callback_exception_commits (Demo.env true)
  /\ fst (_consume_record (Demo.env true)
            (Demo.worker None (Some Demo2.cb_interrupt)) Demo.rec_add 0
            Demo.w0)
     = Raised Demo2.keyboard_interrupt
  /\ fst (start_record (Demo.env true) 1
            (Demo.worker None (Some Demo2.cb_interrupt)) Demo.rec_add
            Demo.w0)
     = Raised Demo2.keyboard_interrupt
  /\ count is_commit_event
       (w_trace (snd (start_record (Demo.env true) 1
                        (Demo.worker None (Some Demo2.cb_interrupt))
                        Demo.rec_add Demo.w0))) = 0%nat.
Proof.
  split; [|repeat split; reflexivity].
  intros H.
  assert (Hobs : exists (j : Job) (o : Outcome) (w' : World nat),
             observe_attempt (Demo.env true)
               (Demo.worker None (Some Demo2.cb_interrupt)) Demo.rec_add 0
               Demo.w0
             = Some (j, o, CallbackRaised Demo2.keyboard_interrupt, w')).
  { do 3 eexists. reflexivity. }
  destruct Hobs as (j & o & w' & Hobs).
  specialize (H _ _ _ _ _ _ _ _ Hobs).
  vm_compute in H. discriminate H.
Qed.

(** Three attempts on one record, each answered by the callback. *)
Lemma try_count_counts_attempts_demo :
  exists w' : World nat,
    observed_attempts (Demo.env true) 3
      (Demo.worker None (Some (Demo.cb_retry 3))) Demo.rec_add 0
      (snd (consumer_next Demo.rec_add Demo.w0))
    = Some w'
    /\ (3 <= 5)%nat
    /\ firstn 3
         (attempt_tries 0
            (new_events Demo.w0
               (snd (start_record (Demo.env true) 5
                       (Demo.worker None (Some (Demo.cb_retry 3)))
                       Demo.rec_add Demo.w0))))
       = [(1%nat, 0); (2%nat, 1); (3%nat, 2)].
Proof.
  eexists. split; [vm_compute; reflexivity|]. split; [lia|].
  destruct (try_count_counts_attempts nat (Demo.env true) 3 5
              (Demo.worker None (Some (Demo.cb_retry 3))) Demo.rec_add
              Demo.w0 _ eq_refl ltac:(lia))
    as (m & _ & _ & Hfirst & _).
  exact Hfirst.
Defined.
